(** * MAI-UI desktop navigation agent: the action-prediction protocol

    A shallow embedding of [src/mai_desktop_navigation_agent.py]
    ([parse_tagged_text], [parse_action_to_structure_output],
    [MAIDesktopNavigationAgent.mem2response] and [.predict]) and the
    properties of its parser, coordinate codec, duplicate-action guard and
    retry loop.  A second part embeds the rest of that file
    ([history_responses], [_build_messages], [mask_image_urls_for_logging]),
    the controller of [examples/desktop_agent_full_example.py]
    ([_normalize_to_screen], [_launch]) and the coordinate functions of
    [src/mai_desktop_oneshot_agent.py] and
    [src/mai_desktop_http_mcp_server.py].

    Conventions of the model.
    - A Python [str] is a [string] of bytes (its UTF-8 encoding).  The
      whitespace removed by [str.strip()] is that of [str.isspace], the
      ASCII and the other Unicode characters.  [str.lower()] is ASCII
      lower-casing: a statement that depends on it is about ASCII text.
    - A value produced by [json.loads] is a [json] tree.  A number is an exact
      rational: binary64 rounding and the literals NaN / Infinity are outside
      the model, and an [int] and a [float] of equal value are the same
      number (Python compares them equal).  The result of a division is kept
      in lowest terms, so that equal numbers are equal terms.  A statement
      about a threshold on computed numbers keeps the margin [slack] from
      the threshold, inside which the rounding of the code decides.
    - A Python exception is a [Raise] result carrying the exception class.
    - The model endpoint is a function from the message list and the number
      of the attempt to the text it answers, or to the exception of the call.
    - Logging and printing have no effect on any value returned or stored and
      are left out.
    The real numbers serve only to relate the rational test of the guard to
    the Euclidean distance of the source ([dist_below_distance]). *)

From Stdlib Require Import String Ascii List ZArith NArith QArith Qround Qabs Bool Lia.
From Stdlib Require Import Reals Qreals Lra.
From Stdlib Require Import Lqa.
Import ListNotations.

Local Open Scope string_scope.

(** ** Python strings *)

Module Str.

Definition dquote : ascii := "034"%char.

(** [after p s] is the rest of [s] behind the prefix [p], when [s] starts
    with [p]: one literal of a pattern matched at the current position. *)
Fixpoint after (p s : string) : option string :=
  match p with
  | EmptyString => Some s
  | String a p' =>
      match s with
      | EmptyString => None
      | String b s' => if Ascii.eqb a b then after p' s' else None
      end
  end.

Definition startswith (p s : string) : bool :=
  match after p s with Some _ => true | None => false end.

(** [p in s] for two strings. *)
Fixpoint contains (p s : string) : bool :=
  if startswith p s then true
  else match s with
       | EmptyString => false
       | String _ s' => contains p s'
       end.

(** [s.replace(old, new)] for a non-empty [old]: occurrences are replaced
    from the left and do not overlap; [skip] counts the bytes of the
    occurrence just replaced that are still to be passed over. *)
Fixpoint replace_from (old new : string) (skip : nat) (s : string) : string :=
  match s with
  | EmptyString => EmptyString
  | String c s' =>
      match skip with
      | S k => replace_from old new k s'
      | O =>
          if startswith old s
          then new ++ replace_from old new (String.length old - 1) s'
          else String c (replace_from old new 0 s')
      end
  end.

Definition replace (old new s : string) : string := replace_from old new 0 s.

Fixpoint lstrip_by (f : ascii -> bool) (s : string) : string :=
  match s with
  | EmptyString => EmptyString
  | String c s' => if f c then lstrip_by f s' else s
  end.

Fixpoint rstrip_by (f : ascii -> bool) (s : string) : string :=
  match s with
  | EmptyString => EmptyString
  | String c s' =>
      match rstrip_by f s' with
      | EmptyString => if f c then EmptyString else String c EmptyString
      | r => String c r
      end
  end.

Definition strip_by (f : ascii -> bool) (s : string) : string :=
  rstrip_by f (lstrip_by f s).

(** The characters for which [str.isspace] holds, by the bytes of their
    UTF-8 encodings.  One byte: TAB LF VT FF CR, FS GS RS US, space. *)
Definition isspace (c : ascii) : bool :=
  let n := N_of_ascii c in
  ((9 <=? n) && (n <=? 13) || (28 <=? n) && (n <=? 32))%N.

Definition byte_is (c : ascii) (n : N) : bool := (N_of_ascii c =? n)%N.

Definition byte_in (c : ascii) (lo hi : N) : bool :=
  ((lo <=? N_of_ascii c) && (N_of_ascii c <=? hi))%N.

(** Two bytes: U+0085 (C2 85) and U+00A0 (C2 A0). *)
Definition isspace2 (a b : ascii) : bool :=
  byte_is a 194 && (byte_is b 133 || byte_is b 160).

(** Three bytes: U+1680 (E1 9A 80); U+2000 to U+200A, U+2028, U+2029 and
    U+202F (E2 80 80 to 8A, A8, A9, AF); U+205F (E2 81 9F); U+3000
    (E3 80 80). *)
Definition isspace3 (a b c : ascii) : bool :=
  byte_is a 225 && byte_is b 154 && byte_is c 128
  || byte_is a 226 && byte_is b 128
     && (byte_in c 128 138 || byte_is c 168 || byte_is c 169 || byte_is c 175)
  || byte_is a 226 && byte_is b 129 && byte_is c 159
  || byte_is a 227 && byte_is b 128 && byte_is c 128.

(** What follows the whitespace character at the head of [s], if [s] begins
    with one. *)
Definition ws_head (s : string) : option string :=
  match s with
  | String a r =>
      if isspace a then Some r
      else match r with
           | String b r' =>
               if isspace2 a b then Some r'
               else match r' with
                    | String c r'' => if isspace3 a b c then Some r'' else None
                    | EmptyString => None
                    end
           | EmptyString => None
           end
  | EmptyString => None
  end.

(** [s.lstrip()] *)
Fixpoint lstrip (s : string) : string :=
  match s with
  | String a r =>
      if isspace a then lstrip r
      else match r with
           | String b r' =>
               if isspace2 a b then lstrip r'
               else match r' with
                    | String c r'' => if isspace3 a b c then lstrip r'' else s
                    | EmptyString => s
                    end
           | EmptyString => s
           end
  | EmptyString => EmptyString
  end.

(** [s] holds whitespace characters only. *)
Definition blank (s : string) : bool :=
  match lstrip s with EmptyString => true | String _ _ => false end.

(** [s.rstrip()]: [s] up to the first position from which only whitespace
    characters follow. *)
Fixpoint rstrip (s : string) : string :=
  match s with
  | EmptyString => EmptyString
  | String c s' => if blank s then EmptyString else String c (rstrip s')
  end.

(** [s.strip()] *)
Definition strip (s : string) : string := rstrip (lstrip s).

(** [s.strip(c)] for [c] the double-quote character. *)
Definition strip_quotes (s : string) : string :=
  strip_by (Ascii.eqb dquote) s.

Definition lower_char (c : ascii) : ascii :=
  let n := N_of_ascii c in
  if ((65 <=? n) && (n <=? 90))%N then ascii_of_N (n + 32) else c.

(** [s.lower()] *)
Fixpoint lower (s : string) : string :=
  match s with
  | EmptyString => EmptyString
  | String c s' => String (lower_char c) (lower s')
  end.

(** Number of code points of a UTF-8 string: [len(s)]. *)
Fixpoint len (s : string) : nat :=
  match s with
  | EmptyString => O
  | String c s' =>
      let n := N_of_ascii c in
      if ((128 <=? n) && (n <? 192))%N then len s' else S (len s')
  end.

(** Every byte of [s] satisfies [f]. *)
Fixpoint all (f : ascii -> bool) (s : string) : bool :=
  match s with
  | EmptyString => true
  | String c s' => f c && all f s'
  end.

Fixpoint last_char (s : string) : option ascii :=
  match s with
  | EmptyString => None
  | String c EmptyString => Some c
  | String _ s' => last_char s'
  end.

Definition first_char (s : string) : option ascii :=
  match s with
  | EmptyString => None
  | String c _ => Some c
  end.

Definition is_lt (c : ascii) : bool := Ascii.eqb c "<".

(** A tag of the text protocol: [<] followed by bytes that are not [<]. *)
Definition is_tag (p : string) : bool :=
  match p with
  | String c p' => is_lt c && all (fun d => negb (is_lt d)) p'
  | EmptyString => false
  end.

(** The first [n] code points of a UTF-8 string: [s[:n]]. *)
Fixpoint take (n : nat) (s : string) : string :=
  match s with
  | EmptyString => EmptyString
  | String c s' =>
      let b := N_of_ascii c in
      if ((128 <=? b) && (b <? 192))%N then String c (take n s')
      else match n with
           | O => EmptyString
           | S n' => String c (take n' s')
           end
  end.

(** Writing aid for JSON literals: every apostrophe stands for a double
    quote, so [qq] of [{'a':1}] is that object written with double quotes. *)
Fixpoint qq (s : string) : string :=
  match s with
  | EmptyString => EmptyString
  | String c s' => String (if Ascii.eqb c "'"%char then dquote else c) (qq s')
  end.

End Str.

(** ** Python values and exceptions *)

Inductive exn : Set :=
| ValueError | TypeError | AttributeError | KeyError | IndexError.

Inductive res (A : Type) : Type :=
| Ok (a : A)
| Raise (e : exn).
Arguments Ok {A} a.
Arguments Raise {A} e.

Definition bind {A B : Type} (r : res A) (k : A -> res B) : res B :=
  match r with
  | Ok a => k a
  | Raise e => Raise e
  end.

Notation "x <- r ;; k" := (bind r (fun x => k))
  (at level 61, r at next level, right associativity).
Notation "' p <- r ;; k" := (bind r (fun x => let p := x in k))
  (at level 61, p pattern, r at next level, right associativity).

#[local] Set Warnings "-register-all".

(** A decoded JSON document; [JObj] keeps the insertion order of a [dict]
    and holds every key once. *)
Inductive json : Type :=
| JNull
| JBool (b : bool)
| JNum (q : Q)
| JStr (s : string)
| JArr (l : list json)
| JObj (d : list (string * json)).

Definition dict : Type := list (string * json).

(** [d.get(k)] on the entries of a dict. *)
Fixpoint lookup (k : string) (d : dict) : option json :=
  match d with
  | [] => None
  | (k', v) :: d' => if String.eqb k k' then Some v else lookup k d'
  end.

(** [d[k] = v]: an existing key keeps its place, a new key goes last. *)
Fixpoint dict_set (k : string) (v : json) (d : dict) : dict :=
  match d with
  | [] => [(k, v)]
  | (k', v') :: d' =>
      if String.eqb k k' then (k', v) :: d' else (k', v') :: dict_set k v d'
  end.

(** The number behind a value that Python arithmetic accepts: a number, or a
    bool (which is an [int]). *)
Definition as_num (v : json) : option Q :=
  match v with
  | JNum q => Some q
  | JBool true => Some 1%Q
  | JBool false => Some 0%Q
  | _ => None
  end.

(** [a == b] *)
Fixpoint py_eq (a b : json) : bool :=
  match a, b with
  | JNull, JNull => true
  | JBool x, JBool y => Bool.eqb x y
  | JBool x, JNum q => Qeq_bool (if x then 1 else 0) q
  | JNum q, JBool x => Qeq_bool q (if x then 1 else 0)
  | JNum p, JNum q => Qeq_bool p q
  | JStr s, JStr t => String.eqb s t
  | JArr l, JArr m =>
      (fix all2 (l m : list json) : bool :=
         match l, m with
         | [], [] => true
         | x :: l', y :: m' => py_eq x y && all2 l' m'
         | _, _ => false
         end) l m
  | JObj d, JObj e =>
      Nat.eqb (List.length d) (List.length e)
      && (fix sub (d : dict) : bool :=
            match d with
            | [] => true
            | (k, v) :: d' =>
                match lookup k e with
                | Some w => py_eq v w && sub d'
                | None => false
                end
            end) d
  | _, _ => false
  end.

(** [bool(v)] *)
Definition truthy (v : json) : bool :=
  match v with
  | JNull => false
  | JBool b => b
  | JNum q => negb (Qeq_bool q 0)
  | JStr s => negb (String.eqb s "")
  | JArr l => match l with [] => false | _ => true end
  | JObj d => match d with [] => false | _ => true end
  end.

(** [k in v] for a string [k]. *)
Definition py_in (k : string) (v : json) : res bool :=
  match v with
  | JObj d => Ok (match lookup k d with Some _ => true | None => false end)
  | JArr l => Ok (existsb (py_eq (JStr k)) l)
  | JStr s => Ok (Str.contains k s)
  | _ => Raise TypeError
  end.

(** [v[k]] for a string [k], after [k in v] held. *)
Definition py_getitem (v : json) (k : string) : res json :=
  match v with
  | JObj d => match lookup k d with Some w => Ok w | None => Raise KeyError end
  | _ => Raise TypeError
  end.

(** [v[k] = w] for a string [k]. *)
Definition py_setitem (v : json) (k : string) (w : json) : res json :=
  match v with
  | JObj d => Ok (JObj (dict_set k w d))
  | _ => Raise TypeError
  end.

(** [v.get(k, default)] *)
Definition py_get (v : json) (k : string) (default : json) : res json :=
  match v with
  | JObj d => Ok (match lookup k d with Some w => w | None => default end)
  | _ => Raise AttributeError
  end.

(** [len(v)] *)
Definition py_len (v : json) : res nat :=
  match v with
  | JArr l => Ok (List.length l)
  | JStr s => Ok (Str.len s)
  | JObj d => Ok (List.length d)
  | _ => Raise TypeError
  end.

(** [v[i]] for an index [i] that is 0 or 1, after [len(v) == 2] held. *)
Definition py_index (v : json) (i : nat) : res json :=
  match v with
  | JArr l => match nth_error l i with Some w => Ok w | None => Raise IndexError end
  | JStr s => match String.get i s with
              | Some c => Ok (JStr (String c ""))
              | None => Raise IndexError
              end
  | JObj _ => Raise KeyError
  | _ => Raise TypeError
  end.

(** [int(q)]: truncation towards zero. *)
Definition py_int (q : Q) : Z :=
  if Qle_bool 0 q then Qfloor q else Qceiling q.

(** ** [json.loads]

    The decoder of the Python standard library, as a lexer that is a state
    machine over the bytes of the text and a stack automaton over its tokens.
    A maximal run of number characters (or of letters) that is not wholly one
    number (or one of [true], [false], [null]) is an error, as it is for the
    library: what follows a literal there must be a delimiter. *)

Module Json.

Inductive token : Type :=
| TLBrace | TRBrace | TLBracket | TRBracket | TColon | TComma
| TLit (v : json).

(** *** Numbers *)

Definition is_digit (c : ascii) : bool :=
  let n := N_of_ascii c in ((48 <=? n) && (n <=? 57))%N.

Definition digit_val (c : ascii) : Z := Z.of_N (N_of_ascii c) - 48.

(** The digits at the head of [s], their value appended to [acc], how many
    there are, and the rest of [s]. *)
Fixpoint digits (s : string) (acc : Z) (n : nat) : Z * nat * string :=
  match s with
  | String c s' =>
      if is_digit c then digits s' (10 * acc + digit_val c) (S n)
      else (acc, n, s)
  | EmptyString => (acc, n, s)
  end.

Definition is_char (c : ascii) (s : string) : bool :=
  match s with String d _ => Ascii.eqb c d | EmptyString => false end.

Definition tail (s : string) : string :=
  match s with String _ s' => s' | EmptyString => EmptyString end.

(** [m * 10 ^ e] *)
Definition scale10 (m e : Z) : Q :=
  if (0 <=? e)%Z then inject_Z (m * 10 ^ e)
  else Qred (Qmake m (Z.to_pos (10 ^ (- e)))).

(** The whole of [s] read as a JSON number: an optional minus sign, an
    integer part without a leading zero (unless it is the single digit 0),
    an optional fraction (a dot and at least one digit) and an optional
    exponent ([e] or [E], an optional sign and at least one digit). *)
Definition number (s : string) : option Q :=
  let neg := is_char "-" s in
  let s := if neg then tail s else s in
  let '(ip, ni, s1) := digits s 0%Z O in
  if Nat.eqb ni 0 || (is_char "0" s && negb (Nat.eqb ni 1)) then None
  else
    let frac :=
      if is_char "." s1 then
        let '(m, nf, s2) := digits (tail s1) ip O in
        if Nat.eqb nf 0 then None else Some (m, nf, s2)
      else Some (ip, O, s1) in
    match frac with
    | None => None
    | Some (m, nf, s2) =>
        let expo :=
          if is_char "e" s2 || is_char "E" s2 then
            let s3 := tail s2 in
            let eneg := is_char "-" s3 in
            let s4 := if eneg || is_char "+" s3 then tail s3 else s3 in
            let '(e, ne, s5) := digits s4 0%Z O in
            if Nat.eqb ne 0 then None
            else Some ((if eneg then - e else e)%Z, s5)
          else Some (0%Z, s2) in
        match expo with
        | Some (e, EmptyString) =>
            let m := if neg then (- m)%Z else m in
            Some (scale10 m (e - Z.of_nat nf))
        | _ => None
        end
    end.

(** *** String literals *)

(** One decoded unit of a string literal: a byte of the text, or the code
    point of a [\u] escape. *)
Inductive unit_ : Type :=
| UByte (c : ascii)
| UCode (n : N).

Definition hex_val (c : ascii) : option N :=
  let n := N_of_ascii c in
  if ((48 <=? n) && (n <=? 57))%N then Some (n - 48)%N
  else if ((97 <=? n) && (n <=? 102))%N then Some (n - 87)%N
  else if ((65 <=? n) && (n <=? 70))%N then Some (n - 55)%N
  else None.

Definition byte (n : N) : ascii := ascii_of_N n.

(** UTF-8 encoding of a code point. *)
Definition utf8 (n : N) : string :=
  (if n <? 128 then String (byte n) ""
   else if n <? 2048 then
     String (byte (192 + n / 64)) (String (byte (128 + n mod 64)) "")
   else if n <? 65536 then
     String (byte (224 + n / 4096))
       (String (byte (128 + (n / 64) mod 64)) (String (byte (128 + n mod 64)) ""))
   else
     String (byte (240 + n / 262144))
       (String (byte (128 + (n / 4096) mod 64))
          (String (byte (128 + (n / 64) mod 64))
             (String (byte (128 + n mod 64)) ""))))%N.

(** The bytes of a decoded literal; a high surrogate followed by a low one
    is one code point. *)
Fixpoint encode (us : list unit_) : string :=
  match us with
  | [] => ""
  | UByte c :: us' => String c (encode us')
  | UCode hi :: us' =>
      match us' with
      | UCode lo :: us'' =>
          if ((55296 <=? hi) && (hi <? 56320) && (56320 <=? lo) && (lo <? 57344))%N
          then utf8 (65536 + (hi - 55296) * 1024 + (lo - 56320))%N ++ encode us''
          else utf8 hi ++ encode us'
      | _ => utf8 hi ++ encode us'
      end
  end.

(** The byte an escape letter stands for. *)
Definition escape (c : ascii) : option ascii :=
  let n := N_of_ascii c in
  if (n =? 34)%N || (n =? 92)%N || (n =? 47)%N then Some c
  else if (n =? 98)%N then Some (byte 8)
  else if (n =? 102)%N then Some (byte 12)
  else if (n =? 110)%N then Some (byte 10)
  else if (n =? 114)%N then Some (byte 13)
  else if (n =? 116)%N then Some (byte 9)
  else None.

(** *** The lexer *)

Inductive esc_state : Type :=
| ENone
| EBackslash
| EHex (k : nat) (acc : N).

Inductive lex_state : Type :=
| LIdle
| LWord (acc : string)
| LNumber (acc : string)
| LString (acc : list unit_) (e : esc_state).

Definition is_ws (c : ascii) : bool :=
  let n := N_of_ascii c in ((n =? 32) || (n =? 9) || (n =? 10) || (n =? 13))%N.

Definition is_alpha (c : ascii) : bool :=
  let n := N_of_ascii c in
  ((65 <=? n) && (n <=? 90) || (97 <=? n) && (n <=? 122))%N.

Definition is_number_char (c : ascii) : bool :=
  let n := N_of_ascii c in
  is_digit c || (n =? 43)%N || (n =? 45)%N || (n =? 46)%N
  || (n =? 101)%N || (n =? 69)%N.

Definition word (s : string) : option json :=
  if String.eqb s "true" then Some (JBool true)
  else if String.eqb s "false" then Some (JBool false)
  else if String.eqb s "null" then Some JNull
  else None.

Definition snoc (s : string) (c : ascii) : string := s ++ String c "".

(** A byte met outside any literal. *)
Definition lex_idle (c : ascii) : option (lex_state * list token) :=
  let n := N_of_ascii c in
  if is_ws c then Some (LIdle, [])
  else if (n =? 123)%N then Some (LIdle, [TLBrace])
  else if (n =? 125)%N then Some (LIdle, [TRBrace])
  else if (n =? 91)%N then Some (LIdle, [TLBracket])
  else if (n =? 93)%N then Some (LIdle, [TRBracket])
  else if (n =? 58)%N then Some (LIdle, [TColon])
  else if (n =? 44)%N then Some (LIdle, [TComma])
  else if (n =? 34)%N then Some (LString [] ENone, [])
  else if is_digit c || (n =? 45)%N then Some (LNumber (String c ""), [])
  else if is_alpha c then Some (LWord (String c ""), [])
  else None.

(** The token of a finished run. *)
Definition close_run (st : lex_state) : option (list token) :=
  match st with
  | LIdle => Some []
  | LWord w => option_map (fun v => [TLit v]) (word w)
  | LNumber w => option_map (fun q => [TLit (JNum q)]) (number w)
  | LString _ _ => None
  end.

Definition lex_step (st : lex_state) (c : ascii) : option (lex_state * list token) :=
  match st with
  | LIdle => lex_idle c
  | LWord w =>
      if is_alpha c then Some (LWord (snoc w c), [])
      else match close_run st, lex_idle c with
           | Some t, Some (st', t') => Some (st', (t ++ t')%list)
           | _, _ => None
           end
  | LNumber w =>
      if is_number_char c then Some (LNumber (snoc w c), [])
      else match close_run st, lex_idle c with
           | Some t, Some (st', t') => Some (st', (t ++ t')%list)
           | _, _ => None
           end
  | LString acc ENone =>
      let n := N_of_ascii c in
      if (n =? 34)%N then Some (LIdle, [TLit (JStr (encode (rev acc)))])
      else if (n =? 92)%N then Some (LString acc EBackslash, [])
      else if (n <? 32)%N then None
      else Some (LString (UByte c :: acc) ENone, [])
  | LString acc EBackslash =>
      if Ascii.eqb c "u" then Some (LString acc (EHex 4 0%N), [])
      else option_map (fun b => (LString (UByte b :: acc) ENone, [])) (escape c)
  | LString acc (EHex k h) =>
      match hex_val c with
      | None => None
      | Some d =>
          let h' := (16 * h + d)%N in
          match k with
          | S (S k') => Some (LString acc (EHex (S k') h'), [])
          | _ => Some (LString (UCode h' :: acc) ENone, [])
          end
      end
  end.

Fixpoint lex (st : lex_state) (s : string) : option (list token) :=
  match s with
  | EmptyString => close_run st
  | String c s' =>
      match lex_step st c with
      | None => None
      | Some (st', t) => option_map (app t) (lex st' s')
      end
  end.

(** *** The grammar *)

(** An array or object that is still open. *)
Inductive frame : Type :=
| FArr (items : list json)
| FObj (d : dict) (key : option string).

Inductive expect : Type :=
| EValue | EValueOrClose | EKeyOrClose | EKey | EColon | ECommaOrClose
| EEnd (v : json).

(** A value is complete: it is the document, the next item of the open
    array, or the value of the pending key of the open object. *)
Definition complete (v : json) (stack : list frame) : option (list frame * expect) :=
  match stack with
  | [] => Some ([], EEnd v)
  | FArr items :: r => Some (FArr (v :: items) :: r, ECommaOrClose)
  | FObj d (Some k) :: r => Some (FObj (dict_set k v d) None :: r, ECommaOrClose)
  | FObj _ None :: _ => None
  end.

Definition value_start (t : token) (stack : list frame) : option (list frame * expect) :=
  match t with
  | TLit v => complete v stack
  | TLBracket => Some (FArr [] :: stack, EValueOrClose)
  | TLBrace => Some (FObj [] None :: stack, EKeyOrClose)
  | _ => None
  end.

Definition key_start (t : token) (stack : list frame) : option (list frame * expect) :=
  match t, stack with
  | TLit (JStr k), FObj d None :: r => Some (FObj d (Some k) :: r, EColon)
  | _, _ => None
  end.

Definition close (t : token) (stack : list frame) : option (list frame * expect) :=
  match t, stack with
  | TRBracket, FArr items :: r => complete (JArr (rev items)) r
  | TRBrace, FObj d None :: r => complete (JObj d) r
  | _, _ => None
  end.

Definition parse_step (stack : list frame) (e : expect) (t : token)
  : option (list frame * expect) :=
  match e with
  | EValue => value_start t stack
  | EValueOrClose =>
      match t with TRBracket => close t stack | _ => value_start t stack end
  | EKeyOrClose =>
      match t with TRBrace => close t stack | _ => key_start t stack end
  | EKey => key_start t stack
  | EColon => match t with TColon => Some (stack, EValue) | _ => None end
  | ECommaOrClose =>
      match t, stack with
      | TComma, FArr _ :: _ => Some (stack, EValue)
      | TComma, FObj _ None :: _ => Some (stack, EKey)
      | _, _ => close t stack
      end
  | EEnd _ => None
  end.

Fixpoint parse (stack : list frame) (e : expect) (ts : list token) : option json :=
  match ts with
  | [] => match e with EEnd v => Some v | _ => None end
  | t :: ts' =>
      match parse_step stack e t with
      | Some (stack', e') => parse stack' e' ts'
      | None => None
      end
  end.

(** [json.loads(s)]; [None] is [json.JSONDecodeError]. *)
Definition loads (s : string) : option json :=
  match lex LIdle s with
  | Some ts => parse [] EValue ts
  | None => None
  end.

End Json.

(** ** The response parser *)

(** [re.search(pattern, text, re.DOTALL)] for the pattern of
    [parse_tagged_text],

      <thinking>(.*?)</thinking>.*?</?invoke>(.*?)</invoke>

    as the backtracking matcher runs it: each lazy [.*?] is tried at its
    shortest length first, and a failure of what follows makes it one byte
    longer.  The result is the pair of the two groups. *)
Module Re.

(** (.*?)</invoke> : the second group. *)
Fixpoint body_close (s : string) : option string :=
  match Str.after "</invoke>" s with
  | Some _ => Some ""
  | None =>
      match s with
      | EmptyString => None
      | String c s' => option_map (String c) (body_close s')
      end
  end.

(** </?invoke>(.*?)</invoke> at the head of [s]. *)
Definition invoke_block (s : string) : option string :=
  match Str.after "</invoke>" s with
  | Some r => body_close r
  | None =>
      match Str.after "<invoke>" s with
      | Some r => body_close r
      | None => None
      end
  end.

(** .*?</?invoke>(.*?)</invoke> *)
Fixpoint skip_open (s : string) : option string :=
  match invoke_block s with
  | Some b => Some b
  | None =>
      match s with
      | EmptyString => None
      | String _ s' => skip_open s'
      end
  end.

Definition thinking_end (s : string) : option string :=
  match Str.after "</thinking>" s with
  | Some r => skip_open r
  | None => None
  end.

(** (.*?)</thinking>.*?</?invoke>(.*?)</invoke> : both groups. *)
Fixpoint think_close (s : string) : option (string * string) :=
  match thinking_end s with
  | Some b => Some ("", b)
  | None =>
      match s with
      | EmptyString => None
      | String c s' =>
          option_map (fun m => (String c (fst m), snd m)) (think_close s')
      end
  end.

Definition match_here (s : string) : option (string * string) :=
  match Str.after "<thinking>" s with
  | Some r => think_close r
  | None => None
  end.

(** The leftmost start position at which the pattern matches. *)
Fixpoint search (s : string) : option (string * string) :=
  match match_here s with
  | Some m => Some m
  | None =>
      match s with
      | EmptyString => None
      | String _ s' => search s'
      end
  end.

End Re.

Definition SCALE_FACTOR : Q := 999.

(** The shim for the thinking-model output format at the head of
    [parse_tagged_text]. *)
Definition rewrite_think (text : string) : string :=
  if Str.contains "</think>" text && negb (Str.contains "</thinking>" text)
  then "<thinking>" ++ Str.replace "</think>" "</thinking>" text
  else text.

(** The result of [parse_tagged_text] before the body is decoded: the two
    groups, stripped, or [None] twice. *)
Definition tagged_groups (text : string) : option string * option string :=
  match Re.search text with
  | Some (g1, g2) =>
      (Some (Str.strip_quotes (Str.strip g1)),
       Some (Str.strip_quotes (Str.strip g2)))
  | None => (None, None)
  end.

(** [parse_tagged_text]: the pair ([result["thinking"]],
    [result["tool_call"]]); Python's [None] is [None] for the thinking and
    [JNull] for the tool call.  An empty body is falsy and stays the empty
    string. *)
Definition parse_tagged_text (text : string) : res (option string * json) :=
  let text := rewrite_think text in
  let result := tagged_groups text in
  match snd result with
  | None => Ok (fst result, JNull)
  | Some EmptyString => Ok (fst result, JStr "")
  | Some body =>
      match Json.loads body with
      | Some v => Ok (fst result, v)
      | None => Raise ValueError
      end
  end.

(** [point_x > 1] *)
Definition gt_one (v : json) : res bool :=
  match as_num v with
  | Some q => Ok (negb (Qle_bool q 1))
  | None => Raise TypeError
  end.

(** [point_x / SCALE_FACTOR] *)
Definition div_scale (v : json) : res json :=
  match as_num v with
  | Some q => Ok (JNum (Qred (q / SCALE_FACTOR)))
  | None => Raise TypeError
  end.

(** [(x1 + x2) / 2]: a sum of two strs or lists is not divisible, so every
    operand that is not a number ends in [TypeError]. *)
Definition midpoint (a b : json) : res json :=
  match as_num a, as_num b with
  | Some x, Some y => Ok (JNum (Qred ((x + y) / 2)))
  | _, _ => Raise TypeError
  end.

(** The point of a coordinate value: the pair itself, or the centre of a
    box.  A str or dict of length 2 or 4 unpacks into strs, on which the
    comparison or the division that follows raises [TypeError]. *)
Definition point_of (coordinates : json) : res (json * json) :=
  n <- py_len coordinates ;;
  if Nat.eqb n 2 then
    match coordinates with
    | JArr [point_x; point_y] => Ok (point_x, point_y)
    | _ => Raise TypeError
    end
  else if Nat.eqb n 4 then
    match coordinates with
    | JArr [x1; y1; x2; y2] =>
        point_x <- midpoint x1 x2 ;;
        point_y <- midpoint y1 y2 ;;
        Ok (point_x, point_y)
    | _ => Raise TypeError
    end
  else Raise ValueError.

(** [if point_x > 1 or point_y > 1:] divide both by [SCALE_FACTOR]. *)
Definition to_unit (point_x point_y : json) : res (json * json) :=
  bx <- gt_one point_x ;;
  b <- (if bx : bool then Ok true else gt_one point_y) ;;
  if b : bool then
    x <- div_scale point_x ;;
    y <- div_scale point_y ;;
    Ok (x, y)
  else Ok (point_x, point_y).

(** The block that [parse_action_to_structure_output] runs for each of
    ["coordinate"], ["start_coordinate"] and ["end_coordinate"]. *)
Definition normalize_field (key : string) (action : json) : res json :=
  present <- py_in key action ;;
  if present : bool then
    coordinates <- py_getitem action key ;;
    p <- point_of coordinates ;;
    u <- to_unit (fst p) (snd p) ;;
    py_setitem action key (JArr [fst u; snd u])
  else Ok action.

(** The action selected from the tool call: wrapped or direct. *)
Definition select_action (tool_call : json) : res json :=
  wrapped <- py_in "arguments" tool_call ;;
  if wrapped : bool then py_getitem tool_call "arguments"
  else
    direct <- py_in "action" tool_call ;;
    if direct : bool then Ok tool_call else Raise ValueError.

(** What [parse_action_to_structure_output] does with the parsed tool call. *)
Definition structure_output (tool_call : json) : res json :=
  action <- select_action tool_call ;;
  action <- normalize_field "coordinate" action ;;
  action <- normalize_field "start_coordinate" action ;;
  normalize_field "end_coordinate" action.

(** [parse_action_to_structure_output]: the pair ([thinking], [action_json]). *)
Definition parse_action_to_structure_output (text : string)
  : res (option string * json) :=
  let text := Str.strip text in
  results <- parse_tagged_text text ;;
  action <- structure_output (snd results) ;;
  Ok (fst results, action).

(** ** The trajectory store *)

(** Modelled from the spec: the classes [TrajStep] (module [unified_memory])
    and [BaseAgent] with its [traj_memory] (module [base]) are not among the
    sources.  A step has the fields that [predict] passes to the constructor
    and the two auxiliary texts that [_build_messages] reads; the memory has
    the task goal and the ordered steps.  An image is represented by its
    bytes. *)
Record TrajStep : Type := {
  screenshot : string;
  accessibility_tree : option string;
  prediction : string;
  action : json;
  conclusion : string;
  thought : option string;
  step_index : nat;
  agent_type : string;
  model_name : string;
  screenshot_bytes : string;
  structured_action : json;
  ask_user_response : string;
  mcp_response : string
}.

Record TrajMemory : Type := {
  task_goal : option string;
  steps : list TrajStep
}.

(** The observation passed to [predict]: [obs["screenshot"]],
    [obs.get("accessibility_tree")] and [obs.get("execution_result", "")]. *)
Record Obs : Type := {
  obs_screenshot : string;
  obs_accessibility_tree : option string;
  obs_execution_result : option string
}.

(** Modelled from the spec: [utils.safe_pil_to_bytes] is not among the
    sources; the image is already its bytes. *)
Definition safe_pil_to_bytes (image : string) : string := image.

(** [steps[-1]] when [len(steps) > 0]. *)
Fixpoint last_step (l : list TrajStep) : option TrajStep :=
  match l with
  | [] => None
  | [s] => Some s
  | _ :: l' => last_step l'
  end.

(** ** Rendering the history: [mem2response] and [_build_messages] *)

(** [x < 1.5] *)
Definition lt_1_5 (v : json) : res bool :=
  match as_num v with
  | Some q => Ok (negb (Qle_bool (3 # 2) q))
  | None => Raise TypeError
  end.

(** [int(x * SCALE_FACTOR)] *)
Definition int_scaled (v : json) : res json :=
  match as_num v with
  | Some q => Ok (JNum (inject_Z (py_int (q * SCALE_FACTOR))))
  | None => Raise TypeError
  end.

(** [int(x)].  Every coordinate that [predict] stores is a number; on a str
    Python's [int] would read a numeral, which is not modelled. *)
Definition int_of (v : json) : res json :=
  match as_num v with
  | Some q => Ok (JNum (inject_Z (py_int q)))
  | None => Raise TypeError
  end.

Fixpoint map_res {A B : Type} (f : A -> res B) (l : list A) : res (list B) :=
  match l with
  | [] => Ok []
  | a :: l' => b <- f a ;; bs <- map_res f l' ;; Ok (b :: bs)
  end.

(** The local function [convert_coord] of [mem2response]. *)
Definition convert_coord (coord_list : json) : res json :=
  n <- py_len coord_list ;;
  if Nat.eqb n 2 || Nat.eqb n 4 then
    match coord_list with
    | JArr (x :: y :: rest) =>
        bx <- lt_1_5 x ;;
        b <- (if bx : bool then lt_1_5 y else Ok false) ;;
        l <- map_res (if b : bool then int_scaled else int_of) (x :: y :: rest) ;;
        Ok (JArr l)
    | _ => Raise TypeError
    end
  else Ok coord_list.

(** [v[:2]] *)
Definition py_slice2 (v : json) : res json :=
  match v with
  | JArr l => Ok (JArr (firstn 2 l))
  | JStr s => Ok (JStr (Str.take 2 s))
  | _ => Raise TypeError
  end.

Definition convert_field (key : string) (slice : bool) (action_json : json)
  : res json :=
  present <- py_in key action_json ;;
  if present : bool then
    v <- py_getitem action_json key ;;
    c <- convert_coord v ;;
    c <- (if slice then py_slice2 c else Ok c) ;;
    py_setitem action_json key c
  else Ok action_json.

(** [mem2response]: the returned text is
    [<thinking>\n{thinking_content}\n</thinking>\n<invoke>\n{tool_call_json}\n</invoke>]
    with [tool_call_json = json.dumps(tool_call_dict)]; the model keeps the
    two parts, [thinking_content] and [tool_call_dict]. *)
Definition mem2response (step : TrajStep) : res (string * json) :=
  let thinking := thought step in
  let structured_action := structured_action step in
  if negb (truthy structured_action) then Raise ValueError
  else
    action_json <- py_get structured_action "action_json" (JObj []) ;;
    action_json <- convert_field "coordinate" false action_json ;;
    action_json <- convert_field "start_coordinate" true action_json ;;
    action_json <- convert_field "end_coordinate" true action_json ;;
    let tool_call_dict :=
      JObj [("name", JStr "desktop_use"); ("arguments", action_json)] in
    let thinking_content :=
      match thinking with
      | Some (String c t) => String c t
      | _ => "(proceeding with action)"
      end in
    Ok (thinking_content, tool_call_dict).

(** One entry of the message list sent to the model. *)
Inductive message : Type :=
| MText (role text : string)
| MAssistant (thinking_content : string) (tool_call_dict : json)
| MImage (png : string).

Definition step_messages (step : TrajStep) : res (list message) :=
  r <- mem2response step ;;
  Ok ([MAssistant (fst r) (snd r)]
      ++ (if String.eqb (ask_user_response step) "" then []
          else [MText "user" (ask_user_response step)])
      ++ (if String.eqb (mcp_response step) "" then []
          else [MText "user" (mcp_response step)])
      ++ (if String.eqb (conclusion step) "" then []
          else [MText "user" ("[EXECUTION RESULT]: " ++ conclusion step)]))%list.

Fixpoint history_messages (l : list TrajStep) : res (list message) :=
  match l with
  | [] => Ok []
  | step :: l' =>
      m <- step_messages step ;;
      ms <- history_messages l' ;;
      Ok (m ++ ms)%list
  end.

(** [_build_messages] *)
Definition _build_messages (system_prompt instruction image : string)
  (mem : TrajMemory) : res (list message) :=
  h <- history_messages (steps mem) ;;
  Ok ([MText "system" system_prompt; MText "user" instruction]
      ++ h ++ [MImage image])%list.

(** ** The duplicate-action guard *)

(** [a - b] *)
Definition py_sub (a b : json) : res Q :=
  match as_num a, as_num b with
  | Some x, Some y => Ok (x - y)
  | _, _ => Raise TypeError
  end.

(** [((l[0] - c[0])**2 + (l[1] - c[1])**2)**0.5 < 0.03].  The root of a
    rational is not rational in general; for [d >= 0], [d**0.5 < 0.03] is
    [d < 0.03**2].  The code computes the distance in binary64: for a
    distance close to 0.03 it can decide the other way. *)
Definition dist_below (last_coord curr_coord : json) : res bool :=
  l0 <- py_index last_coord 0 ;;
  c0 <- py_index curr_coord 0 ;;
  dx <- py_sub l0 c0 ;;
  l1 <- py_index last_coord 1 ;;
  c1 <- py_index curr_coord 1 ;;
  dy <- py_sub l1 c1 ;;
  Ok (negb (Qle_bool ((3 # 100) * (3 # 100)) (dx * dx + dy * dy))).

(** [v.lower()] *)
Definition py_lower (v : json) : res string :=
  match v with
  | JStr s => Ok (Str.lower s)
  | _ => Raise AttributeError
  end.

(** The value of [is_duplicate] after the three branches on
    [current_action_type]. *)
Definition is_duplicate (current_action_type last_action action_json : json)
  : res bool :=
  if py_eq current_action_type (JStr "click") then
    last_coord <- py_get last_action "coordinate" (JArr []) ;;
    curr_coord <- py_get action_json "coordinate" (JArr []) ;;
    n <- py_len last_coord ;;
    if Nat.eqb n 2 then
      m <- py_len curr_coord ;;
      if Nat.eqb m 2 then dist_below last_coord curr_coord else Ok false
    else Ok false
  else if py_eq current_action_type (JStr "type") then
    last_text <- py_get last_action "text" (JStr "") ;;
    curr_text <- py_get action_json "text" (JStr "") ;;
    Ok (py_eq last_text curr_text && truthy last_text)
  else if py_eq current_action_type (JStr "launch") then
    t <- py_get last_action "text" (JStr "") ;;
    last_text <- py_lower t ;;
    t <- py_get action_json "text" (JStr "") ;;
    curr_text <- py_lower t ;;
    Ok (String.eqb last_text curr_text)
  else Ok false.

(** The guard of [predict]: whether the parsed action is blocked as a
    repetition of the action of the last step. *)
Definition duplicate_guard (steps : list TrajStep) (action_json : json)
  : res bool :=
  match last_step steps with
  | None => Ok false
  | Some last_step =>
      let last_action := action last_step in
      current_action_type <- py_get action_json "action" (JStr "") ;;
      if truthy last_action then
        last_type <- py_get last_action "action" (JStr "") ;;
        if py_eq current_action_type last_type
        then is_duplicate current_action_type last_action action_json
        else Ok false
      else Ok false
  end.

(** ** The prediction loop *)

Definition wait_action : json :=
  JObj [("action", JStr "wait"); ("duration", JNum 2)].

(** [f"{thinking}"] *)
Definition fmt (thinking : option string) : string :=
  match thinking with Some s => s | None => "None" end.

(** The prediction text that replaces the raw response of a blocked action. *)
Definition blocked_prediction (thinking : option string) : string :=
  "<thinking>" ++ fmt thinking ++ "</thinking> ⛔ 重复动作被阻止".

(** How one pass through the body of the retry loop ends: in the [except]
    branch, or at a [break] with the parsed action or with the substituted
    one. *)
Inductive attempt_result : Type :=
| Failed
| Parsed (prediction : string) (thinking : option string) (action_json : json)
| Blocked (prediction : string) (thinking : option string) (action_json : json).

(** One pass: [response] is what the model call and
    [response.choices[0].message.content] gave, or the exception. *)
Definition attempt (steps : list TrajStep) (response : res string)
  : attempt_result :=
  match response with
  | Raise _ => Failed
  | Ok content =>
      let prediction := Str.strip content in
      match parse_action_to_structure_output prediction with
      | Raise _ => Failed
      | Ok (thinking, action_json) =>
          match duplicate_guard steps action_json with
          | Raise _ => Failed
          | Ok true => Blocked (blocked_prediction thinking) thinking wait_action
          | Ok false => Parsed prediction thinking action_json
          end
      end
  end.

(** [for attempt in range(max_retries)], from attempt [k] with [n] to go. *)
Fixpoint retry (n k : nat) (run : nat -> attempt_result) : attempt_result :=
  match n with
  | O => Failed
  | S n' =>
      match run k with
      | Failed => retry n' (S k) run
      | r => r
      end
  end.

Definition max_retries : nat := 3.

(** The pair returned when every attempt failed. *)
Definition llm_error : string * json :=
  ("llm client error", JObj [("action", JNull)]).

(** The agent's constants and its model endpoint: the response to the
    message list at each attempt. *)
Record Agent : Type := {
  agent_model_name : string;
  system_prompt : string;
  llm : list message -> nat -> res string
}.

(** [if not self.traj_memory.task_goal: self.traj_memory.task_goal = instruction]:
    a goal that is [None] or empty is falsy. *)
Definition set_goal_once (instruction : string) (mem : TrajMemory) : TrajMemory :=
  match task_goal mem with
  | Some (String _ _) => mem
  | _ => {| task_goal := Some instruction; steps := steps mem |}
  end.

(** The [TrajStep] that [predict] constructs; an execution result that is
    absent or empty is stored as the empty string. *)
Definition new_step (self : Agent) (obs : Obs) (mem : TrajMemory)
  (prediction : string) (thinking : option string) (action_json : json)
  : TrajStep :=
  {| screenshot := obs_screenshot obs;
     accessibility_tree := obs_accessibility_tree obs;
     prediction := prediction;
     action := action_json;
     conclusion := match obs_execution_result obs with Some r => r | None => "" end;
     thought := thinking;
     step_index := List.length (steps mem);
     agent_type := "MAIDesktopAgent";
     model_name := agent_model_name self;
     screenshot_bytes := safe_pil_to_bytes (obs_screenshot obs);
     structured_action := JObj [("action_json", action_json)];
     ask_user_response := "";
     mcp_response := "" |}.

(** [self.traj_memory.steps.append(traj_step)] *)
Definition append_step (step : TrajStep) (mem : TrajMemory) : TrajMemory :=
  {| task_goal := task_goal mem; steps := steps mem ++ [step] |}.

(** What follows the retry loop: the error flag, or the new step and the
    pair ([prediction], [action_json]). *)
Definition finish (self : Agent) (obs : Obs) (mem : TrajMemory)
  (prediction : string) (thinking : option string) (action_json : json)
  : res (string * json) * TrajMemory :=
  match action_json with
  | JNull => (Ok llm_error, mem)
  | _ =>
      (Ok (prediction, action_json),
       append_step (new_step self obs mem prediction thinking action_json) mem)
  end.

(** [MAIDesktopNavigationAgent.predict]: the returned pair, or the exception
    that leaves it, and the trajectory memory afterwards. *)
Definition predict (self : Agent) (instruction : string) (obs : Obs)
  (mem : TrajMemory) : res (string * json) * TrajMemory :=
  let mem := set_goal_once instruction mem in
  let screenshot_bytes := safe_pil_to_bytes (obs_screenshot obs) in
  match _build_messages (system_prompt self) instruction screenshot_bytes mem with
  | Raise e => (Raise e, mem)
  | Ok messages =>
      match retry max_retries 0 (fun k => attempt (steps mem) (llm self messages k)) with
      | Failed => (Ok llm_error, mem)
      | Parsed prediction thinking action_json
      | Blocked prediction thinking action_json =>
          finish self obs mem prediction thinking action_json
      end
  end.

(** ** Vocabulary of the statements *)

(** A response with a reasoning block and, behind it, an action block opened
    by [opener]. *)
Definition tagged_text (pre r mid opener body post : string) : string :=
  pre ++ "<thinking>" ++ r ++ "</thinking>" ++ mid ++ opener ++ body
      ++ "</invoke>" ++ post.

Definition is_quote (c : ascii) : bool := Ascii.eqb Str.dquote c.

(** The code points of the characters for which [str.isspace] holds: the
    ASCII controls TAB to CR and FS to US, the space, NEL, the no-break
    space, the Ogham space mark, EN QUAD to HAIR SPACE, the line and the
    paragraph separator, the narrow no-break space, the medium mathematical
    space and the ideographic space. *)
Definition space_code_points : list N :=
  [9; 10; 11; 12; 13; 28; 29; 30; 31; 32; 133; 160; 5760;
   8192; 8193; 8194; 8195; 8196; 8197; 8198; 8199; 8200; 8201; 8202;
   8232; 8233; 8239; 8287; 12288]%N.

(** The whitespace characters, each as the text that holds it alone. *)
Definition whitespace : list string := map Json.utf8 space_code_points.

(** A text of whitespace characters and nothing else. *)
Inductive blank_text : string -> Prop :=
| blank_nil : blank_text ""
| blank_cons (w r : string) :
    In w whitespace -> blank_text r -> blank_text (w ++ r).

Definition starts_with_space (m : string) : Prop :=
  exists w r, In w whitespace /\ m = w ++ r.

Definition ends_with_space (m : string) : Prop :=
  exists w r, In w whitespace /\ m = r ++ w.

(** [t] is [g] without its surrounding whitespace and, inside that, without
    its leading and trailing double quotes. *)
Definition stripped_of (g t : string) : Prop :=
  exists w1 q1 q2 w2,
    g = w1 ++ (q1 ++ t ++ q2) ++ w2
    /\ blank_text w1 /\ blank_text w2
    /\ Str.all is_quote q1 = true /\ Str.all is_quote q2 = true
    /\ ~ starts_with_space (q1 ++ t ++ q2)
    /\ ~ ends_with_space (q1 ++ t ++ q2)
    /\ (forall c, Str.first_char t = Some c -> is_quote c = false)
    /\ (forall c, Str.last_char t = Some c -> is_quote c = false).




(** A text of ASCII characters. *)
Definition ascii_text (s : string) : Prop :=
  Str.all (fun c => (N_of_ascii c <? 128)%N) s = true.




(** What [parse_tagged_text] returns for a stripped reasoning and body. *)
Definition decoded (thinking body : string) : res (option string * json) :=
  match body with
  | EmptyString => Ok (Some thinking, JStr "")
  | _ =>
      match Json.loads body with
      | Some v => Ok (Some thinking, v)
      | None => Raise ValueError
      end
  end.

(** The two markers accepted at the opening of the action block. *)
Definition is_opener (o : string) : Prop := o = "<invoke>" \/ o = "</invoke>".

(** The text holds no block, or a block whose body [json.loads] rejects. *)
Definition parse_failure (text : string) : Prop :=
  Re.search (rewrite_think text) = None
  \/ exists g1 g2,
       Re.search (rewrite_think text) = Some (g1, g2)
       /\ Json.loads (Str.strip_quotes (Str.strip g2)) = None.

(** A direct action body: an object with a discriminator and no
    [arguments] entry of its own. *)
Definition action_body (d : dict) : Prop :=
  lookup "action" d <> None /\ lookup "arguments" d = None.

Definition coordinate_keys : list string :=
  ["coordinate"; "start_coordinate"; "end_coordinate"].

(** The pair stored by the parser for the point ([x], [y]). *)
Definition unit_pair (x y : Q) : json :=
  if Qle_bool x 1 && Qle_bool y 1
  then JArr [JNum x; JNum y]
  else JArr [JNum (Qred (x / SCALE_FACTOR)); JNum (Qred (y / SCALE_FACTOR))].

(** The rule of the specification (4.1), for comparison with the code: a
    value is unit-scaled when its magnitude is at most 1.5, and is divided by
    the scale otherwise. *)
Definition spec_to_unit (v : Q) : Q :=
  if Qle_bool (Qabs v) (3 # 2) then v else Qred (v / SCALE_FACTOR).


(** A stored action rendered for the prompt by [mem2response] and read back
    by the parser, for its ["coordinate"] entry.  Between the two the value
    passes through [json.dumps] and [json.loads], which return the integers
    they are given. *)
Definition render_then_parse (action_json : json) : res json :=
  a <- convert_field "coordinate" false action_json ;;
  normalize_field "coordinate" a.


(** The square of the distance between two points. *)
Definition dist2 (lx ly cx cy : Q) : Q :=
  ((lx - cx) * (lx - cx) + (ly - cy) * (ly - cy))%Q.

(** The image bytes that [predict] passes to [_build_messages]. *)
Definition image_of (obs : Obs) : string := safe_pil_to_bytes (obs_screenshot obs).

(** The passes of the retry loop of one cycle. *)
Definition cycle_attempts (self : Agent) (mem : TrajMemory)
  (messages : list message) : attempt_result :=
  retry max_retries 0 (fun k => attempt (steps mem) (llm self messages k)).

(** A value on which the arithmetic of the codec is defined. *)
Definition numeric (v : json) : Prop := as_num v <> None.

Definition numeric_pair (v : json) : Prop :=
  exists x y, v = JArr [x; y] /\ numeric x /\ numeric y.

(** The actions that the parser returns: an object whose coordinate entries
    are pairs of numbers, or a list or str that holds no coordinate key. *)
Definition renderable (a : json) : Prop :=
  match a with
  | JObj d =>
      forall key v, In key coordinate_keys -> lookup key d = Some v -> numeric_pair v
  | _ => forall key, In key coordinate_keys -> py_in key a = Ok false
  end.

(** The memories that [predict] builds. *)
Definition well_formed (mem : TrajMemory) : Prop :=
  Forall (fun s => exists a, structured_action s = JObj [("action_json", a)]
                             /\ renderable a)
         (steps mem).

(** ** Sample inputs *)

Module Sample.

Definition text_click : string :=
  Str.qq "<thinking>ok</thinking><invoke>{'action':'click','coordinate':[500,500]}</invoke>".

Definition text_bad_json : string :=
  "<thinking>a</thinking><invoke>{bad</invoke>".

Definition text_no_block : string := "hello".

Definition text_quoted : string :=
  Str.qq " <thinking> 'ok' </thinking> <invoke> '{'action':'wait','duration':1}' </invoke> ".

Definition click_at (x y : Q) : dict :=
  [("action", JStr "click"); ("coordinate", JArr [JNum x; JNum y])].

Definition text_box : string :=
  Str.qq "<thinking>ok</thinking><invoke>{'action':'click','coordinate':[10,20,30,40]}</invoke>".


(** An agent whose model answers with the texts [rs], one per attempt, and
    fails once they are used up. *)
Definition agent_of (rs : list string) : Agent :=
  {| agent_model_name := "mai-ui";
     system_prompt := "";
     llm := fun _ k => match nth_error rs k with
                       | Some r => Ok r
                       | None => Raise ValueError
                       end |}.

Definition obs0 : Obs :=
  {| obs_screenshot := "png";
     obs_accessibility_tree := None;
     obs_execution_result := None |}.

Definition empty : TrajMemory := {| task_goal := None; steps := [] |}.

Definition text_click_at (xy : string) : string :=
  Str.qq ("<thinking>go</thinking><invoke>{'action':'click','coordinate':["
            ++ xy ++ "]}</invoke>").

(** The memory after one cycle that clicked at (0.5, 0.5). *)
Definition after_click : TrajMemory :=
  snd (predict (agent_of [text_click_at "0.50,0.50"]) "open notepad" obs0 empty).

(** The memory after a second cycle that was blocked. *)
Definition after_block : TrajMemory :=
  snd (predict (agent_of [text_click_at "0.51,0.51"]) "open notepad" obs0 after_click).

Definition typed (t : string) : dict :=
  [("action", JStr "type"); ("text", JStr t)].

Definition launched (t : string) : dict :=
  [("action", JStr "launch"); ("text", JStr t)].

Definition scrolled : dict :=
  [("action", JStr "scroll"); ("coordinate", JArr [JNum (1 # 2); JNum (1 # 2)]);
   ("direction", JStr "down"); ("amount", JNum 3)].

(** A step holding the action [a]. *)
Definition step_of (a : dict) : TrajStep :=
  new_step (agent_of []) obs0 empty "" (Some "go") (JObj a).

Definition body_direct : string :=
  Str.qq "{'action':'click','coordinate':[500,500]}".

(** A step whose structured action was never set. *)
Definition bare_step : TrajStep :=
  {| screenshot := ""; accessibility_tree := None; prediction := "";
     action := JNull; conclusion := ""; thought := None; step_index := 0;
     agent_type := ""; model_name := ""; screenshot_bytes := "";
     structured_action := JNull; ask_user_response := ""; mcp_response := "" |}.

Definition text_list_action : string :=
  Str.qq "<thinking>go</thinking><invoke>{'arguments':[1,2]}</invoke>".

Definition body_wrapped : string :=
  Str.qq "{'name':'desktop_use','arguments':{'action':'click','coordinate':[500,500]}}".

End Sample.

(** ** The rest of the navigation agent *)

(** [int(point_x * SCALE_FACTOR)] in [history_responses], where no
    comparison has filtered the operand: a str is repeated and [int] of the
    repetition raises [ValueError] (it would convert a str of digits, which
    is not modelled). *)
Definition int_scaled_any (v : json) : res json :=
  match as_num v with
  | Some q => Ok (JNum (inject_Z (py_int (q * SCALE_FACTOR))))
  | None => match v with JStr _ => Raise ValueError | _ => Raise TypeError end
  end.

(** The point of [history_responses] for a coordinate value, or [None] where
    the loop goes on to the next step.  A str or dict of length 2 unpacks
    into strs, see [int_scaled_any]. *)
Definition history_point (coordinates : json) : res (option (json * json)) :=
  n <- py_len coordinates ;;
  if Nat.eqb n 2 then
    match coordinates with
    | JArr [point_x; point_y] => Ok (Some (point_x, point_y))
    | _ => Raise ValueError
    end
  else if Nat.eqb n 4 then
    match coordinates with
    | JArr [x1; y1; x2; y2] =>
        point_x <- midpoint x1 x2 ;;
        point_y <- midpoint y1 y2 ;;
        Ok (Some (point_x, point_y))
    | _ => Raise TypeError
    end
  else Ok None.

(** [thinking if thinking else "(proceeding with action)"] *)
Definition thinking_content_of (thinking : option string) : string :=
  match thinking with
  | Some (String c t) => String c t
  | _ => "(proceeding with action)"
  end.

(** One pass of the loop of [history_responses]: the entry appended for the
    step (its thinking content and tool call, as for [mem2response]), or
    [None] where the pass ends in [continue]. *)
Definition history_response (step : TrajStep) : res (option (string * json)) :=
  let thinking := thought step in
  let structured_action := structured_action step in
  if negb (truthy structured_action) then Ok None
  else
    action_json <- py_get structured_action "action_json" (JObj []) ;;
    present <- py_in "coordinate" action_json ;;
    converted <-
      (if present : bool then
         coordinates <- py_get action_json "coordinate" (JArr []) ;;
         point <- history_point coordinates ;;
         match point with
         | None => Ok None
         | Some (point_x, point_y) =>
             x <- int_scaled_any point_x ;;
             y <- int_scaled_any point_y ;;
             a <- py_setitem action_json "coordinate" (JArr [x; y]) ;;
             Ok (Some a)
         end
       else Ok (Some action_json)) ;;
    match converted with
    | None => Ok None
    | Some action_json =>
        let tool_call_dict :=
          JObj [("name", JStr "desktop_use"); ("arguments", action_json)] in
        Ok (Some (thinking_content_of thinking, tool_call_dict))
    end.

(** The property [history_responses], over the steps of the memory. *)
Fixpoint history_responses (l : list TrajStep) : res (list (string * json)) :=
  match l with
  | [] => Ok []
  | step :: l' =>
      e <- history_response step ;;
      r <- history_responses l' ;;
      Ok (match e with Some x => x :: r | None => r end)
  end.

(** [mask_image_urls_for_logging], on the message list as the JSON value it
    is: a list of dicts with a [content] list of dicts.  The deep copy is the
    value itself. *)
Definition IMAGE_DATA : json := JStr "[IMAGE_DATA]".

(** [if isinstance(item, dict) and "image_url" in item:
       item["image_url"]["url"] = "[IMAGE_DATA]"] *)
Definition mask_item (item : json) : res json :=
  match item with
  | JObj d =>
      match lookup "image_url" d with
      | Some image_url =>
          u <- py_setitem image_url "url" IMAGE_DATA ;;
          Ok (JObj (dict_set "image_url" u d))
      | None => Ok item
      end
  | _ => Ok item
  end.

Definition mask_message (message : json) : res json :=
  content <- py_get message "content" (JArr []) ;;
  match content with
  | JArr (item :: items) =>
      items' <- map_res mask_item (item :: items) ;;
      py_setitem message "content" (JArr items')
  | _ => Ok message
  end.

Definition mask_image_urls_for_logging (messages : list json) : res (list json) :=
  map_res mask_message messages.

(** ** The caller: [examples/desktop_agent_full_example.py] *)

(** [DesktopController]: the screen size in pixels. *)
Record DesktopController : Type := {
  width : Z;
  height : Z
}.

(** [int(x * size)] for a pixel count [size]; for a str see
    [int_scaled_any]. *)
Definition int_times (v : json) (size : Z) : res json :=
  match as_num v with
  | Some q => Ok (JNum (inject_Z (py_int (q * inject_Z size))))
  | None => match v with JStr _ => Raise ValueError | _ => Raise TypeError end
  end.

(** [DesktopController._normalize_to_screen]: the returned tuple is a list of
    two numbers. *)
Definition _normalize_to_screen (self : DesktopController) (coord : json)
  : res json :=
  n <- py_len coord ;;
  if Nat.eqb n 2 then
    match coord with
    | JArr [x; y] =>
        px <- int_times x (width self) ;;
        py <- int_times y (height self) ;;
        Ok (JArr [px; py])
    | _ => Raise ValueError
    end
  else Ok coord.

(** The table [app_commands] of [DesktopController._launch], in its order. *)
Definition app_commands : list (string * string) :=
  [("notepad", "notepad.exe");
   ("calculator", "calc.exe");
   ("calc", "calc.exe");
   ("explorer", "explorer.exe");
   ("chrome", "chrome.exe");
   ("firefox", "firefox.exe");
   ("edge", "msedge.exe");
   ("microsoft edge", "msedge.exe");
   ("word", "winword.exe");
   ("excel", "excel.exe");
   ("powerpoint", "powerpnt.exe");
   ("wechat", "C:\Program Files\Tencent\Weixin\Weixin.exe");
   ("微信", "C:\Program Files\Tencent\Weixin\Weixin.exe");
   ("weixin", "C:\Program Files\Tencent\Weixin\Weixin.exe")].

Definition is_apostrophe (c : ascii) : bool := Ascii.eqb "'" c.

(** [text.strip().strip(dq).strip(sq).lower()] for the double and the single
    quote. *)
Definition clean_app_name (text : string) : string :=
  Str.lower (Str.strip_by is_apostrophe (Str.strip_quotes (Str.strip text))).

Fixpoint table_get (k : string) (t : list (string * string)) : option string :=
  match t with
  | [] => None
  | (k', v) :: t' => if String.eqb k k' then Some v else table_get k t'
  end.

(** [for key, cmd in app_commands.items(): if key in app_name or app_name in key] *)
Fixpoint fuzzy_match (app_name : string) (t : list (string * string))
  : option (string * string) :=
  match t with
  | [] => None
  | (key, cmd) :: t' =>
      if Str.contains key app_name || Str.contains app_name key
      then Some (key, cmd)
      else fuzzy_match app_name t'
  end.

(** What [_launch] does: it reports a missing name, or passes a command to
    [subprocess.Popen] and returns a message. *)
Inductive launch_plan : Type :=
| LaunchMissing (message : string)
| LaunchRun (command message : string).

(** [DesktopController._launch] up to the call of [subprocess.Popen]: the
    command it runs and the message it returns when the call succeeds. *)
Definition _launch (action : json) : res launch_plan :=
  t <- py_get action "text" (JStr "") ;;
  match t with
  | JStr text =>
      let app_name := clean_app_name text in
      if String.eqb app_name "" then
        Ok (LaunchMissing "Error: launch action missing 'text' parameter")
      else
        match table_get app_name app_commands with
        | Some cmd => Ok (LaunchRun cmd ("Launched: " ++ app_name))
        | None =>
            match fuzzy_match app_name app_commands with
            | Some (key, cmd) =>
                Ok (LaunchRun cmd
                      ("Launched: " ++ app_name ++ " (matched to " ++ key ++ ")"))
            | None => Ok (LaunchRun app_name ("Launched: " ++ app_name))
            end
        end
  | _ => Raise AttributeError
  end.

(** ** The sibling agents: [mai_desktop_oneshot_agent.py] and the HTTP server *)

(** [should_normalize]: [isinstance(val, (int, float)) and val > 1.5]. *)
Definition should_normalize (val : json) : bool :=
  match as_num val with
  | Some q => negb (Qle_bool q (3 # 2))
  | None => false
  end.

(** [normalize_value] *)
Definition normalize_value (val : json) : json :=
  match as_num val with
  | Some q => if negb (Qle_bool q (3 # 2)) then JNum (Qred (q / SCALE_FACTOR)) else val
  | None => val
  end.

(** The block of [_normalize_action_coordinates] for one key. *)
Definition normalize_entry (key : string) (action : json) : res json :=
  present <- py_in key action ;;
  if present : bool then
    coord <- py_getitem action key ;;
    match coord with
    | JArr (x :: y :: _) =>
        if should_normalize x || should_normalize y
        then py_setitem action key (JArr [normalize_value x; normalize_value y])
        else Ok action
    | _ => Ok action
    end
  else Ok action.

(** [_normalize_action_coordinates] of [MAIDesktopOneShotAgent] and of
    [MAIDesktopHTTPMCP], which have the same body. *)
Definition _normalize_action_coordinates (action : json) : res json :=
  action <- normalize_entry "coordinate" action ;;
  action <- normalize_entry "start_coordinate" action ;;
  normalize_entry "end_coordinate" action.

(** [min(1.0, x)] and [max(0.0, x)]: the first argument unless the second is
    strictly beyond it. *)
Definition min_1 (q : Q) : Q := if Qle_bool 1 q then 1 else q.
Definition max_0 (q : Q) : Q := if Qle_bool q 0 then 0 else q.

(** [int(max(0.0, min(1.0, x)) * size)] *)
Definition clamped_times (v : json) (size : Z) : res Z :=
  match as_num v with
  | Some q => Ok (py_int (max_0 (min_1 q) * inject_Z size))
  | None => Raise TypeError
  end.

(** [MAIDesktopOneShotAgent._to_screen_coords] for a screen of
    [screen_width] by [screen_height] pixels. *)
Definition _to_screen_coords (screen_width screen_height : Z) (coord : json)
  : res json :=
  n <- py_len coord ;;
  if Nat.eqb n 2 then
    match coord with
    | JArr [x; y] =>
        screen_x <- clamped_times x screen_width ;;
        screen_y <- clamped_times y screen_height ;;
        if ((0 <=? screen_x) && (screen_x <=? screen_width)
            && (0 <=? screen_y) && (screen_y <=? screen_height))%Z
        then Ok (JArr [JNum (inject_Z screen_x); JNum (inject_Z screen_y)])
        else Raise ValueError
    | _ => Raise TypeError
    end
  else Ok coord.

(** ** Vocabulary of the further statements *)

Definition is_assistant (m : message) : bool :=
  match m with MAssistant _ _ => true | _ => false end.

Definition is_image (m : message) : bool :=
  match m with MImage _ => true | _ => false end.

(** The message that reports the execution result of an observation. *)
Definition feedback_of (obs : Obs) : list message :=
  match obs_execution_result obs with
  | Some (String c r) => [MText "user" ("[EXECUTION RESULT]: " ++ String c r)]
  | _ => []
  end.

(** Every step carries its position as its index. *)
Definition indexed (l : list TrajStep) : Prop :=
  forall i s, nth_error l i = Some s -> step_index s = i.

(** The memory after the cycles [l], run in order. *)
Fixpoint cycles (l : list (Agent * string * Obs)) (mem : TrajMemory) : TrajMemory :=
  match l with
  | [] => mem
  | (self, instruction, obs) :: l' =>
      cycles l' (snd (predict self instruction obs mem))
  end.

(** The message list with which [predict] calls the model on a memory
    without steps. *)
Definition first_messages (self : Agent) (instruction : string) (obs : Obs)
  : list message :=
  [MText "system" (system_prompt self); MText "user" instruction;
   MImage (image_of obs)].

(** An item whose image url, if it has one, is the placeholder. *)
Definition masked_item (item : json) : Prop :=
  forall d image_url,
    item = JObj d -> lookup "image_url" d = Some image_url ->
    py_getitem image_url "url" = Ok IMAGE_DATA.

(** The items of the content list of a message. *)
Definition content_items (message : json) : list json :=
  match message with
  | JObj d => match lookup "content" d with Some (JArr l) => l | _ => [] end
  | _ => []
  end.

(** A value of the closed interval from 0 to [n]. *)
Definition within (n : Z) (v : json) : Prop :=
  exists k, v = JNum (inject_Z k) /\ (0 <= k <= n)%Z.

(** The dicts that [_build_messages] puts into the message list: a message
    with one text item, and the message with the screenshot. *)
Definition text_message (role text : string) : json :=
  JObj [("role", JStr role);
        ("content", JArr [JObj [("type", JStr "text"); ("text", JStr text)]])].

Definition image_message (url : string) : json :=
  JObj [("role", JStr "user");
        ("content",
         JArr [JObj [("type", JStr "image_url");
                     ("image_url", JObj [("url", JStr url)])]])].

Definition built_message (m : json) : Prop :=
  (exists role text, m = text_message role text)
  \/ exists url, m = image_message url.

(** What masking makes of a built message. *)
Definition masked_of (m m' : json) : Prop :=
  (forall role text, m = text_message role text -> m' = m)
  /\ (forall url, m = image_message url -> m' = image_message "[IMAGE_DATA]").

(** No key of the table contains the name or is contained in it. *)
Definition unrelated (app_name : string) (t : list (string * string)) : Prop :=
  forall key, In key (map fst t) ->
    Str.contains key app_name = false /\ Str.contains app_name key = false.

(** * Properties *)

(** ** Strings *)

Section StringFacts.

Lemma append_nil_r (s : string) : s ++ "" = s.
Proof. induction s as [|c s IH]; simpl; [reflexivity | now rewrite IH]. Qed.

Lemma append_assoc (a b c : string) : (a ++ b) ++ c = a ++ (b ++ c).
Proof. induction a as [|x a IH]; simpl; [reflexivity | now rewrite IH]. Qed.

Lemma after_self (p s : string) : Str.after p (p ++ s) = Some s.
Proof.
  induction p as [|c p IH]; simpl; [reflexivity|].
  now rewrite Ascii.eqb_refl.
Qed.

Lemma startswith_self (p s : string) : Str.startswith p (p ++ s) = true.
Proof. unfold Str.startswith. now rewrite after_self. Qed.

Lemma contains_here (p s : string) :
  Str.startswith p s = true -> Str.contains p s = true.
Proof. intros H. destruct s; simpl; now rewrite H. Qed.

Lemma contains_tail (p : string) (c : ascii) (s : string) :
  Str.contains p (String c s) = false -> Str.contains p s = false.
Proof. simpl. destruct (Str.startswith p (String c s)); [discriminate | auto]. Qed.

Lemma contains_head (p s : string) :
  Str.contains p s = false -> Str.startswith p s = false.
Proof.
  intros H. destruct (Str.startswith p s) eqn:E; [|reflexivity].
  now rewrite (contains_here _ _ E) in H.
Qed.

Lemma contains_app (p a b : string) : Str.contains p (a ++ p ++ b) = true.
Proof.
  induction a as [|c a IH]; simpl.
  - apply contains_here, startswith_self.
  - rewrite IH. now destruct (Str.startswith p _).
Qed.

(** A match of the rest of a tag that begins inside [x] ends inside [x],
    when what follows [x] begins with [<]. *)
Lemma after_inside (p x r : string) :
  Str.all (fun d => negb (Str.is_lt d)) p = true ->
  Str.after p (x ++ String "<" r) <> None -> Str.after p x <> None.
Proof.
  revert x. induction p as [|c p IH]; intros x Hp H; simpl in *.
  - discriminate.
  - apply andb_prop in Hp as [Hc Hp].
    destruct x as [|d x]; simpl in *.
    + unfold Str.is_lt in Hc.
      destruct (Ascii.eqb c "<"); [discriminate Hc | exact H].
    + destruct (Ascii.eqb c d); [now apply IH | exact H].
Qed.

(** No tag starts inside [x] once none occurs in [x] alone. *)
Lemma tag_not_across (p x r : string) (c : ascii) (x' : string) :
  Str.is_tag p = true -> x = String c x' ->
  Str.contains p x = false ->
  Str.after p (x ++ String "<" r) = None.
Proof.
  intros Hp -> Hx. apply contains_head in Hx.
  destruct p as [|a p]; [discriminate|].
  simpl in Hp. apply andb_prop in Hp as [_ Hp].
  unfold Str.startswith in Hx. simpl in *.
  destruct (Ascii.eqb a c); [|reflexivity].
  destruct (Str.after p (x' ++ String "<" r)) eqn:E; [|reflexivity].
  exfalso. apply (after_inside p x' r Hp); [now rewrite E|].
  now destruct (Str.after p x').
Qed.

End StringFacts.

Section StripFacts.

Variable f : ascii -> bool.

Lemma lstrip_by_split (s : string) :
  exists a, s = a ++ Str.lstrip_by f s /\ Str.all f a = true.
Proof.
  induction s as [|c s [a [E Ha]]]; simpl.
  - now exists "".
  - destruct (f c) eqn:Hc.
    + exists (String c a). simpl. rewrite Hc, Ha. now rewrite <- E.
    + now exists "".
Qed.

Lemma lstrip_by_head (s : string) (c : ascii) :
  Str.first_char (Str.lstrip_by f s) = Some c -> f c = false.
Proof.
  induction s as [|d s IH]; simpl; [discriminate|].
  destruct (f d) eqn:Hd; [exact IH|]. simpl. now intros [= <-].
Qed.

Lemma rstrip_by_split (s : string) :
  exists b, s = Str.rstrip_by f s ++ b /\ Str.all f b = true.
Proof.
  induction s as [|c s [b [E Hb]]]; simpl.
  - now exists "".
  - destruct (Str.rstrip_by f s) as [|d r] eqn:Er.
    + destruct (f c) eqn:Hc.
      * exists (String c b). simpl in *. rewrite Hc, Hb. split; [congruence | reflexivity].
      * exists b. simpl in *. split; congruence.
    + exists b. simpl in *. split; congruence.
Qed.

Lemma rstrip_by_last (s : string) (c : ascii) :
  Str.last_char (Str.rstrip_by f s) = Some c -> f c = false.
Proof.
  induction s as [|d s IH]; simpl; [discriminate|].
  destruct (Str.rstrip_by f s) as [|e r] eqn:Er.
  - destruct (f d) eqn:Hd; simpl; [discriminate | now intros [= <-]].
  - exact IH.
Qed.

Lemma rstrip_by_head (s : string) (c : ascii) :
  Str.first_char (Str.rstrip_by f s) = Some c -> Str.first_char s = Some c.
Proof.
  destruct s as [|d s]; simpl; [discriminate|].
  destruct (Str.rstrip_by f s); [destruct (f d)|]; simpl; auto; discriminate.
Qed.

(** What [strip_by] removes and what it leaves. *)
Lemma strip_by_spec (s : string) :
  exists a b,
    s = a ++ Str.strip_by f s ++ b
    /\ Str.all f a = true /\ Str.all f b = true
    /\ (forall c, Str.first_char (Str.strip_by f s) = Some c -> f c = false)
    /\ (forall c, Str.last_char (Str.strip_by f s) = Some c -> f c = false).
Proof.
  destruct (lstrip_by_split s) as [a [Ea Ha]].
  destruct (rstrip_by_split (Str.lstrip_by f s)) as [b [Eb Hb]].
  exists a, b. unfold Str.strip_by. repeat split; auto.
  - now rewrite <- Eb.
  - intros c Hc. apply (lstrip_by_head s), rstrip_by_head, Hc.
  - intros c. apply rstrip_by_last.
Qed.

Lemma lstrip_by_app (x : string) (c : ascii) (y : string) :
  f c = false ->
  Str.lstrip_by f (x ++ String c y) = Str.lstrip_by f x ++ String c y.
Proof.
  intros Hc. induction x as [|d x IH]; simpl.
  - now rewrite Hc.
  - destruct (f d); [exact IH | reflexivity].
Qed.

Lemma rstrip_by_keeps (c : ascii) (y : string) :
  f c = false -> Str.rstrip_by f (String c y) <> "".
Proof. intros Hc. simpl. destruct (Str.rstrip_by f y); [rewrite Hc|]; discriminate. Qed.

Lemma rstrip_by_app (x z : string) :
  Str.rstrip_by f z <> "" ->
  Str.rstrip_by f (x ++ z) = x ++ Str.rstrip_by f z.
Proof.
  intros Hz. induction x as [|d x IH]; simpl; [reflexivity|].
  rewrite IH. destruct x; simpl; [|reflexivity].
  destruct (Str.rstrip_by f z); [contradiction | reflexivity].
Qed.

Lemma contains_lstrip_by (p s : string) :
  Str.contains p s = false -> Str.contains p (Str.lstrip_by f s) = false.
Proof.
  induction s as [|c s IH]; simpl; [auto|].
  destruct (f c); [|auto].
  intros H. apply IH. now destruct (Str.startswith p (String c s)).
Qed.

End StripFacts.

(** ** Whitespace *)

Section WhitespaceFacts.

Ltac in_list := repeat (first [left; reflexivity | right]).

Lemma string_length_app (a b : string) :
  String.length (a ++ b) = (String.length a + String.length b)%nat.
Proof. induction a as [|c a IH]; simpl; [reflexivity | now rewrite IH]. Qed.

Lemma strong_len (P : string -> Prop) :
  (forall s, (forall t, (String.length t < String.length s)%nat -> P t) -> P s) ->
  forall s, P s.
Proof.
  intros H s. remember (String.length s) as n eqn:E. revert s E.
  induction n as [n IH] using lt_wf_ind. intros s ->.
  apply H. intros t Ht. exact (IH _ Ht t eq_refl).
Qed.

Lemma byte_is_eq (c : ascii) (n : N) :
  Str.byte_is c n = true -> c = ascii_of_N n.
Proof.
  unfold Str.byte_is. intros H. apply N.eqb_eq in H. rewrite <- H.
  symmetry. apply ascii_N_embedding.
Qed.

(** The byte tests of the model accept only characters of the list. *)
Lemma isspace_in (a : ascii) :
  Str.isspace a = true -> In (String a "") whitespace.
Proof.
  destruct a as [[] [] [] [] [] [] [] []]; intros H; vm_compute in H;
    try discriminate H; vm_compute; in_list.
Qed.

Lemma isspace2_in (a b : ascii) :
  Str.isspace2 a b = true -> In (String a (String b "")) whitespace.
Proof.
  unfold Str.isspace2. intros H. apply andb_prop in H as [Ha Hb].
  apply byte_is_eq in Ha. subst a.
  apply orb_prop in Hb as [Hb | Hb]; apply byte_is_eq in Hb; subst b;
    vm_compute; in_list.
Qed.

Lemma isspace3_in (a b c : ascii) :
  Str.isspace3 a b c = true -> In (String a (String b (String c ""))) whitespace.
Proof.
  unfold Str.isspace3. intros H.
  repeat match goal with
         | H : (_ || _)%bool = true |- _ => apply orb_prop in H as [H | H]
         | H : (_ && _)%bool = true |- _ =>
             let H1 := fresh "H" in apply andb_prop in H as [H H1]
         end;
    repeat match goal with
           | H : Str.byte_is _ _ = true |- _ => apply byte_is_eq in H; subst
           end;
    try solve [vm_compute; in_list].
  match goal with
  | H : Str.byte_in c _ _ = true |- _ =>
      destruct c as [[] [] [] [] [] [] [] []]; vm_compute in H;
        try discriminate H; vm_compute; in_list
  end.
Qed.

Lemma ws_head_in (s r : string) :
  Str.ws_head s = Some r -> exists w, In w whitespace /\ s = w ++ r.
Proof.
  unfold Str.ws_head. destruct s as [|a t]; [discriminate|].
  destruct (Str.isspace a) eqn:E1.
  { intros [= <-]. exists (String a ""). split; [now apply isspace_in | reflexivity]. }
  destruct t as [|b t]; [discriminate|].
  destruct (Str.isspace2 a b) eqn:E2.
  { intros [= <-]. exists (String a (String b "")).
    split; [now apply isspace2_in | reflexivity]. }
  destruct t as [|c t]; [discriminate|].
  destruct (Str.isspace3 a b c) eqn:E3; [|discriminate].
  intros [= <-]. exists (String a (String b (String c ""))).
  split; [now apply isspace3_in | reflexivity].
Qed.

(** The byte tests of the model accept every character of the list. *)
Lemma in_ws_head (w r : string) :
  In w whitespace -> Str.ws_head (w ++ r) = Some r.
Proof.
  intros H. vm_compute in H.
  repeat destruct H as [<- | H]; [reflexivity .. | destruct H].
Qed.

Lemma whitespace_nonempty (w : string) :
  In w whitespace -> (0 < String.length w)%nat.
Proof.
  intros H. vm_compute in H.
  repeat destruct H as [<- | H]; [simpl; lia .. | destruct H].
Qed.

Lemma ws_head_shorter (s r : string) :
  Str.ws_head s = Some r -> (String.length r < String.length s)%nat.
Proof.
  intros H. destruct (ws_head_in _ _ H) as [w [Iw ->]].
  rewrite string_length_app. pose proof (whitespace_nonempty w Iw). lia.
Qed.

Lemma lstrip_eq (s : string) :
  Str.lstrip s
  = match Str.ws_head s with Some r => Str.lstrip r | None => s end.
Proof.
  assert (U : Str.lstrip s
              = match s with
                | String a r =>
                    if Str.isspace a then Str.lstrip r
                    else match r with
                         | String b r' =>
                             if Str.isspace2 a b then Str.lstrip r'
                             else match r' with
                                  | String c r'' =>
                                      if Str.isspace3 a b c then Str.lstrip r''
                                      else s
                                  | EmptyString => s
                                  end
                         | EmptyString => s
                         end
                | EmptyString => EmptyString
                end) by (destruct s; reflexivity).
  rewrite U. unfold Str.ws_head.
  destruct s as [|a [|b [|c t]]]; try reflexivity.
  - now destruct (Str.isspace a).
  - destruct (Str.isspace a); [reflexivity|]. now destruct (Str.isspace2 a b).
  - destruct (Str.isspace a); [reflexivity|].
    destruct (Str.isspace2 a b); [reflexivity|].
    now destruct (Str.isspace3 a b c).
Qed.

Lemma lstrip_id (s : string) : Str.ws_head s = None -> Str.lstrip s = s.
Proof. intros H. now rewrite lstrip_eq, H. Qed.

Lemma lstrip_split (s : string) :
  exists a, s = a ++ Str.lstrip s /\ blank_text a.
Proof.
  induction s as [s IH] using strong_len. rewrite lstrip_eq.
  destruct (Str.ws_head s) as [r|] eqn:E.
  - destruct (IH r (ws_head_shorter _ _ E)) as [a [Ea Ba]].
    destruct (ws_head_in _ _ E) as [w [Iw Es]].
    exists (w ++ a). split; [|now constructor].
    rewrite append_assoc, <- Ea. exact Es.
  - exists "". split; [reflexivity | constructor].
Qed.

Lemma lstrip_done (s : string) : Str.ws_head (Str.lstrip s) = None.
Proof.
  induction s as [s IH] using strong_len. rewrite lstrip_eq.
  destruct (Str.ws_head s) as [r|] eqn:E; [|exact E].
  exact (IH r (ws_head_shorter _ _ E)).
Qed.

Lemma blank_lstrip_app (x y : string) :
  blank_text x -> Str.lstrip (x ++ y) = Str.lstrip y.
Proof.
  induction 1 as [|w r Iw _ IH]; [reflexivity|].
  now rewrite append_assoc, lstrip_eq, (in_ws_head w _ Iw).
Qed.

Lemma blank_text_blank (x : string) : blank_text x -> Str.blank x = true.
Proof.
  intros H. unfold Str.blank.
  rewrite <- (append_nil_r x), (blank_lstrip_app x "" H). reflexivity.
Qed.

Lemma blank_blank_text (b : string) : Str.blank b = true -> blank_text b.
Proof.
  unfold Str.blank. intros H. destruct (lstrip_split b) as [a [E B]].
  destruct (Str.lstrip b); [|discriminate].
  rewrite append_nil_r in E. now subst.
Qed.

Lemma blank_text_app (x y : string) :
  blank_text x -> blank_text y -> blank_text (x ++ y).
Proof.
  induction 1 as [|w r Iw _ IH]; intros Hy; [exact Hy|].
  rewrite append_assoc. constructor; auto.
Qed.

Lemma whitespace_blank (w : string) : In w whitespace -> Str.blank w = true.
Proof.
  intros H. apply blank_text_blank. rewrite <- (append_nil_r w).
  constructor; [exact H | constructor].
Qed.

Lemma rstrip_split (s : string) :
  exists b, s = Str.rstrip s ++ b /\ Str.blank b = true.
Proof.
  induction s as [|c s [b [E B]]]; [now exists ""|].
  cbn [Str.rstrip]. destruct (Str.blank (String c s)) eqn:Bs.
  - now exists (String c s).
  - exists b. split; [simpl; now rewrite <- E | exact B].
Qed.

Lemma rstrip_idem (s : string) : Str.rstrip (Str.rstrip s) = Str.rstrip s.
Proof.
  induction s as [|c s IH]; [reflexivity|].
  cbn [Str.rstrip]. destruct (Str.blank (String c s)) eqn:B; [reflexivity|].
  cbn [Str.rstrip]. rewrite IH.
  destruct (Str.blank (String c (Str.rstrip s))) eqn:B'; [|reflexivity].
  destruct (rstrip_split s) as [b [E Bb]].
  assert (T : blank_text (String c (Str.rstrip s) ++ b))
    by (apply blank_text_app; now apply blank_blank_text).
  simpl in T. rewrite <- E in T. apply blank_text_blank in T. congruence.
Qed.

Lemma rstrip_keeps_head (t : string) :
  Str.ws_head t = None -> Str.ws_head (Str.rstrip t) = None.
Proof.
  intros H. destruct (Str.ws_head (Str.rstrip t)) as [r|] eqn:E; [|reflexivity].
  destruct (ws_head_in _ _ E) as [w [Iw Ew]].
  destruct (rstrip_split t) as [b [Et _]].
  rewrite Ew, append_assoc in Et. rewrite Et, (in_ws_head w _ Iw) in H.
  discriminate.
Qed.

Lemma rstrip_short (b x : string) :
  Str.blank b = true ->
  (String.length (Str.rstrip (x ++ b)) <= String.length x)%nat.
Proof.
  intros B. induction x as [|c x IH].
  - simpl. destruct b as [|c b]; [simpl; lia|].
    cbn [Str.rstrip]. rewrite B. simpl. lia.
  - simpl. destruct (Str.blank (String c (x ++ b))); simpl; lia.
Qed.

Lemma not_starts (m : string) :
  Str.ws_head m = None -> ~ starts_with_space m.
Proof.
  intros H [w [r [Iw ->]]]. rewrite (in_ws_head w r Iw) in H. discriminate.
Qed.

Lemma not_ends (m : string) : Str.rstrip m = m -> ~ ends_with_space m.
Proof.
  intros H [w [r [Iw E]]].
  pose proof (rstrip_short w r (whitespace_blank w Iw)) as L.
  rewrite <- E, H, E, string_length_app in L.
  pose proof (whitespace_nonempty w Iw). lia.
Qed.

(** What [strip] removes and what it leaves. *)
Lemma strip_spec (s : string) :
  exists a b,
    s = a ++ Str.strip s ++ b
    /\ blank_text a /\ blank_text b
    /\ ~ starts_with_space (Str.strip s)
    /\ ~ ends_with_space (Str.strip s).
Proof.
  destruct (lstrip_split s) as [a [Ea Ba]].
  destruct (rstrip_split (Str.lstrip s)) as [b [Eb Bb]].
  exists a, b. unfold Str.strip.
  split; [now rewrite <- Eb|].
  split; [exact Ba|]. split; [now apply blank_blank_text|].
  split.
  - apply not_starts, rstrip_keeps_head, lstrip_done.
  - apply not_ends, rstrip_idem.
Qed.

Lemma strip_idem (s : string) : Str.strip (Str.strip s) = Str.strip s.
Proof.
  unfold Str.strip.
  rewrite (lstrip_id (Str.rstrip (Str.lstrip s)))
    by apply rstrip_keeps_head, lstrip_done.
  apply rstrip_idem.
Qed.

(** A byte below 128 is no part of a whitespace character of two or three
    bytes. *)
Section Plain.

Variable c : ascii.
Hypothesis low : (N_of_ascii c <? 128)%N = true.

Lemma byte_is_low (n : N) : (128 <= n)%N -> Str.byte_is c n = false.
Proof.
  intros H. unfold Str.byte_is. apply N.ltb_lt in low. apply N.eqb_neq. lia.
Qed.

Lemma byte_in_low (lo hi : N) : (128 <= lo)%N -> Str.byte_in c lo hi = false.
Proof.
  intros H. unfold Str.byte_in. apply N.ltb_lt in low.
  apply andb_false_iff. left. apply N.leb_gt. lia.
Qed.

Lemma isspace2_low_l (b : ascii) : Str.isspace2 c b = false.
Proof. unfold Str.isspace2. now rewrite byte_is_low by lia. Qed.

Lemma isspace2_low_r (a : ascii) : Str.isspace2 a c = false.
Proof.
  unfold Str.isspace2. rewrite !byte_is_low by lia. apply andb_false_r.
Qed.

Lemma isspace3_low_1 (a b : ascii) : Str.isspace3 c a b = false.
Proof. unfold Str.isspace3. now rewrite !byte_is_low by lia. Qed.

Lemma isspace3_low_2 (a b : ascii) : Str.isspace3 a c b = false.
Proof.
  unfold Str.isspace3. rewrite !byte_is_low by lia.
  now rewrite !andb_false_r.
Qed.

Lemma isspace3_low_3 (a b : ascii) : Str.isspace3 a b c = false.
Proof.
  unfold Str.isspace3. rewrite !byte_is_low, byte_in_low by lia.
  now rewrite !andb_false_r.
Qed.

Hypothesis no_space : Str.isspace c = false.

Lemma ws_head_app_plain (x y : string) :
  Str.ws_head (x ++ String c y)
  = option_map (fun r => r ++ String c y) (Str.ws_head x).
Proof.
  destruct x as [|a [|b [|d t]]]; cbn [append Str.ws_head option_map].
  - rewrite no_space. destruct y as [|b [|d r]]; try reflexivity;
      rewrite isspace2_low_l; try reflexivity.
    now rewrite isspace3_low_1.
  - destruct (Str.isspace a); [reflexivity|].
    rewrite isspace2_low_r. destruct y as [|d r]; [reflexivity|].
    now rewrite isspace3_low_2.
  - destruct (Str.isspace a); [reflexivity|].
    destruct (Str.isspace2 a b); [reflexivity|].
    now rewrite isspace3_low_3.
  - destruct (Str.isspace a); [reflexivity|].
    destruct (Str.isspace2 a b); [reflexivity|].
    now destruct (Str.isspace3 a b d).
Qed.

Lemma lstrip_app_plain (x y : string) :
  Str.lstrip (x ++ String c y) = Str.lstrip x ++ String c y.
Proof.
  induction x as [x IH] using strong_len.
  rewrite lstrip_eq, ws_head_app_plain, (lstrip_eq x).
  destruct (Str.ws_head x) as [r|] eqn:E; simpl; [|reflexivity].
  exact (IH r (ws_head_shorter _ _ E)).
Qed.

Lemma blank_app_plain (x y : string) : Str.blank (x ++ String c y) = false.
Proof.
  unfold Str.blank. rewrite lstrip_app_plain. now destruct (Str.lstrip x).
Qed.

Lemma rstrip_app_plain (x y : string) :
  Str.rstrip (x ++ String c y) = x ++ String c (Str.rstrip y).
Proof.
  induction x as [|a x IH].
  - pose proof (blank_app_plain "" y) as B. cbn [append] in B.
    cbn [append Str.rstrip]. now rewrite B.
  - cbn [append Str.rstrip].
    change (String a (x ++ String c y)) with (String a x ++ String c y).
    rewrite blank_app_plain. cbn [append]. now rewrite IH.
Qed.

End Plain.

Lemma contains_suffix (p a t : string) :
  Str.contains p (a ++ t) = false -> Str.contains p t = false.
Proof.
  induction a as [|c a IH]; simpl; [auto|].
  intros H. apply IH. now destruct (Str.startswith p (String c (a ++ t))).
Qed.

Lemma contains_lstrip (p s : string) :
  Str.contains p s = false -> Str.contains p (Str.lstrip s) = false.
Proof.
  intros H. destruct (lstrip_split s) as [a [E _]].
  rewrite E in H. exact (contains_suffix _ _ _ H).
Qed.

End WhitespaceFacts.

(** ** The block pattern *)

Section ReFacts.

Lemma body_close_eq (s : string) :
  Re.body_close s =
  match Str.after "</invoke>" s with
  | Some _ => Some ""
  | None =>
      match s with
      | EmptyString => None
      | String c s' => option_map (String c) (Re.body_close s')
      end
  end.
Proof. destruct s; reflexivity. Qed.

Lemma skip_open_eq (s : string) :
  Re.skip_open s =
  match Re.invoke_block s with
  | Some b => Some b
  | None =>
      match s with
      | EmptyString => None
      | String _ s' => Re.skip_open s'
      end
  end.
Proof. destruct s; reflexivity. Qed.

Lemma think_close_eq (s : string) :
  Re.think_close s =
  match Re.thinking_end s with
  | Some b => Some ("", b)
  | None =>
      match s with
      | EmptyString => None
      | String c s' =>
          option_map (fun m => (String c (fst m), snd m)) (Re.think_close s')
      end
  end.
Proof. destruct s; reflexivity. Qed.

Lemma search_eq (s : string) :
  Re.search s =
  match Re.match_here s with
  | Some m => Some m
  | None =>
      match s with
      | EmptyString => None
      | String _ s' => Re.search s'
      end
  end.
Proof. destruct s; reflexivity. Qed.

(** The second group ends at the first closing marker. *)
Lemma body_close_found (body post : string) :
  Str.contains "</invoke>" body = false ->
  Re.body_close (body ++ "</invoke>" ++ post) = Some body.
Proof.
  induction body as [|c b IH]; intros H.
  - rewrite body_close_eq.
    change ("" ++ "</invoke>" ++ post) with ("</invoke>" ++ post).
    now rewrite after_self.
  - rewrite body_close_eq.
    change ("</invoke>" ++ post) with (String "<" ("/invoke>" ++ post)).
    rewrite (tag_not_across "</invoke>" _ _ c b eq_refl eq_refl H).
    change ((String c b) ++ String "<" ("/invoke>" ++ post))
      with (String c (b ++ "</invoke>" ++ post)).
    cbv iota. rewrite IH; [reflexivity|]. exact (contains_tail _ _ _ H).
Qed.

Lemma invoke_block_found (o body post : string) :
  is_opener o ->
  Str.contains "</invoke>" body = false ->
  Re.invoke_block (o ++ body ++ "</invoke>" ++ post) = Some body.
Proof.
  intros [-> | ->] H; unfold Re.invoke_block.
  - change (Str.after "</invoke>" ("<invoke>" ++ body ++ "</invoke>" ++ post))
      with (@None string).
    rewrite after_self. now apply body_close_found.
  - rewrite after_self. now apply body_close_found.
Qed.

(** The lazy gap before the action block passes over text without markers. *)
Lemma skip_open_found (mid o body post : string) :
  is_opener o ->
  Str.contains "<invoke>" mid = false ->
  Str.contains "</invoke>" mid = false ->
  Str.contains "</invoke>" body = false ->
  Re.skip_open (mid ++ o ++ body ++ "</invoke>" ++ post) = Some body.
Proof.
  intros Ho. induction mid as [|c m IH]; intros H1 H2 Hb.
  - rewrite skip_open_eq. change ("" ++ ?x) with x.
    now rewrite invoke_block_found.
  - rewrite skip_open_eq.
    assert (E : exists t, o ++ body ++ "</invoke>" ++ post = String "<" t).
    { destruct Ho as [-> | ->]; eexists; reflexivity. }
    destruct E as [t E].
    assert (N : Re.invoke_block (String c m ++ o ++ body ++ "</invoke>" ++ post) = None).
    { unfold Re.invoke_block. rewrite E.
      rewrite (tag_not_across "</invoke>" _ _ c m eq_refl eq_refl H2).
      now rewrite (tag_not_across "<invoke>" _ _ c m eq_refl eq_refl H1). }
    rewrite N.
    change (String c m ++ ?x) with (String c (m ++ x)). cbv iota.
    apply IH; [exact (contains_tail _ _ _ H1) | exact (contains_tail _ _ _ H2) | exact Hb].
Qed.

(** The first group ends at the first end-of-reasoning marker. *)
Lemma think_close_found (r x b : string) :
  Str.contains "</thinking>" r = false ->
  Re.skip_open x = Some b ->
  Re.think_close (r ++ "</thinking>" ++ x) = Some (r, b).
Proof.
  intros H Hx. induction r as [|c r IH].
  - rewrite think_close_eq. change ("" ++ ?y) with y.
    unfold Re.thinking_end. now rewrite after_self, Hx.
  - rewrite think_close_eq. unfold Re.thinking_end.
    change ("</thinking>" ++ x) with (String "<" ("/thinking>" ++ x)).
    rewrite (tag_not_across "</thinking>" _ _ c r eq_refl eq_refl H).
    change (String c r ++ String "<" ("/thinking>" ++ x))
      with (String c (r ++ "</thinking>" ++ x)).
    cbv iota. rewrite IH; [reflexivity|]. exact (contains_tail _ _ _ H).
Qed.

(** The search starts the match at the first start-of-reasoning marker. *)
Lemma search_found (pre y : string) (m : string * string) :
  Str.contains "<thinking>" pre = false ->
  Re.think_close y = Some m ->
  Re.search (pre ++ "<thinking>" ++ y) = Some m.
Proof.
  intros H Hy. induction pre as [|c p IH].
  - rewrite search_eq. change ("" ++ ?z) with z.
    unfold Re.match_here. now rewrite after_self, Hy.
  - rewrite search_eq. unfold Re.match_here.
    change ("<thinking>" ++ y) with (String "<" ("thinking>" ++ y)).
    rewrite (tag_not_across "<thinking>" _ _ c p eq_refl eq_refl H).
    change (String c p ++ String "<" ("thinking>" ++ y))
      with (String c (p ++ "<thinking>" ++ y)).
    cbv iota. apply IH. exact (contains_tail _ _ _ H).
Qed.

Lemma search_tagged_text (pre r mid o body post : string) :
  is_opener o ->
  Str.contains "<thinking>" pre = false ->
  Str.contains "</thinking>" r = false ->
  Str.contains "<invoke>" mid = false ->
  Str.contains "</invoke>" mid = false ->
  Str.contains "</invoke>" body = false ->
  Re.search (tagged_text pre r mid o body post) = Some (r, body).
Proof.
  intros Ho Hp Hr Hm1 Hm2 Hb. unfold tagged_text.
  apply search_found; [exact Hp|].
  apply think_close_found; [exact Hr|].
  now apply skip_open_found.
Qed.

End ReFacts.

(** ** The response parser *)

Section ParserFacts.

Lemma lstrip_by_id (f : ascii -> bool) (s : string) :
  (forall c, Str.first_char s = Some c -> f c = false) ->
  Str.lstrip_by f s = s.
Proof.
  destruct s as [|c s]; simpl; [reflexivity|].
  intros H. now rewrite (H c eq_refl).
Qed.

Lemma rstrip_by_id (f : ascii -> bool) (s : string) :
  (forall c, Str.last_char s = Some c -> f c = false) ->
  Str.rstrip_by f s = s.
Proof.
  induction s as [|c s IH]; simpl; [reflexivity|].
  intros H. destruct s as [|d s].
  - simpl. now rewrite (H c eq_refl).
  - rewrite IH; [reflexivity | exact H].
Qed.

Lemma strip_by_idem (f : ascii -> bool) (s : string) :
  Str.strip_by f (Str.strip_by f s) = Str.strip_by f s.
Proof.
  destruct (strip_by_spec f s) as [a [b [_ [_ [_ [Hf Hl]]]]]].
  unfold Str.strip_by at 1.
  rewrite (lstrip_by_id f _ Hf). now apply rstrip_by_id.
Qed.

Lemma stripped_of_strip (g : string) :
  stripped_of g (Str.strip_quotes (Str.strip g)).
Proof.
  destruct (strip_spec g) as [w1 [w2 [Eg [H1 [H2 [Hf Hl]]]]]].
  destruct (strip_by_spec (Ascii.eqb Str.dquote) (Str.strip g))
    as [q1 [q2 [Es [H3 [H4 [Hqf Hql]]]]]].
  exists w1, q1, q2, w2. unfold Str.strip_quotes in *.
  rewrite <- Es.
  split; [exact Eg|]. split; [exact H1|]. split; [exact H2|].
  split; [exact H3|]. split; [exact H4|]. split; [exact Hf|].
  split; [exact Hl|]. split; [exact Hqf | exact Hql].
Qed.

Lemma parse_tagged_text_found (text g1 g2 : string) :
  Re.search (rewrite_think text) = Some (g1, g2) ->
  parse_tagged_text text
  = decoded (Str.strip_quotes (Str.strip g1)) (Str.strip_quotes (Str.strip g2)).
Proof.
  intros H. unfold parse_tagged_text, tagged_groups, decoded. rewrite H. simpl.
  now destruct (Str.strip_quotes (Str.strip g2)).
Qed.

Lemma parse_tagged_text_none (text : string) :
  Re.search (rewrite_think text) = None ->
  parse_tagged_text text = Ok (None, JNull).
Proof. intros H. unfold parse_tagged_text, tagged_groups. now rewrite H. Qed.

Lemma decoded_rejected (thinking body : string) :
  Json.loads body = None ->
  decoded thinking body = Raise ValueError
  \/ decoded thinking body = Ok (Some thinking, JStr "").
Proof.
  intros H. unfold decoded. destruct body; [now right | left; now rewrite H].
Qed.

(** A parse failure leaves [parse_action_to_structure_output] by an
    exception. *)
Lemma parse_failure_raise (text : string) :
  parse_failure (Str.strip text) ->
  exists e, parse_action_to_structure_output text = Raise e.
Proof.
  unfold parse_action_to_structure_output.
  intros [H | [g1 [g2 [H L]]]].
  - rewrite (parse_tagged_text_none _ H). now exists TypeError.
  - rewrite (parse_tagged_text_found _ _ _ H).
    destruct (decoded_rejected (Str.strip_quotes (Str.strip g1)) _ L) as [-> | ->].
    + now exists ValueError.
    + now exists ValueError.
Qed.

Lemma attempt_parse_raise (steps : list TrajStep) (text : string) (e : exn) :
  parse_action_to_structure_output text = Raise e ->
  attempt steps (Ok text) = Failed.
Proof.
  unfold attempt, parse_action_to_structure_output.
  rewrite strip_idem. now intros ->.
Qed.

End ParserFacts.

(** C10. When the block pattern matches, [parse_tagged_text] removes the
    surrounding whitespace and then the leading and trailing double quotes
    from the reasoning text and from the body of the action block, and only
    then hands the body to [json.loads]. *)
Theorem parse_tagged_text_strips (text g1 g2 : string) :
  Re.search (rewrite_think text) = Some (g1, g2) ->
  exists thinking body,
    stripped_of g1 thinking /\ stripped_of g2 body
    /\ parse_tagged_text text = decoded thinking body.
Proof.
  intros H.
  exists (Str.strip_quotes (Str.strip g1)), (Str.strip_quotes (Str.strip g2)).
  split; [apply stripped_of_strip|].
  split; [apply stripped_of_strip|].
  now apply parse_tagged_text_found.
Qed.

Lemma parse_tagged_text_strips_witness :
  exists thinking body,
    stripped_of (Str.qq " 'ok' ") thinking
    /\ stripped_of (Str.qq " '{'action':'wait','duration':1}' ") body
    /\ parse_tagged_text Sample.text_quoted = decoded thinking body.
Proof.
  apply (parse_tagged_text_strips Sample.text_quoted).
  vm_compute. reflexivity.
Defined.

(** The quoted reasoning comes back bare and the quoted body is decoded. *)
Example parse_tagged_text_quoted :
  parse_tagged_text Sample.text_quoted
  = Ok (Some "ok", JObj [("action", JStr "wait"); ("duration", JNum 1)]).
Proof. vm_compute. reflexivity. Qed.

(** Whitespace that is not ASCII is removed as well: a body between two
    no-break spaces (U+00A0) is decoded. *)
Example parse_tagged_text_no_break_space :
  parse_tagged_text
    ("<thinking>ok</thinking><invoke>" ++ Json.utf8 160
       ++ Str.qq "{'action':'wait'}" ++ Json.utf8 160 ++ "</invoke>")
  = Ok (Some "ok", JObj [("action", JStr "wait")]).
Proof. vm_compute. reflexivity. Qed.

(** The end-to-end scenario of the specification. *)
Example parse_click_500 :
  parse_action_to_structure_output Sample.text_click
  = Ok (Some "ok",
        JObj [("action", JStr "click");
              ("coordinate", JArr [JNum (500 # 999); JNum (500 # 999)])]).
Proof. vm_compute. reflexivity. Qed.

(** C2, as the code has it.  A parse failure is an exception, not a null
    action: with no block [parse_tagged_text] returns both fields null, with
    a non-empty body that is not JSON it raises [ValueError];
    [parse_action_to_structure_output] raises in every such case, and the
    retry loop of [predict] counts a failed attempt. *)
Theorem parse_failure_is_exception (steps : list TrajStep) (text : string) :
  parse_failure (Str.strip text) ->
  (exists e, parse_action_to_structure_output text = Raise e)
  /\ attempt steps (Ok text) = Failed
  /\ (Re.search (rewrite_think (Str.strip text)) = None ->
      parse_tagged_text (Str.strip text) = Ok (None, JNull)
      /\ parse_action_to_structure_output text = Raise TypeError)
  /\ (forall g1 g2,
        Re.search (rewrite_think (Str.strip text)) = Some (g1, g2) ->
        parse_action_to_structure_output text = Raise ValueError
        /\ (Str.strip_quotes (Str.strip g2) <> "" ->
            parse_tagged_text (Str.strip text) = Raise ValueError)).
Proof.
  intros F. destruct (parse_failure_raise text F) as [e He].
  split; [now exists e|].
  split; [exact (attempt_parse_raise steps text e He)|].
  split.
  - intros H. split; [now apply parse_tagged_text_none|].
    unfold parse_action_to_structure_output.
    now rewrite (parse_tagged_text_none _ H).
  - intros g1 g2 H.
    destruct F as [N | [h1 [h2 [H' L]]]]; [congruence|].
    rewrite H in H'. injection H' as <- <-.
    unfold parse_action_to_structure_output.
    rewrite (parse_tagged_text_found _ _ _ H).
    unfold decoded. rewrite L.
    destruct (Str.strip_quotes (Str.strip g2)); split; try reflexivity.
    intros N. now elim N.
Qed.

Lemma parse_failure_is_exception_witness :
  (exists e, parse_action_to_structure_output Sample.text_bad_json = Raise e)
  /\ attempt [] (Ok Sample.text_bad_json) = Failed.
Proof.
  destruct (parse_failure_is_exception [] Sample.text_bad_json) as [H1 [H2 _]].
  - right. exists "a", "{bad". split; vm_compute; reflexivity.
  - split; [exact H1 | exact H2].
Defined.

(** C2 as stated fails: a malformed body makes the parser raise instead of
    returning the reasoning with a null action, and without any block
    [parse_action_to_structure_output] raises too. *)
Lemma malformed_body_raises :
  parse_tagged_text Sample.text_bad_json = Raise ValueError
  /\ parse_tagged_text Sample.text_bad_json <> Ok (Some "a", JNull)
  /\ parse_action_to_structure_output Sample.text_bad_json = Raise ValueError
  /\ parse_action_to_structure_output Sample.text_no_block = Raise TypeError.
Proof. vm_compute. repeat split; try reflexivity. discriminate. Qed.

(** ** Tolerance of the parser *)

Section ToleranceFacts.

Lemma rstrip_closing (x post : string) :
  Str.rstrip (x ++ "</invoke>" ++ post)
  = x ++ "</invoke>" ++ Str.rstrip post.
Proof.
  change ("</invoke>" ++ post) with ("</invoke" ++ String ">" post).
  rewrite <- append_assoc.
  rewrite (rstrip_app_plain ">" eq_refl eq_refl).
  now rewrite append_assoc.
Qed.

Lemma strip_tagged_text (pre r mid o body post : string) :
  Str.strip (tagged_text pre r mid o body post)
  = tagged_text (Str.lstrip pre) r mid o body (Str.rstrip post).
Proof.
  unfold Str.strip, tagged_text.
  change (pre ++ "<thinking>" ++ ?x) with (pre ++ String "<" ("thinking>" ++ x)).
  rewrite (lstrip_app_plain "<" eq_refl eq_refl).
  set (lp := Str.lstrip pre).
  change (lp ++ String "<" ("thinking>" ++ ?x)) with (lp ++ "<thinking>" ++ x).
  transitivity
    (Str.rstrip
       ((lp ++ "<thinking>" ++ r ++ "</thinking>" ++ mid ++ o ++ body)
          ++ "</invoke>" ++ post)).
  - f_equal. now rewrite !append_assoc.
  - rewrite rstrip_closing. now rewrite !append_assoc.
Qed.

Lemma tagged_text_has_end (pre r mid o body post : string) :
  Str.contains "</thinking>" (tagged_text pre r mid o body post) = true.
Proof.
  unfold tagged_text.
  replace (pre ++ "<thinking>" ++ r ++ "</thinking>" ++ mid ++ o ++ body ++ "</invoke>" ++ post)
    with ((pre ++ "<thinking>" ++ r) ++ "</thinking>" ++ (mid ++ o ++ body ++ "</invoke>" ++ post))
    by (now rewrite !append_assoc).
  apply contains_app.
Qed.

Lemma rewrite_think_id (text : string) :
  Str.contains "</thinking>" text = true -> rewrite_think text = text.
Proof.
  intros H. unfold rewrite_think. rewrite H.
  now rewrite andb_false_r.
Qed.

(** What the parser makes of a well-formed response, whichever marker
    opens the action block. *)
Lemma parse_tagged_text_blocks (pre r mid o body post : string) :
  is_opener o ->
  Str.contains "<thinking>" pre = false ->
  Str.contains "</thinking>" r = false ->
  Str.contains "<invoke>" mid = false ->
  Str.contains "</invoke>" mid = false ->
  Str.contains "</invoke>" body = false ->
  parse_tagged_text (tagged_text pre r mid o body post)
  = decoded (Str.strip_quotes (Str.strip r)) (Str.strip_quotes (Str.strip body)).
Proof.
  intros Ho Hp Hr Hm1 Hm2 Hb. apply parse_tagged_text_found.
  rewrite rewrite_think_id by apply tagged_text_has_end.
  now apply search_tagged_text.
Qed.

Lemma parse_action_blocks (pre r mid o body post : string) :
  is_opener o ->
  Str.contains "<thinking>" pre = false ->
  Str.contains "</thinking>" r = false ->
  Str.contains "<invoke>" mid = false ->
  Str.contains "</invoke>" mid = false ->
  Str.contains "</invoke>" body = false ->
  parse_action_to_structure_output (tagged_text pre r mid o body post)
  = (results <- decoded (Str.strip_quotes (Str.strip r))
                  (Str.strip_quotes (Str.strip body)) ;;
     action <- structure_output (snd results) ;;
     Ok (fst results, action)).
Proof.
  intros Ho Hp Hr Hm1 Hm2 Hb. unfold parse_action_to_structure_output.
  rewrite strip_tagged_text.
  rewrite parse_tagged_text_blocks; auto.
  now apply contains_lstrip.
Qed.

Lemma select_action_wrapped (w d : dict) :
  lookup "arguments" w = Some (JObj d) ->
  action_body d ->
  select_action (JObj w) = select_action (JObj d).
Proof.
  intros Hw [Ha Hn]. unfold select_action. simpl.
  rewrite Hw, Hn. simpl.
  destruct (lookup "action" d); [reflexivity | contradiction].
Qed.

End ToleranceFacts.

(** C8. A response with a reasoning block followed by an action block
    parses to the same result whether the action block is opened by
    [<invoke>] or by [</invoke>]; and a tool call that wraps an action body
    under [arguments] parses to the same result as the action body itself. *)
Theorem parser_tolerance :
  (forall pre r mid body post,
      Str.contains "<thinking>" pre = false ->
      Str.contains "</thinking>" r = false ->
      Str.contains "<invoke>" mid = false ->
      Str.contains "</invoke>" mid = false ->
      Str.contains "</invoke>" body = false ->
      parse_action_to_structure_output (tagged_text pre r mid "<invoke>" body post)
      = parse_action_to_structure_output (tagged_text pre r mid "</invoke>" body post))
  /\ (forall text_w text_d thinking w d,
        parse_tagged_text (Str.strip text_w) = Ok (thinking, JObj w) ->
        parse_tagged_text (Str.strip text_d) = Ok (thinking, JObj d) ->
        lookup "arguments" w = Some (JObj d) ->
        action_body d ->
        parse_action_to_structure_output text_w
        = parse_action_to_structure_output text_d).
Proof.
  split.
  - intros pre r mid body post Hp Hr Hm1 Hm2 Hb.
    rewrite !parse_action_blocks; auto; [now right | now left].
  - intros tw td th w d Hw Hd Ha Hb.
    unfold parse_action_to_structure_output. rewrite Hw, Hd.
    unfold structure_output. simpl.
    now rewrite (select_action_wrapped w d Ha Hb).
Qed.

Lemma parser_tolerance_witness :
  parse_action_to_structure_output
    (tagged_text " " "ok" " " "<invoke>" Sample.body_direct " ")
  = parse_action_to_structure_output
      (tagged_text " " "ok" " " "</invoke>" Sample.body_direct " ")
  /\ parse_action_to_structure_output
       (tagged_text "" "ok" "" "<invoke>" Sample.body_wrapped "")
     = parse_action_to_structure_output
         (tagged_text "" "ok" "" "<invoke>" Sample.body_direct "").
Proof.
  split.
  - apply (proj1 parser_tolerance); reflexivity.
  - apply (proj2 parser_tolerance) with
      (thinking := Some "ok")
      (w := [("name", JStr "desktop_use");
             ("arguments", JObj [("action", JStr "click");
                                 ("coordinate", JArr [JNum 500; JNum 500])])])
      (d := [("action", JStr "click"); ("coordinate", JArr [JNum 500; JNum 500])]).
    + vm_compute. reflexivity.
    + vm_compute. reflexivity.
    + reflexivity.
    + split; [discriminate | reflexivity].
Defined.

(** Both openers and both body shapes give the click at (500/999, 500/999). *)
Example tolerance_values :
  parse_action_to_structure_output
    (tagged_text "" "ok" "" "</invoke>" Sample.body_wrapped "")
  = Ok (Some "ok",
        JObj [("action", JStr "click");
              ("coordinate", JArr [JNum (500 # 999); JNum (500 # 999)])])
  /\ parse_action_to_structure_output
       (tagged_text "" "ok" "" "<invoke>" Sample.body_direct "")
     = Ok (Some "ok",
           JObj [("action", JStr "click");
                 ("coordinate", JArr [JNum (500 # 999); JNum (500 # 999)])]).
Proof. vm_compute. split; reflexivity. Qed.

(** ** The coordinate codec *)

Section DictFacts.

Lemma lookup_dict_set_same (k : string) (v : json) (d : dict) :
  lookup k (dict_set k v d) = Some v.
Proof.
  induction d as [|[k' v'] d IH]; simpl.
  - now rewrite String.eqb_refl.
  - destruct (String.eqb k k') eqn:E; simpl; rewrite E; [reflexivity | exact IH].
Qed.

Lemma lookup_dict_set_other (k k' : string) (v : json) (d : dict) :
  k <> k' -> lookup k (dict_set k' v d) = lookup k d.
Proof.
  intros N. induction d as [|[k2 v2] d IH]; simpl.
  - apply String.eqb_neq in N. now rewrite N.
  - destruct (String.eqb k' k2) eqn:E; simpl.
    + apply String.eqb_eq in E. subst k2.
      apply String.eqb_neq in N. now rewrite N.
    + now rewrite IH.
Qed.

Lemma dict_set_twice (k : string) (v w : json) (d : dict) :
  dict_set k w (dict_set k v d) = dict_set k w d.
Proof.
  induction d as [|[k' v'] d IH]; simpl.
  - now rewrite String.eqb_refl.
  - destruct (String.eqb k k') eqn:E; simpl; rewrite E; [reflexivity | now rewrite IH].
Qed.

End DictFacts.

Section CodecFacts.

Lemma to_unit_pair (x y : Q) :
  (u <- to_unit (JNum x) (JNum y) ;; Ok (JArr [fst u; snd u]))
  = Ok (unit_pair x y).
Proof.
  unfold to_unit, unit_pair, gt_one, div_scale. simpl.
  destruct (Qle_bool x 1); simpl; [|reflexivity].
  destruct (Qle_bool y 1); reflexivity.
Qed.

(** The block on a pair of numbers. *)
Lemma normalize_field_pair (key : string) (d : dict) (x y : Q) :
  lookup key d = Some (JArr [JNum x; JNum y]) ->
  normalize_field key (JObj d) = Ok (JObj (dict_set key (unit_pair x y) d)).
Proof.
  intros H. unfold normalize_field. simpl. rewrite H. simpl.
  pose proof (to_unit_pair x y) as E.
  destruct (to_unit (JNum x) (JNum y)) as [u|e]; simpl in *; [|discriminate].
  now injection E as ->.
Qed.


Lemma normalize_field_bad_length (key : string) (d : dict) (l : list json) :
  lookup key d = Some (JArr l) ->
  List.length l <> 2%nat -> List.length l <> 4%nat ->
  normalize_field key (JObj d) = Raise ValueError.
Proof.
  intros H N2 N4. unfold normalize_field. simpl. rewrite H. simpl.
  unfold point_of. simpl.
  apply Nat.eqb_neq in N2, N4. now rewrite N2, N4.
Qed.

Lemma normalize_field_absent (key : string) (d : dict) :
  lookup key d = None -> normalize_field key (JObj d) = Ok (JObj d).
Proof. intros H. unfold normalize_field. simpl. now rewrite H. Qed.

(** The block leaves every other entry alone. *)
Lemma normalize_field_other (key k : string) (d : dict) (a : json) :
  normalize_field key (JObj d) = Ok a -> k <> key ->
  exists d', a = JObj d' /\ lookup k d' = lookup k d.
Proof.
  unfold normalize_field. simpl.
  destruct (lookup key d) as [v|]; simpl.
  - destruct (point_of v) as [p|]; simpl; [|discriminate].
    destruct (to_unit (fst p) (snd p)) as [u|]; simpl; [|discriminate].
    intros [= <-] N. eexists. split; [reflexivity|].
    now apply lookup_dict_set_other.
  - intros [= <-] _. now exists d.
Qed.

Lemma normalize_field_dict (key : string) (d : dict) (a : json) :
  normalize_field key (JObj d) = Ok a -> exists d', a = JObj d'.
Proof.
  unfold normalize_field. simpl.
  destruct (lookup key d) as [v|]; simpl.
  - destruct (point_of v) as [p|]; simpl; [|discriminate].
    destruct (to_unit (fst p) (snd p)) as [u|]; simpl; [|discriminate].
    intros [= <-]. eexists. reflexivity.
  - intros [= <-]. now exists d.
Qed.

End CodecFacts.

Section CodecChain.

Lemma structure_output_chain (tool_call : json) (d : dict) (a : json) :
  select_action tool_call = Ok (JObj d) ->
  structure_output tool_call = Ok a ->
  exists d1 d2 d3,
    normalize_field "coordinate" (JObj d) = Ok (JObj d1)
    /\ normalize_field "start_coordinate" (JObj d1) = Ok (JObj d2)
    /\ normalize_field "end_coordinate" (JObj d2) = Ok (JObj d3)
    /\ a = JObj d3.
Proof.
  intros Hs. unfold structure_output. rewrite Hs. simpl.
  destruct (normalize_field "coordinate" (JObj d)) as [a1|] eqn:E1; [|discriminate].
  destruct (normalize_field_dict _ _ _ E1) as [d1 ->]. simpl.
  destruct (normalize_field "start_coordinate" (JObj d1)) as [a2|] eqn:E2; [|discriminate].
  destruct (normalize_field_dict _ _ _ E2) as [d2 ->]. simpl.
  intros E3. destruct (normalize_field_dict _ _ _ E3) as [d3 ->].
  now exists d1, d2, d3.
Qed.

Lemma other_lookup (key k : string) (d d' : dict) :
  normalize_field key (JObj d) = Ok (JObj d') -> k <> key ->
  lookup k d' = lookup k d.
Proof.
  intros H N. destruct (normalize_field_other key k d _ H N) as [d2 [E L]].
  now injection E as ->.
Qed.

Lemma pair_lookup (key : string) (d d' : dict) (x y : Q) :
  lookup key d = Some (JArr [JNum x; JNum y]) ->
  normalize_field key (JObj d) = Ok (JObj d') ->
  lookup key d' = Some (unit_pair x y).
Proof.
  intros L H. rewrite (normalize_field_pair key d x y L) in H.
  injection H as <-. apply lookup_dict_set_same.
Qed.

Lemma unit_pair_unchanged (x y : Q) :
  (x <= 1)%Q /\ (y <= 1)%Q -> unit_pair x y = JArr [JNum x; JNum y].
Proof.
  intros [Hx Hy]. unfold unit_pair.
  apply Qle_bool_iff in Hx, Hy. now rewrite Hx, Hy.
Qed.

Lemma unit_pair_divided (x y : Q) :
  ~ ((x <= 1)%Q /\ (y <= 1)%Q) ->
  unit_pair x y
  = JArr [JNum (Qred (x / SCALE_FACTOR)); JNum (Qred (y / SCALE_FACTOR))].
Proof.
  intros N. unfold unit_pair.
  destruct (Qle_bool x 1) eqn:Ex; [|reflexivity].
  destruct (Qle_bool y 1) eqn:Ey; [|reflexivity].
  exfalso. apply N. split; now apply Qle_bool_iff.
Qed.

End CodecChain.

(** C3, as the code has it.  For each of [coordinate], [start_coordinate]
    and [end_coordinate] holding a pair of numbers, the parser stores the pair
    unchanged exactly when both of its values are at most 1, and otherwise
    stores both values divided by 999: the rule is per pair and its threshold
    is 1.  A list whose length is neither 2 nor 4 makes the parser raise
    [ValueError]. *)
Theorem codec_pair_rule (tool_call : json) (d : dict) (key : string)
  (x y : Q) (a : json) :
  In key coordinate_keys ->
  select_action tool_call = Ok (JObj d) ->
  lookup key d = Some (JArr [JNum x; JNum y]) ->
  structure_output tool_call = Ok a ->
  py_getitem a key = Ok (unit_pair x y)
  /\ normalize_field key (JObj d) = Ok (JObj (dict_set key (unit_pair x y) d))
  /\ ((x <= 1)%Q /\ (y <= 1)%Q -> unit_pair x y = JArr [JNum x; JNum y])
  /\ (~ ((x <= 1)%Q /\ (y <= 1)%Q) ->
      unit_pair x y
      = JArr [JNum (Qred (x / SCALE_FACTOR)); JNum (Qred (y / SCALE_FACTOR))])
  /\ (forall d' l,
        lookup key d' = Some (JArr l) ->
        List.length l <> 2%nat -> List.length l <> 4%nat ->
        normalize_field key (JObj d') = Raise ValueError).
Proof.
  intros Hk Hs L Ha.
  split; [|split; [now apply normalize_field_pair|
                   split; [apply unit_pair_unchanged |
                           split; [apply unit_pair_divided |
                                   intros d' l; apply normalize_field_bad_length]]]].
  destruct (structure_output_chain _ _ _ Hs Ha) as [d1 [d2 [d3 [E1 [E2 [E3 ->]]]]]].
  simpl.
  assert (R : lookup key d3 = Some (unit_pair x y)).
  { destruct Hk as [<- | [<- | [<- | []]]].
    - rewrite (other_lookup _ "coordinate" _ _ E3) by discriminate.
      rewrite (other_lookup _ "coordinate" _ _ E2) by discriminate.
      exact (pair_lookup _ _ _ _ _ L E1).
    - rewrite (other_lookup _ "start_coordinate" _ _ E3) by discriminate.
      apply (pair_lookup _ d1 _ _ _); [|exact E2].
      now rewrite (other_lookup _ "start_coordinate" _ _ E1) by discriminate.
    - apply (pair_lookup _ d2 _ _ _); [|exact E3].
      rewrite (other_lookup _ "end_coordinate" _ _ E2) by discriminate.
      now rewrite (other_lookup _ "end_coordinate" _ _ E1) by discriminate. }
  now rewrite R.
Qed.

Lemma codec_pair_rule_witness :
  py_getitem
    (JObj [("action", JStr "click");
           ("coordinate", JArr [JNum (500 # 999); JNum (1 # 1998)])])
    "coordinate"
  = Ok (unit_pair 500 (1 # 2)).
Proof.
  apply (codec_pair_rule (JObj (Sample.click_at 500 (1 # 2)))
           (Sample.click_at 500 (1 # 2)) "coordinate" 500 (1 # 2)).
  - left. reflexivity.
  - reflexivity.
  - reflexivity.
  - vm_compute. reflexivity.
Defined.

(** C3 as stated fails: the values 1.2 and 0.5 have magnitude at most 1.5
    and are divided by 999 all the same (0.5 because its partner exceeds 1),
    and a list of three values makes the parser raise. *)
Lemma codec_threshold_counterexample :
  structure_output (JObj (Sample.click_at (6 # 5) (1 # 2)))
  = Ok (JObj (Sample.click_at (2 # 1665) (1 # 1998)))
  /\ spec_to_unit (6 # 5) = (6 # 5)
  /\ spec_to_unit (1 # 2) = (1 # 2)
  /\ ~ ((2 # 1665) == (6 # 5))%Q
  /\ ~ ((1 # 1998) == (1 # 2))%Q
  /\ structure_output
       (JObj [("action", JStr "click");
              ("coordinate", JArr [JNum 1; JNum 2; JNum 3])])
     = Raise ValueError.
Proof.
  repeat split; try (vm_compute; reflexivity); intros H; vm_compute in H; discriminate.
Qed.



(** The box [10,20,30,40] and its centre [20,30] both give (20/999, 30/999). *)
Example box_10_20_30_40 :
  parse_action_to_structure_output Sample.text_box
  = Ok (Some "ok", JObj (Sample.click_at (20 # 999) (10 # 333))).
Proof. vm_compute. reflexivity. Qed.

(** ** Rendering and reading back *)

Section RoundTrip.

Local Open Scope Q_scope.








End RoundTrip.




(** 0.5 is rendered as 499 and read back as 499/999. *)
Example roundtrip_half :
  render_then_parse (JObj (Sample.click_at (1 # 2) (1 # 2)))
  = Ok (JObj (Sample.click_at (499 # 999) (499 # 999))).
Proof. vm_compute. reflexivity. Qed.

(** ** The retry loop *)

Section RetryFacts.

Variable run : nat -> attempt_result.

Lemma retry_all_failed (n k : nat) :
  (forall i, (i < n)%nat -> run (k + i) = Failed) -> retry n k run = Failed.
Proof.
  revert k. induction n as [|n IH]; intros k H; simpl; [reflexivity|].
  pose proof (H O (Nat.lt_0_succ n)) as H0. rewrite Nat.add_0_r in H0.
  rewrite H0. apply IH. intros i Hi.
  replace (S k + i)%nat with (k + S i)%nat by lia. apply H. lia.
Qed.


End RetryFacts.

Section PredictFacts.

Lemma steps_set_goal_once (instruction : string) (mem : TrajMemory) :
  steps (set_goal_once instruction mem) = steps mem.
Proof.
  unfold set_goal_once.
  destruct (task_goal mem) as [[|c g]|]; reflexivity.
Qed.

Lemma build_messages_set_goal_once (sp i img instruction : string) (mem : TrajMemory) :
  _build_messages sp i img (set_goal_once instruction mem)
  = _build_messages sp i img mem.
Proof. unfold _build_messages. now rewrite steps_set_goal_once. Qed.

(** [predict] once the messages are built. *)
Lemma predict_built (self : Agent) (instruction : string) (obs : Obs)
  (mem : TrajMemory) (messages : list message) :
  _build_messages (system_prompt self) instruction (image_of obs) mem = Ok messages ->
  predict self instruction obs mem
  = let mem' := set_goal_once instruction mem in
    match cycle_attempts self mem messages with
    | Failed => (Ok llm_error, mem')
    | Parsed p t a | Blocked p t a => finish self obs mem' p t a
    end.
Proof.
  intros H. unfold predict, cycle_attempts, image_of in *.
  rewrite build_messages_set_goal_once, H.
  now rewrite steps_set_goal_once.
Qed.

End PredictFacts.

(** C1, as the code has it.  When all three attempts of a cycle fail,
    [predict] returns the pair ("llm client error", {"action": None}) and
    appends no step; the task goal, which is written before the attempts, is
    the instruction if no goal was set and is unchanged otherwise. *)
Theorem retry_exhaustion (self : Agent) (instruction : string) (obs : Obs)
  (mem : TrajMemory) (messages : list message) :
  _build_messages (system_prompt self) instruction (image_of obs) mem = Ok messages ->
  (forall k, (k < max_retries)%nat ->
             attempt (steps mem) (llm self messages k) = Failed) ->
  let r := predict self instruction obs mem in
  fst r = Ok ("llm client error", JObj [("action", JNull)])
  /\ steps (snd r) = steps mem
  /\ (forall c g, task_goal mem = Some (String c g) -> snd r = mem)
  /\ (task_goal mem = None \/ task_goal mem = Some "" ->
      task_goal (snd r) = Some instruction).
Proof.
  intros Hb Hf r. subst r. rewrite (predict_built _ _ _ _ _ Hb).
  unfold cycle_attempts. rewrite retry_all_failed by (intros i Hi; now apply Hf).
  simpl. split; [reflexivity|]. split; [apply steps_set_goal_once|].
  unfold set_goal_once. split.
  - intros c g E. rewrite E. reflexivity.
  - intros [E | E]; rewrite E; reflexivity.
Qed.

Lemma retry_exhaustion_witness :
  let r := predict (Sample.agent_of []) "open notepad" Sample.obs0 Sample.after_click in
  fst r = Ok ("llm client error", JObj [("action", JNull)])
  /\ steps (snd r) = steps Sample.after_click.
Proof.
  destruct (retry_exhaustion (Sample.agent_of []) "open notepad" Sample.obs0
              Sample.after_click
              [MText "system" ""; MText "user" "open notepad";
               MAssistant "go"
                 (JObj [("name", JStr "desktop_use");
                        ("arguments", JObj (Sample.click_at 499 499))]);
               MImage "png"]) as [H1 [H2 _]].
  - vm_compute. reflexivity.
  - intros k _. destruct k as [|[|[|k]]]; reflexivity.
  - split; [exact H1 | exact H2].
Defined.

(** C1 as stated fails: a cycle whose three attempts fail, run on a fresh
    memory, returns the error pair and leaves the instruction as the task
    goal of the memory. *)
Lemma retry_exhaustion_counterexample :
  cycle_attempts (Sample.agent_of []) Sample.empty
    [MText "system" ""; MText "user" "open notepad"; MImage "png"] = Failed
  /\ predict (Sample.agent_of []) "open notepad" Sample.obs0 Sample.empty
     = (Ok llm_error, {| task_goal := Some "open notepad"; steps := [] |})
  /\ snd (predict (Sample.agent_of []) "open notepad" Sample.obs0 Sample.empty)
     <> Sample.empty.
Proof.
  split; [|split].
  - reflexivity.
  - reflexivity.
  - discriminate.
Qed.

(** ** The duplicate-action guard *)

Section GuardFacts.


Lemma py_eq_str (s t : string) : py_eq (JStr s) (JStr t) = String.eqb s t.
Proof. reflexivity. Qed.

Lemma py_eq_str_r (v : json) (s : string) :
  py_eq v (JStr s) = true -> v = JStr s.
Proof.
  destruct v; simpl; try discriminate.
  intros H. apply String.eqb_eq in H. now subst.
Qed.






Lemma is_duplicate_other (t la a : json) :
py_eq t (JStr "click") = false ->
py_eq t (JStr "type") = false ->
py_eq t (JStr "launch") = false ->
is_duplicate t la a = Ok false.
Proof. intros H1 H2 H3. unfold is_duplicate. now rewrite H1, H2, H3. Qed.

(** After a step that waited, the guard blocks nothing. *)
Lemma guard_after_wait (steps : list TrajStep) (last : TrajStep) (a : json) :
  last_step steps = Some last -> action last = wait_action ->
  duplicate_guard steps a <> Ok true.
Proof.
  intros Hl Ha. unfold duplicate_guard. rewrite Hl, Ha.
  destruct (py_get a "action" (JStr "")) as [t|e]; simpl; [|discriminate].
  destruct (py_eq t (JStr "wait")) eqn:E; [|discriminate].
  apply py_eq_str_r in E. subst t.
  rewrite is_duplicate_other; [discriminate | reflexivity ..].
Qed.

Lemma attempt_blocked (steps : list TrajStep) (response : res string)
  (p : string) (t : option string) (a : json) :
  attempt steps response = Blocked p t a ->
  a = wait_action /\ p = blocked_prediction t
  /\ exists action_json, duplicate_guard steps action_json = Ok true.
Proof.
  unfold attempt. destruct response as [content|]; [|discriminate].
  destruct (parse_action_to_structure_output (Str.strip content)) as [[th aj]|];
    [|discriminate].
  destruct (duplicate_guard steps aj) as [[|]|] eqn:G; try discriminate.
  intros [= <- <- <-]. repeat split. now exists aj.
Qed.

Lemma last_step_app (l : list TrajStep) (s : TrajStep) :
  last_step (l ++ [s]) = Some s.
Proof.
  induction l as [|x l IH]; [reflexivity|].
  simpl. rewrite IH. now destruct (l ++ [s])%list eqn:E; [destruct l|].
Qed.

Lemma retry_blocked (n k : nat) (run : nat -> attempt_result)
  (p : string) (t : option string) (a : json) :
  retry n k run = Blocked p t a -> exists j, run j = Blocked p t a.
Proof.
  revert k. induction n as [|n IH]; intros k; simpl; [discriminate|].
  destruct (run k) eqn:E; [apply IH | discriminate |].
  intros H. exists k. now rewrite E.
Qed.

End GuardFacts.

(** The test of the guard on rationals is the test of the source on the
    Euclidean distance: the square root of the sum of squares is below 0.03
    exactly when [dist_below] answers true. *)
Section Distance.

Local Open Scope R_scope.

Lemma sqrt_below_threshold (d : Q) :
  (0 <= d)%Q ->
  sqrt (Q2R d) < Q2R (3 # 100) <-> (d < (3 # 100) * (3 # 100))%Q.
Proof.
  intros H0. apply Qle_Rle in H0. change (Q2R 0) with (0 * / 1) in H0.
  assert (D0 : 0 <= Q2R d) by Lra.lra.
  assert (C : Q2R (3 # 100) = 3 / 100) by (unfold Q2R; simpl; Lra.lra).
  split.
  - intros H. apply Rlt_Qlt. rewrite Q2R_mult, C.
    rewrite <- (sqrt_sqrt (Q2R d) D0).
    rewrite C in H. pose proof (sqrt_pos (Q2R d)). Lra.nra.
  - intros H. apply Qlt_Rlt in H. rewrite Q2R_mult, C in H. rewrite C.
    rewrite <- (sqrt_square (3 / 100)) by Lra.lra.
    apply sqrt_lt_1_alt. Lra.lra.
Qed.

Lemma dist2_nonneg (lx ly cx cy : Q) : (0 <= dist2 lx ly cx cy)%Q.
Proof. unfold dist2. generalize (lx - cx)%Q, (ly - cy)%Q. intros a b. nra. Qed.

Lemma dist_below_distance (lx ly cx cy : Q) :
  exists b,
    dist_below (JArr [JNum lx; JNum ly]) (JArr [JNum cx; JNum cy]) = Ok b
    /\ (b = true <-> sqrt (Q2R (dist2 lx ly cx cy)) < Q2R (3 # 100)).
Proof.
  eexists. split; [reflexivity|].
  rewrite (sqrt_below_threshold _ (dist2_nonneg lx ly cx cy)).
  fold (dist2 lx ly cx cy). rewrite negb_true_iff.
  split.
  - intros E. apply Qnot_le_lt. intros L.
    apply Qle_bool_iff in L. congruence.
  - intros L. destruct (Qle_bool _ _) eqn:E; [|reflexivity].
    apply Qle_bool_iff in E. exfalso. exact (Qlt_not_le _ _ L E).
Qed.

End Distance.

Section GuardedCycle.

Variables (self : Agent) (instruction : string) (obs : Obs) (mem : TrajMemory).
Variable messages : list message.
Hypothesis built :
  _build_messages (system_prompt self) instruction (image_of obs) mem = Ok messages.


Lemma predict_blocked (p : string) (t : option string) (a : json) :
  cycle_attempts self mem messages = Blocked p t a ->
  let mem' := set_goal_once instruction mem in
  predict self instruction obs mem
  = (Ok (blocked_prediction t, wait_action),
     append_step (new_step self obs mem' (blocked_prediction t) t wait_action) mem').
Proof.
  intros H. rewrite (predict_built _ _ _ _ _ built). rewrite H.
  destruct (retry_blocked _ _ _ _ _ _ H) as [j Hj].
  destruct (attempt_blocked _ _ _ _ _ Hj) as [-> [-> _]]. reflexivity.
Qed.


End GuardedCycle.



(** The scenario of the specification: after a click at (0.50, 0.50), a click
    at (0.51, 0.51) is replaced by the wait and one at (0.60, 0.60) is not. *)
Example guard_scenario :
  fst (predict (Sample.agent_of [Sample.text_click_at "0.51,0.51"])
         "open notepad" Sample.obs0 Sample.after_click)
  = Ok ("<thinking>go</thinking> ⛔ 重复动作被阻止",
        JObj [("action", JStr "wait"); ("duration", JNum 2)])
  /\ fst (predict (Sample.agent_of [Sample.text_click_at "0.60,0.60"])
            "open notepad" Sample.obs0 Sample.after_click)
     = Ok (Sample.text_click_at "0.60,0.60", JObj (Sample.click_at (3 # 5) (3 # 5)))
  /\ List.length (steps Sample.after_block) = 2%nat.
Proof. vm_compute. repeat split; reflexivity. Qed.

Section CaseFacts.







End CaseFacts.



(** Equal texts are blocked, an empty text and a different text are not;
    launch targets are compared without regard to case; two identical
    scrolls and two identical waits pass. *)
Example guard_values :
  duplicate_guard [Sample.step_of (Sample.typed "hello")] (JObj (Sample.typed "hello"))
  = Ok true
  /\ duplicate_guard [Sample.step_of (Sample.typed "")] (JObj (Sample.typed ""))
     = Ok false
  /\ duplicate_guard [Sample.step_of (Sample.typed "hello")] (JObj (Sample.typed "Hello"))
     = Ok false
  /\ duplicate_guard [Sample.step_of (Sample.launched "Notepad")]
       (JObj (Sample.launched "NOTEPAD"))
     = Ok true
  /\ duplicate_guard [Sample.step_of Sample.scrolled] (JObj Sample.scrolled)
     = Ok false
  /\ duplicate_guard (steps Sample.after_block) wait_action = Ok false.
Proof. vm_compute. repeat split; reflexivity. Qed.

Lemma finish_cases (self : Agent) (obs : Obs) (mem : TrajMemory)
  (p : string) (t : option string) (a : json)
  (r : res (string * json)) (mem' : TrajMemory) :
  finish self obs mem p t a = (r, mem') ->
  steps mem' = steps mem
  \/ exists p0 a0 s,
       r = Ok (p0, a0) /\ steps mem' = (steps mem ++ [s])%list
       /\ action s = a0 /\ structured_action s = JObj [("action_json", a0)]
       /\ prediction s = p0.
Proof.
  unfold finish. destruct a; intros [= <- <-];
    [now left | right ..];
    eexists _, _, (new_step self obs mem p t _); repeat split; reflexivity.
Qed.

(** C9. The step appended by a cycle stores the action that the cycle
    returns, which after a substitution is the wait action; and in the cycle
    that follows a substitution no attempt is blocked, whatever the model
    answers. *)
Theorem substitution_not_repeated :
  (forall self instruction obs mem r mem',
      predict self instruction obs mem = (r, mem') ->
      steps mem' = steps mem
      \/ exists p a s,
           r = Ok (p, a) /\ steps mem' = (steps mem ++ [s])%list
           /\ action s = a /\ structured_action s = JObj [("action_json", a)]
           /\ prediction s = p)
  /\ (forall self instruction obs mem messages p t a,
        _build_messages (system_prompt self) instruction (image_of obs) mem
        = Ok messages ->
        cycle_attempts self mem messages = Blocked p t a ->
        let r := predict self instruction obs mem in
        fst r = Ok (blocked_prediction t, wait_action)
        /\ (exists s, last_step (steps (snd r)) = Some s /\ action s = wait_action)
        /\ forall self' messages' p' t' a',
             cycle_attempts self' (snd r) messages' <> Blocked p' t' a').
Proof.
  split.
  - intros self instruction obs mem r mem'. unfold predict.
    pose proof (steps_set_goal_once instruction mem) as E.
    set (m := set_goal_once instruction mem) in *.
    rewrite <- E. clearbody m.
    destruct (_build_messages _ _ _ _) as [messages|e].
    + destruct (retry _ _ _) as [|p t a|p t a].
      * intros [= <- <-]. now left.
      * apply finish_cases.
      * apply finish_cases.
    + intros [= <- <-]. now left.
  - intros self instruction obs mem messages p t a Hb Hc r. subst r.
    rewrite (predict_blocked self instruction obs mem messages Hb p t a Hc).
    simpl fst. simpl snd. split; [reflexivity|].
    assert (L : last_step
                  (steps (append_step
                            (new_step self obs (set_goal_once instruction mem)
                               (blocked_prediction t) t wait_action)
                            (set_goal_once instruction mem)))
                = Some (new_step self obs (set_goal_once instruction mem)
                          (blocked_prediction t) t wait_action)).
    { simpl. apply last_step_app. }
    split; [eexists; split; [exact L | reflexivity]|].
    intros self' messages' p' t' a' H.
    destruct (retry_blocked _ _ _ _ _ _ H) as [j Hj].
    destruct (attempt_blocked _ _ _ _ _ Hj) as [_ [_ [aj G]]].
    exact (guard_after_wait _ _ aj L eq_refl G).
Qed.

Lemma substitution_not_repeated_witness :
  let r := predict (Sample.agent_of [Sample.text_click_at "0.51,0.51"])
             "open notepad" Sample.obs0 Sample.after_click in
  fst r = Ok (blocked_prediction (Some "go"), wait_action)
  /\ (exists s, last_step (steps (snd r)) = Some s /\ action s = wait_action)
  /\ forall self' messages' p' t' a',
       cycle_attempts self' (snd r) messages' <> Blocked p' t' a'.
Proof.
  apply (proj2 substitution_not_repeated
           (Sample.agent_of [Sample.text_click_at "0.51,0.51"])
           "open notepad" Sample.obs0 Sample.after_click
           [MText "system" ""; MText "user" "open notepad";
            MAssistant "go"
              (JObj [("name", JStr "desktop_use");
                     ("arguments", JObj (Sample.click_at 499 499))]);
            MImage "png"]
           (blocked_prediction (Some "go")) (Some "go") wait_action).
  - vm_compute. reflexivity.
  - vm_compute. reflexivity.
Defined.

(** ** The memory stays renderable *)

Section WellFormed.

Lemma to_unit_numeric (px py : json) (u : json * json) :
  to_unit px py = Ok u -> numeric (fst u) /\ numeric (snd u).
Proof.
  unfold to_unit, gt_one, div_scale, numeric.
  destruct (as_num px) as [x|] eqn:Ex; simpl; [|discriminate].
  destruct (Qle_bool x 1); simpl.
  - destruct (as_num py) as [y|] eqn:Ey; simpl; [|discriminate].
    destruct (Qle_bool y 1); simpl; intros [= <-]; simpl;
      rewrite ?Ex, ?Ey; split; discriminate.
  - destruct (as_num py) as [y|] eqn:Ey; simpl; [|discriminate].
    intros [= <-]. simpl. split; discriminate.
Qed.

(** After the block for [key], the entry of [key] is a pair of numbers. *)
Lemma normalize_field_numeric (key : string) (d d' : dict) (v : json) :
  normalize_field key (JObj d) = Ok (JObj d') ->
  lookup key d' = Some v -> numeric_pair v.
Proof.
  unfold normalize_field. simpl.
  destruct (lookup key d) as [v0|] eqn:L; simpl.
  - destruct (point_of v0) as [p|]; simpl; [|discriminate].
    destruct (to_unit (fst p) (snd p)) as [u|] eqn:U; simpl; [|discriminate].
    intros [= <-]. rewrite lookup_dict_set_same. intros [= <-].
    destruct (to_unit_numeric _ _ _ U) as [H1 H2].
    now exists (fst u), (snd u).
  - intros [= <-]. rewrite L. discriminate.
Qed.

(** On a list or a str the block succeeds only when the key is absent. *)
Lemma normalize_field_flat (key : string) (a a' : json) :
  (forall d, a <> JObj d) ->
  normalize_field key a = Ok a' -> a' = a /\ py_in key a = Ok false.
Proof.
  intros N. unfold normalize_field.
  destruct (py_in key a) as [[|]|] eqn:E; simpl; try discriminate.
  - destruct a; simpl; try discriminate. now elim (N d).
  - now intros [= <-].
Qed.

Lemma structure_output_renderable (tool_call a : json) :
  structure_output tool_call = Ok a -> renderable a.
Proof.
  unfold structure_output.
  destruct (select_action tool_call) as [a0|] eqn:S; simpl; [|discriminate].
  intros H.
  assert (D : (exists d, a0 = JObj d) \/ (forall d, a0 <> JObj d)).
  { destruct a0; try (right; discriminate). left. now exists d. }
  destruct D as [[d ->] | N].
  - clear S.
    destruct (normalize_field "coordinate" (JObj d)) as [a1|] eqn:E1; [|discriminate].
    destruct (normalize_field_dict _ _ _ E1) as [d1 ->]. simpl in H.
    destruct (normalize_field "start_coordinate" (JObj d1)) as [a2|] eqn:E2; [|discriminate].
    destruct (normalize_field_dict _ _ _ E2) as [d2 ->]. simpl in H.
    destruct (normalize_field_dict _ _ _ H) as [d3 ->].
    intros key v [<- | [<- | [<- | []]]] L.
    + rewrite (other_lookup _ "coordinate" _ _ H) in L by discriminate.
      rewrite (other_lookup _ "coordinate" _ _ E2) in L by discriminate.
      exact (normalize_field_numeric _ _ _ _ E1 L).
    + rewrite (other_lookup _ "start_coordinate" _ _ H) in L by discriminate.
      exact (normalize_field_numeric _ _ _ _ E2 L).
    + exact (normalize_field_numeric _ _ _ _ H L).
  - destruct (normalize_field "coordinate" a0) as [a1|] eqn:E1; [|discriminate].
    destruct (normalize_field_flat _ _ _ N E1) as [-> P1]. simpl in H.
    destruct (normalize_field "start_coordinate" a0) as [a2|] eqn:E2; [|discriminate].
    destruct (normalize_field_flat _ _ _ N E2) as [-> P2]. simpl in H.
    destruct (normalize_field_flat _ _ _ N H) as [-> P3].
    destruct a0; try (intros key [<- | [<- | [<- | []]]]; assumption).
    now elim (N d).
Qed.

Lemma wait_action_renderable : renderable wait_action.
Proof.
  intros key v [<- | [<- | [<- | []]]]; discriminate.
Qed.

Lemma convert_coord_numeric (v : json) :
  numeric_pair v -> exists x y, convert_coord v = Ok (JArr [JNum x; JNum y]).
Proof.
  intros [x [y [-> [Hx Hy]]]]. unfold numeric in *.
  destruct (as_num x) as [qx|] eqn:Ex; [|contradiction].
  destruct (as_num y) as [qy|] eqn:Ey; [|contradiction].
  unfold convert_coord, lt_1_5. simpl. rewrite Ex. simpl.
  destruct (Qle_bool (3 # 2) qx); simpl.
  - unfold int_of. rewrite Ex, Ey. simpl. eexists _, _; reflexivity.
  - rewrite Ey. simpl.
    destruct (Qle_bool (3 # 2) qy); simpl; unfold int_of, int_scaled;
      rewrite Ex, Ey; simpl; eexists _, _; reflexivity.
Qed.

(** [mem2response] converts each coordinate entry of a renderable action and
    leaves the action renderable. *)
Lemma convert_field_renderable (key : string) (slice : bool) (a : json) :
  In key coordinate_keys -> renderable a ->
  exists a', convert_field key slice a = Ok a' /\ renderable a'.
Proof.
  intros K R. unfold convert_field.
  destruct a; try (rewrite (R key K); simpl; eexists; split; [reflexivity | exact R]).
  simpl in *. destruct (lookup key d) as [v|] eqn:L; simpl.
  - destruct (convert_coord_numeric v (R key v K L)) as [x [y ->]]. simpl.
    exists (JObj (dict_set key (JArr [JNum x; JNum y]) d)).
    split; [now destruct slice|].
    intros k w Kk Lk. destruct (String.eqb k key) eqn:E.
    + apply String.eqb_eq in E. subst k. rewrite lookup_dict_set_same in Lk.
      injection Lk as <-. exists (JNum x), (JNum y).
      repeat split; discriminate.
    + apply String.eqb_neq in E. rewrite lookup_dict_set_other in Lk by exact E.
      exact (R k w Kk Lk).
  - eexists. split; [reflexivity | exact R].
Qed.

Lemma mem2response_renderable (step : TrajStep) (a : json) :
  structured_action step = JObj [("action_json", a)] -> renderable a ->
  exists r, mem2response step = Ok r.
Proof.
  intros S R. unfold mem2response. rewrite S. simpl.
  destruct (convert_field_renderable "coordinate" false a) as [a1 [-> R1]];
    [now left | exact R |]. simpl.
  destruct (convert_field_renderable "start_coordinate" true a1) as [a2 [-> R2]];
    [right; now left | exact R1 |]. simpl.
  destruct (convert_field_renderable "end_coordinate" true a2) as [a3 [-> R3]];
    [right; right; now left | exact R2 |]. simpl.
  eexists. reflexivity.
Qed.

Lemma build_messages_well_formed (sp instruction image : string) (mem : TrajMemory) :
  well_formed mem -> exists messages, _build_messages sp instruction image mem = Ok messages.
Proof.
  unfold well_formed, _build_messages. intros W.
  assert (H : exists h, history_messages (steps mem) = Ok h).
  { induction W as [|s l [a [S R]] _ [h IH]]; simpl.
    - now exists [].
    - unfold step_messages.
      destruct (mem2response_renderable s a S R) as [r ->]. simpl.
      rewrite IH. simpl. eexists. reflexivity. }
  destruct H as [h ->]. simpl. eexists. reflexivity.
Qed.

Lemma retry_parsed (n k : nat) (run : nat -> attempt_result)
  (p : string) (t : option string) (a : json) :
  retry n k run = Parsed p t a -> exists j, run j = Parsed p t a.
Proof.
  revert k. induction n as [|n IH]; intros k; simpl; [discriminate|].
  destruct (run k) eqn:E; [apply IH | | discriminate].
  intros H. exists k. now rewrite E.
Qed.

Lemma attempt_parsed_renderable (steps : list TrajStep) (response : res string)
  (p : string) (t : option string) (a : json) :
  attempt steps response = Parsed p t a -> renderable a.
Proof.
  unfold attempt. destruct response as [content|]; [|discriminate].
  unfold parse_action_to_structure_output.
  destruct (parse_tagged_text _) as [results|]; simpl; [|discriminate].
  destruct (structure_output (snd results)) as [aj|] eqn:S; simpl; [|discriminate].
  destruct (duplicate_guard steps aj) as [[|]|]; try discriminate.
  intros [= _ _ <-]. exact (structure_output_renderable _ _ S).
Qed.

Lemma finish_well_formed (self : Agent) (obs : Obs) (mem : TrajMemory)
  (p : string) (t : option string) (a : json) :
  well_formed mem -> renderable a ->
  (exists r, fst (finish self obs mem p t a) = Ok r)
  /\ well_formed (snd (finish self obs mem p t a)).
Proof.
  intros W R. unfold finish.
  assert (A : well_formed (append_step (new_step self obs mem p t a) mem)).
  { unfold well_formed. simpl. apply Forall_app. split; [exact W|].
    constructor; [|constructor]. eexists. split; [reflexivity | exact R]. }
  destruct a; simpl; split; try (eexists; reflexivity); try exact W; exact A.
Qed.

(** From a memory that it built, [predict] returns a pair, and the memory
    it leaves is again one that it built. *)
Lemma predict_well_formed (self : Agent) (instruction : string) (obs : Obs)
  (mem : TrajMemory) :
  well_formed mem ->
  (exists r, fst (predict self instruction obs mem) = Ok r)
  /\ well_formed (snd (predict self instruction obs mem)).
Proof.
  intros W.
  destruct (build_messages_well_formed (system_prompt self) instruction
              (image_of obs) mem W) as [messages Hb].
  rewrite (predict_built _ _ _ _ _ Hb). cbv zeta.
  assert (W' : well_formed (set_goal_once instruction mem)).
  { unfold well_formed. now rewrite steps_set_goal_once. }
  destruct (cycle_attempts self mem messages) as [|p t a|p t a] eqn:C.
  - split; [eexists; reflexivity | exact W'].
  - apply finish_well_formed; [exact W'|].
    destruct (retry_parsed _ _ _ _ _ _ C) as [j Hj].
    exact (attempt_parsed_renderable _ _ _ _ _ Hj).
  - apply finish_well_formed; [exact W'|].
    destruct (retry_blocked _ _ _ _ _ _ C) as [j Hj].
    destruct (attempt_blocked _ _ _ _ _ Hj) as [-> _].
    exact wait_action_renderable.
Qed.

End WellFormed.

(** * Further properties of the navigation agent *)

(** ** Rendering the history *)

Section HistoryFacts.

Lemma int_scaled_any_numeric (v : json) (q : Q) :
  as_num v = Some q ->
  int_scaled_any v = Ok (JNum (inject_Z (py_int (q * SCALE_FACTOR)))).
Proof. intros E. unfold int_scaled_any. now rewrite E. Qed.

Lemma history_response_renderable (step : TrajStep) (a : json) :
  structured_action step = JObj [("action_json", a)] -> renderable a ->
  exists e, history_response step = Ok (Some e).
Proof.
  intros S R. unfold history_response. rewrite S. simpl.
  destruct a; try (rewrite (R "coordinate" (or_introl eq_refl)); simpl;
                   eexists; reflexivity).
  simpl in *. destruct (lookup "coordinate" d) as [v|] eqn:L; simpl.
  - destruct (R "coordinate" v (or_introl eq_refl) L) as [x [y [-> [Hx Hy]]]].
    unfold numeric in *. simpl.
    destruct (as_num x) as [qx|] eqn:Ex; [|contradiction].
    destruct (as_num y) as [qy|] eqn:Ey; [|contradiction].
    rewrite (int_scaled_any_numeric x qx Ex), (int_scaled_any_numeric y qy Ey).
    simpl. eexists. reflexivity.
  - eexists. reflexivity.
Qed.

Lemma history_responses_length (l : list TrajStep) (r : list (string * json)) :
  history_responses l = Ok r -> (List.length r <= List.length l)%nat.
Proof.
  revert r. induction l as [|s l IH]; simpl; intros r.
  - now intros [= <-].
  - destruct (history_response s) as [e|]; simpl; [|discriminate].
    destruct (history_responses l) as [r'|]; simpl; [|discriminate].
    specialize (IH r' eq_refl).
    destruct e; intros [= <-]; simpl; lia.
Qed.

End HistoryFacts.

(** X1. [history_responses] leaves out the steps that it does not render:
    whenever it returns, it returns at most one entry for each step that has
    a structured action, and none for a step without one, for which
    [mem2response] raises. *)
Theorem history_responses_skips_bare_steps (l : list TrajStep)
  (r : list (string * json)) :
  history_responses l = Ok r ->
  (List.length r
   <= List.length (filter (fun s => truthy (structured_action s)) l))%nat.
Proof.
  revert r. induction l as [|s l IH]; simpl; intros r.
  - now intros [= <-].
  - destruct (history_response s) as [e|] eqn:H; simpl; [|discriminate].
    destruct (history_responses l) as [r'|]; simpl; [|discriminate].
    specialize (IH r' eq_refl).
    destruct e as [e|]; intros [= <-].
    + unfold history_response in H.
      destruct (truthy (structured_action s)); [simpl; lia | discriminate H].
    + destruct (truthy (structured_action s)); simpl; lia.
Qed.

Lemma history_responses_skips_bare_steps_witness :
  (List.length [("go", JObj [("name", JStr "desktop_use");
                             ("arguments", JObj (Sample.click_at 499 499))])]
   <= List.length
        (filter (fun s => truthy (structured_action s))
           [Sample.bare_step; Sample.step_of (Sample.click_at (1 # 2) (1 # 2))]))%nat.
Proof.
  apply (history_responses_skips_bare_steps
           [Sample.bare_step; Sample.step_of (Sample.click_at (1 # 2) (1 # 2))]).
  vm_compute. reflexivity.
Defined.

Section RenderFacts.

Lemma convert_field_absent (key : string) (slice : bool) (d : dict) :
  lookup key d = None -> convert_field key slice (JObj d) = Ok (JObj d).
Proof. intros H. unfold convert_field. simpl. now rewrite H. Qed.

(** On an object, the conversion of one entry leaves the others alone. *)
Lemma convert_field_object (key : string) (slice : bool) (d : dict) :
  In key coordinate_keys -> renderable (JObj d) ->
  exists d', convert_field key slice (JObj d) = Ok (JObj d')
             /\ renderable (JObj d')
             /\ forall k, k <> key -> lookup k d' = lookup k d.
Proof.
  intros K R. unfold convert_field. simpl in *.
  destruct (lookup key d) as [v|] eqn:L; simpl.
  - destruct (convert_coord_numeric v (R key v K L)) as [x [y ->]]. simpl.
    exists (dict_set key (JArr [JNum x; JNum y]) d).
    split; [now destruct slice|]. split.
    + intros k w Kk Lk. destruct (String.eqb k key) eqn:E.
      * apply String.eqb_eq in E. subst k. rewrite lookup_dict_set_same in Lk.
        injection Lk as <-. exists (JNum x), (JNum y).
        repeat split; discriminate.
      * apply String.eqb_neq in E. rewrite lookup_dict_set_other in Lk by exact E.
        exact (R k w Kk Lk).
    + intros k N. now apply lookup_dict_set_other.
  - exists d. split; [reflexivity|]. split; [exact R | reflexivity].
Qed.

(** A pair of numbers below 1.5 is written as their integer parts times
    999. *)
Lemma convert_field_small (key : string) (slice : bool) (d : dict) (x y : Q) :
  lookup key d = Some (JArr [JNum x; JNum y]) ->
  (x < 3 # 2)%Q -> (y < 3 # 2)%Q ->
  convert_field key slice (JObj d)
  = Ok (JObj (dict_set key
                (JArr [JNum (inject_Z (py_int (x * SCALE_FACTOR)));
                       JNum (inject_Z (py_int (y * SCALE_FACTOR)))]) d)).
Proof.
  intros L Hx Hy.
  assert (Ex : Qle_bool (3 # 2) x = false).
  { destruct (Qle_bool (3 # 2) x) eqn:E; [|reflexivity].
    apply Qle_bool_iff in E. exfalso. exact (Qlt_not_le _ _ Hx E). }
  assert (Ey : Qle_bool (3 # 2) y = false).
  { destruct (Qle_bool (3 # 2) y) eqn:E; [|reflexivity].
    apply Qle_bool_iff in E. exfalso. exact (Qlt_not_le _ _ Hy E). }
  unfold convert_field. simpl. rewrite L. simpl.
  unfold convert_coord, lt_1_5. simpl. rewrite Ex. simpl. rewrite Ey. simpl.
  now destruct slice.
Qed.

Lemma mem2response_shape (step : TrajStep) (r : string * json) :
  mem2response step = Ok r ->
  fst r = thinking_content_of (thought step)
  /\ exists arguments,
       snd r = JObj [("name", JStr "desktop_use"); ("arguments", arguments)].
Proof.
  unfold mem2response.
  destruct (negb (truthy (structured_action step))); [discriminate|].
  destruct (py_get _ _ _) as [a0|]; simpl; [|discriminate].
  destruct (convert_field "coordinate" false a0) as [a1|]; simpl; [|discriminate].
  destruct (convert_field "start_coordinate" true a1) as [a2|]; simpl; [|discriminate].
  destruct (convert_field "end_coordinate" true a2) as [a3|]; simpl; [|discriminate].
  intros [= <-]. simpl. split; [reflexivity|]. now exists a3.
Qed.

Lemma thinking_content_nonempty (thinking : option string) :
  thinking_content_of thinking <> "".
Proof. destruct thinking as [[|c t]|]; discriminate. Qed.

Lemma scaled_range (q : Q) :
  (0 <= q <= 1)%Q -> (0 <= Qfloor (q * SCALE_FACTOR) <= 999)%Z.
Proof.
  intros [H0 H1]. unfold SCALE_FACTOR. split.
  - assert (A : (Qfloor 0 <= Qfloor (q * 999))%Z)
      by (apply Qfloor_resp_le; lra).
    exact A.
  - assert (A : (Qfloor (q * 999) <= Qfloor 999)%Z)
      by (apply Qfloor_resp_le; lra).
    exact A.
Qed.

End RenderFacts.

(** X2. For a step whose action has no drag coordinates and whose
    [coordinate], if present, is a pair of numbers below 1.5, the entry of
    [history_responses] is what [mem2response] returns for the step. *)
Theorem history_response_agrees (step : TrajStep) (d : dict) :
  structured_action step = JObj [("action_json", JObj d)] ->
  lookup "start_coordinate" d = None ->
  lookup "end_coordinate" d = None ->
  (lookup "coordinate" d = None
   \/ exists x y, lookup "coordinate" d = Some (JArr [JNum x; JNum y])
                  /\ (x < 3 # 2)%Q /\ (y < 3 # 2)%Q) ->
  exists r, mem2response step = Ok r /\ history_response step = Ok (Some r).
Proof.
  intros S Ls Le C. unfold mem2response, history_response. rewrite S. simpl.
  destruct C as [Lc | [x [y [Lc [Hx Hy]]]]].
  - rewrite (convert_field_absent "coordinate" false d Lc). simpl.
    rewrite (convert_field_absent "start_coordinate" true d Ls). simpl.
    rewrite (convert_field_absent "end_coordinate" true d Le). simpl.
    rewrite Lc. simpl. eexists. split; reflexivity.
  - rewrite (convert_field_small "coordinate" false d x y Lc Hx Hy). simpl.
    rewrite convert_field_absent
      by (rewrite lookup_dict_set_other by discriminate; exact Ls).
    simpl.
    rewrite convert_field_absent
      by (rewrite lookup_dict_set_other by discriminate; exact Le).
    simpl. rewrite Lc. simpl. eexists. split; reflexivity.
Qed.

Lemma history_response_agrees_witness :
  exists r,
    mem2response (Sample.step_of (Sample.click_at (1 # 2) (1 # 2))) = Ok r
    /\ history_response (Sample.step_of (Sample.click_at (1 # 2) (1 # 2)))
       = Ok (Some r).
Proof.
  apply (history_response_agrees
           (Sample.step_of (Sample.click_at (1 # 2) (1 # 2)))
           (Sample.click_at (1 # 2) (1 # 2))); try reflexivity.
  right. exists (1 # 2), (1 # 2). repeat split; reflexivity.
Defined.

(** X3. No assistant message built by [_build_messages] has an empty
    reasoning: the reasoning of a step is kept when it is not empty and is
    replaced by "(proceeding with action)" when it is empty or absent, and
    the tool call is the rendered action under the name [desktop_use]. *)
Theorem assistant_messages_have_reasoning (sp instruction image : string)
  (mem : TrajMemory) (messages : list message) :
  _build_messages sp instruction image mem = Ok messages ->
  forall t c, In (MAssistant t c) messages ->
    t <> ""
    /\ (exists s, In s (steps mem) /\ t = thinking_content_of (thought s))
    /\ exists arguments,
         c = JObj [("name", JStr "desktop_use"); ("arguments", arguments)].
Proof.
  unfold _build_messages.
  destruct (history_messages (steps mem)) as [h|] eqn:H; simpl; [|discriminate].
  intros [= <-] t c I.
  assert (Ih : In (MAssistant t c) h).
  { destruct I as [E | [E | I]]; try discriminate.
    apply in_app_or in I. destruct I as [I | [E | []]]; [exact I | discriminate]. }
  clear I. revert h H Ih. induction (steps mem) as [|s l IH]; simpl; intros h.
  - intros [= <-] [].
  - unfold step_messages.
    destruct (mem2response s) as [r|] eqn:M; simpl; [|discriminate].
    destruct (history_messages l) as [h'|]; simpl; [|discriminate].
    intros [= <-] I.
    destruct I as [E | I].
    + injection E as <- <-.
      destruct (mem2response_shape s r M) as [Et Ec].
      rewrite Et. split; [apply thinking_content_nonempty|].
      split; [exists s; split; [now left | reflexivity] | exact Ec].
    + apply in_app_or in I. destruct I as [I | I].
      * exfalso. repeat (apply in_app_or in I; destruct I as [I | I]);
          repeat match goal with
                 | H : In _ (if ?b then _ else _) |- _ => destruct b
                 | H : In _ [] |- _ => destruct H
                 | H : In _ [_] |- _ => destruct H as [H | []]; discriminate
                 end.
      * destruct (IH h' eq_refl I) as [N [[s' [Is E]] A]].
        split; [exact N|]. split; [exists s'; split; [now right | exact E] | exact A].
Qed.

Lemma assistant_messages_have_reasoning_witness :
  "go" <> ""
  /\ (exists s, In s (steps Sample.after_click)
                /\ "go" = thinking_content_of (thought s))
  /\ exists arguments,
       JObj [("name", JStr "desktop_use");
             ("arguments", JObj (Sample.click_at 499 499))]
       = JObj [("name", JStr "desktop_use"); ("arguments", arguments)].
Proof.
  apply (assistant_messages_have_reasoning "" "open notepad" "png"
           Sample.after_click _ eq_refl "go"
           (JObj [("name", JStr "desktop_use");
                  ("arguments", JObj (Sample.click_at 499 499))])).
  right. right. left. reflexivity.
Defined.

(** ** Building the prompt *)

Section BuildFacts.

Lemma mem2response_bare (step : TrajStep) :
  truthy (structured_action step) = false -> mem2response step = Raise ValueError.
Proof. intros H. unfold mem2response. now rewrite H. Qed.

Lemma history_messages_raise (l : list TrajStep) (s : TrajStep) :
  In s l -> (exists e, mem2response s = Raise e) ->
  exists e, history_messages l = Raise e.
Proof.
  intros I [e0 M]. induction l as [|x l IH]; [destruct I|]. simpl.
  destruct I as [-> | I].
  - unfold step_messages. rewrite M. simpl. now exists e0.
  - destruct (step_messages x) as [m|e]; simpl; [|now exists e].
    destruct (IH I) as [e ->]. simpl. now exists e.
Qed.

Lemma history_messages_app (l : list TrajStep) (s : TrajStep) :
  history_messages (l ++ [s])
  = (h <- history_messages l ;; m <- step_messages s ;; Ok (h ++ m)%list).
Proof.
  induction l as [|x l IH]; simpl.
  - destruct (step_messages s) as [m|]; simpl; [|reflexivity].
    now rewrite app_nil_r.
  - destruct (step_messages x) as [mx|]; simpl; [|reflexivity].
    rewrite IH. destruct (history_messages l) as [h|]; simpl; [|reflexivity].
    destruct (step_messages s) as [m|]; simpl; [|reflexivity].
    now rewrite app_assoc.
Qed.

Lemma step_messages_shape (s : TrajStep) (m : list message) :
  step_messages s = Ok m ->
  List.length (filter is_assistant m) = 1%nat
  /\ forallb (fun x => negb (is_image x)) m = true.
Proof.
  unfold step_messages. destruct (mem2response s) as [r|]; simpl; [|discriminate].
  intros [= <-].
  destruct (String.eqb (ask_user_response s) ""),
           (String.eqb (mcp_response s) ""),
           (String.eqb (conclusion s) ""); split; reflexivity.
Qed.

Lemma history_messages_shape (l : list TrajStep) (h : list message) :
  history_messages l = Ok h ->
  List.length (filter is_assistant h) = List.length l
  /\ forallb (fun x => negb (is_image x)) h = true.
Proof.
  revert h. induction l as [|s l IH]; simpl; intros h.
  - intros [= <-]. split; reflexivity.
  - destruct (step_messages s) as [m|] eqn:M; simpl; [|discriminate].
    destruct (history_messages l) as [h'|]; simpl; [|discriminate].
    intros [= <-]. destruct (step_messages_shape s m M) as [A B].
    destruct (IH h' eq_refl) as [A' B'].
    rewrite filter_app, length_app, forallb_app, A, A', B, B'.
    split; reflexivity.
Qed.

End BuildFacts.

(** X4. A step whose structured action is absent or empty, anywhere in the
    memory, makes [mem2response] raise [ValueError] and makes [predict] leave
    by an exception before the model is called: the outcome does not depend
    on the agent, and the memory keeps its steps. *)
Theorem predict_raises_on_bare_step (mem : TrajMemory) (s : TrajStep) :
  In s (steps mem) -> truthy (structured_action s) = false ->
  mem2response s = Raise ValueError
  /\ exists e, forall self instruction obs,
       predict self instruction obs mem
       = (Raise e, set_goal_once instruction mem).
Proof.
  intros I H. split; [now apply mem2response_bare|].
  destruct (history_messages_raise (steps mem) s I) as [e E].
  { exists ValueError. now apply mem2response_bare. }
  exists e. intros self instruction obs. unfold predict.
  rewrite build_messages_set_goal_once. unfold _build_messages.
  now rewrite E.
Qed.

Lemma predict_raises_on_bare_step_witness :
  exists e, forall self instruction obs,
    predict self instruction obs
      {| task_goal := None; steps := [Sample.bare_step] |}
    = (Raise e,
       set_goal_once instruction
         {| task_goal := None; steps := [Sample.bare_step] |}).
Proof.
  apply (predict_raises_on_bare_step
           {| task_goal := None; steps := [Sample.bare_step] |}
           Sample.bare_step).
  - left. reflexivity.
  - reflexivity.
Defined.

(** X5. For a stored action whose [coordinate] is a pair of numbers between
    0 and 1, [mem2response] writes the pair as two integers between 0 and
    999 and keeps every entry that is not a coordinate. *)
Theorem mem2response_scaled_range (step : TrajStep) (d : dict) (x y : Q) :
  structured_action step = JObj [("action_json", JObj d)] ->
  renderable (JObj d) ->
  lookup "coordinate" d = Some (JArr [JNum x; JNum y]) ->
  (0 <= x <= 1)%Q -> (0 <= y <= 1)%Q ->
  exists d' px py,
    mem2response step
    = Ok (thinking_content_of (thought step),
          JObj [("name", JStr "desktop_use"); ("arguments", JObj d')])
    /\ lookup "coordinate" d' = Some (JArr [px; py])
    /\ within 999 px /\ within 999 py
    /\ forall k, ~ In k coordinate_keys -> lookup k d' = lookup k d.
Proof.
  intros S R L Hx Hy. unfold mem2response. rewrite S. simpl.
  assert (Sx : (x < 3 # 2)%Q) by (destruct Hx; lra).
  assert (Sy : (y < 3 # 2)%Q) by (destruct Hy; lra).
  rewrite (convert_field_small "coordinate" false d x y L Sx Sy). simpl.
  set (d1 := dict_set "coordinate" _ d).
  assert (R1 : renderable (JObj d1)).
  { intros k w Kk Lk. destruct (String.eqb k "coordinate") eqn:E.
    - apply String.eqb_eq in E. subst k. unfold d1 in Lk.
      rewrite lookup_dict_set_same in Lk. injection Lk as <-.
      eexists _, _. repeat split; discriminate.
    - apply String.eqb_neq in E. unfold d1 in Lk.
      rewrite lookup_dict_set_other in Lk by exact E. exact (R k w Kk Lk). }
  destruct (convert_field_object "start_coordinate" true d1) as [d2 [-> [R2 O2]]];
    [right; now left | exact R1 |]. simpl.
  destruct (convert_field_object "end_coordinate" true d2) as [d3 [-> [R3 O3]]];
    [right; right; now left | exact R2 |]. simpl.
  exists d3, (JNum (inject_Z (py_int (x * SCALE_FACTOR)))),
            (JNum (inject_Z (py_int (y * SCALE_FACTOR)))).
  split; [reflexivity|]. split.
  - rewrite O3, O2 by discriminate. unfold d1. apply lookup_dict_set_same.
  - assert (P : forall q, (0 <= q <= 1)%Q ->
                          within 999 (JNum (inject_Z (py_int (q * SCALE_FACTOR))))).
    { intros q Hq. exists (Qfloor (q * SCALE_FACTOR)). split.
      - unfold py_int.
        assert (E : Qle_bool 0 (q * SCALE_FACTOR) = true).
        { apply Qle_bool_iff. unfold SCALE_FACTOR. destruct Hq. lra. }
        now rewrite E.
      - now apply scaled_range. }
    split; [now apply P|]. split; [now apply P|].
    intros k N.
    rewrite O3, O2.
    + unfold d1. apply lookup_dict_set_other. intros ->. apply N. now left.
    + intros ->. apply N. right. now left.
    + intros ->. apply N. right. right. now left.
Qed.

Lemma mem2response_scaled_range_witness :
  exists d' px py,
    mem2response (Sample.step_of (Sample.click_at (1 # 2) 1))
    = Ok ("go", JObj [("name", JStr "desktop_use"); ("arguments", JObj d')])
    /\ lookup "coordinate" d' = Some (JArr [px; py])
    /\ within 999 px /\ within 999 py
    /\ forall k, ~ In k coordinate_keys ->
                 lookup k d' = lookup k (Sample.click_at (1 # 2) 1).
Proof.
  apply (mem2response_scaled_range
           (Sample.step_of (Sample.click_at (1 # 2) 1))
           (Sample.click_at (1 # 2) 1) (1 # 2) 1).
  - reflexivity.
  - intros key v [<- | [<- | [<- | []]]]; simpl; intros [= <-].
    eexists _, _. repeat split; discriminate.
  - reflexivity.
  - split; discriminate.
  - split; discriminate.
Defined.

(** X6. The message list of [_build_messages] is the system prompt, the
    instruction, the history and the current screenshot, in this order; the
    history holds one assistant message for each step and no image, so the
    list ends with its only image. *)
Theorem build_messages_layout (sp instruction image : string)
  (mem : TrajMemory) (messages : list message) :
  _build_messages sp instruction image mem = Ok messages ->
  exists h,
    messages = ([MText "system" sp; MText "user" instruction]
                  ++ h ++ [MImage image])%list
    /\ history_messages (steps mem) = Ok h
    /\ List.length (filter is_assistant h) = List.length (steps mem)
    /\ forallb (fun m => negb (is_image m)) h = true
    /\ List.length (filter is_image messages) = 1%nat.
Proof.
  unfold _build_messages.
  destruct (history_messages (steps mem)) as [h|] eqn:H; simpl; [|discriminate].
  intros [= <-]. exists h.
  destruct (history_messages_shape _ _ H) as [A B].
  assert (Z : filter is_image h = []).
  { clear H A. induction h as [|m h IH]; [reflexivity|]. simpl in *.
    apply andb_prop in B as [Bm Bh]. destruct (is_image m); [discriminate|].
    now apply IH. }
  repeat split; try assumption.
  simpl. now rewrite filter_app, Z.
Qed.

Lemma build_messages_layout_witness :
  exists h,
    [MText "system" ""; MText "user" "open notepad";
     MAssistant "go"
       (JObj [("name", JStr "desktop_use");
              ("arguments", JObj (Sample.click_at 499 499))]);
     MImage "png"]
    = ([MText "system" ""; MText "user" "open notepad"] ++ h ++ [MImage "png"])%list
    /\ history_messages (steps Sample.after_click) = Ok h.
Proof.
  destruct (build_messages_layout "" "open notepad" "png" Sample.after_click
              _ eq_refl) as [h [E [H _]]].
  exists h. split; [exact E | exact H].
Defined.

(** ** Cycles of the prediction loop *)

Section CycleFacts.

Lemma predict_outcome (self : Agent) (instruction : string) (obs : Obs)
  (mem : TrajMemory) :
  let mem0 := set_goal_once instruction mem in
  snd (predict self instruction obs mem) = mem0
  \/ exists p t a,
       a <> JNull
       /\ predict self instruction obs mem
          = (Ok (p, a), append_step (new_step self obs mem0 p t a) mem0).
Proof.
  intros mem0. unfold predict. fold mem0.
  destruct (_build_messages _ _ _ mem0) as [messages|]; [|now left].
  destruct (retry _ _ _) as [|p t a|p t a]; [now left| |];
    (destruct a; [now left | | | | |];
     right;
     match goal with
     | |- context [finish _ _ _ _ _ ?x] =>
         exists p, t, x; split; [discriminate | reflexivity]
     end).
Qed.

Lemma task_goal_set_goal_once (instruction : string) (mem : TrajMemory) :
  task_goal (set_goal_once instruction mem)
  = match task_goal mem with
    | Some (String c g) => Some (String c g)
    | _ => Some instruction
    end.
Proof.
  unfold set_goal_once. destruct (task_goal mem) as [[|c g]|] eqn:E;
    simpl; try reflexivity. exact E.
Qed.

Lemma task_goal_predict (self : Agent) (instruction : string) (obs : Obs)
  (mem : TrajMemory) :
  task_goal (snd (predict self instruction obs mem))
  = task_goal (set_goal_once instruction mem).
Proof.
  destruct (predict_outcome self instruction obs mem) as [-> | [p [t [a [_ ->]]]]];
    reflexivity.
Qed.

Lemma task_goal_kept (l : list (Agent * string * Obs)) (mem : TrajMemory)
  (c : ascii) (g : string) :
  task_goal mem = Some (String c g) -> task_goal (cycles l mem) = Some (String c g).
Proof.
  revert mem. induction l as [|[[self i] obs] l IH]; intros mem G; [exact G|].
  simpl. apply IH. rewrite task_goal_predict, task_goal_set_goal_once.
  now rewrite G.
Qed.

Lemma retry_ext (n k : nat) (run run' : nat -> attempt_result) :
  (forall i, (i < n)%nat -> run (k + i)%nat = run' (k + i)%nat) ->
  retry n k run = retry n k run'.
Proof.
  revert k. induction n as [|n IH]; intros k H; [reflexivity|]. simpl.
  assert (E : run k = run' k).
  { specialize (H 0%nat). rewrite Nat.add_0_r in H. apply H. lia. }
  rewrite <- E. destruct (run k); try reflexivity.
  apply IH. intros i Hi. replace (S k + i)%nat with (k + S i)%nat by lia.
  apply H. lia.
Qed.

Lemma renderable_not_null (a : json) : renderable a -> a <> JNull.
Proof.
  intros R ->. specialize (R "coordinate" (or_introl eq_refl)). discriminate R.
Qed.

Lemma attempt_stuck (steps : list TrajStep) (s : TrajStep) (response : res string) :
  last_step steps = Some s -> truthy (action s) = true ->
  (forall d, action s <> JObj d) ->
  attempt steps response = Failed.
Proof.
  intros L T N. unfold attempt. destruct response as [content|]; [|reflexivity].
  destruct (parse_action_to_structure_output _) as [[t a]|]; [|reflexivity].
  unfold duplicate_guard. rewrite L.
  destruct (py_get a "action" (JStr "")) as [ty|]; simpl; [|reflexivity].
  rewrite T. destruct (action s) as [| | | | |d]; try reflexivity.
  now destruct (N d).
Qed.

End CycleFacts.

(** X7. The execution result that comes with the observation of a cycle is
    stored on the step of the action predicted in that cycle: in every later
    prompt it stands, marked as execution result, directly behind the
    assistant message of that action, and nothing stands there when the
    observation has no result or an empty one. *)
Theorem feedback_follows_new_action (self : Agent) (instruction : string)
  (obs : Obs) (mem mem' : TrajMemory) (r : res (string * json))
  (sp i img : string) (messages : list message) :
  predict self instruction obs mem = (r, mem') ->
  steps mem' <> steps mem ->
  _build_messages sp i img mem' = Ok messages ->
  exists h p a s t c,
    r = Ok (p, a)
    /\ steps mem' = (steps mem ++ [s])%list /\ action s = a
    /\ mem2response s = Ok (t, c)
    /\ history_messages (steps mem) = Ok h
    /\ messages = ([MText "system" sp; MText "user" i] ++ h
                     ++ [MAssistant t c] ++ feedback_of obs ++ [MImage img])%list.
Proof.
  intros P N B.
  destruct (predict_outcome self instruction obs mem) as [E | [p [t [a [_ E]]]]].
  - rewrite P in E. simpl in E. subst mem'. now rewrite steps_set_goal_once in N.
  - rewrite P in E. injection E as -> ->.
    set (s := new_step _ _ _ _ _ _) in *.
    unfold _build_messages in B. simpl in B.
    rewrite steps_set_goal_once, history_messages_app in B.
    destruct (history_messages (steps mem)) as [h|]; simpl in B; [|discriminate].
    unfold step_messages in B.
    destruct (mem2response s) as [[t' c]|] eqn:M; simpl in B; [|discriminate].
    injection B as <-.
    exists h, p, a, s, t', c. simpl. rewrite steps_set_goal_once.
    do 3 (split; [reflexivity|]). split; [exact M|]. split; [reflexivity|].
    rewrite <- app_assoc. simpl. do 4 f_equal.
    unfold feedback_of. now destruct (obs_execution_result obs) as [[|x e]|].
Qed.

Lemma feedback_follows_new_action_witness :
  exists h p a s t c,
    Ok (Str.strip (Sample.text_click_at "0.50,0.50"),
        JObj (Sample.click_at (1 # 2) (1 # 2))) = Ok (p, a)
    /\ steps (snd (predict (Sample.agent_of [Sample.text_click_at "0.50,0.50"])
                     "open notepad"
                     {| obs_screenshot := "png"; obs_accessibility_tree := None;
                        obs_execution_result := Some "clicked" |}
                     Sample.empty))
       = (steps Sample.empty ++ [s])%list
    /\ action s = a
    /\ mem2response s = Ok (t, c)
    /\ history_messages (steps Sample.empty) = Ok h
    /\ [MText "system" "s"; MText "user" "next";
        MAssistant "go"
          (JObj [("name", JStr "desktop_use");
                 ("arguments", JObj (Sample.click_at 499 499))]);
        MText "user" "[EXECUTION RESULT]: clicked"; MImage "img"]
       = ([MText "system" "s"; MText "user" "next"] ++ h
            ++ [MAssistant t c]
            ++ feedback_of {| obs_screenshot := "png";
                              obs_accessibility_tree := None;
                              obs_execution_result := Some "clicked" |}
            ++ [MImage "img"])%list.
Proof.
  apply (feedback_follows_new_action
           (Sample.agent_of [Sample.text_click_at "0.50,0.50"]) "open notepad"
           {| obs_screenshot := "png"; obs_accessibility_tree := None;
              obs_execution_result := Some "clicked" |}
           Sample.empty _ _ "s" "next" "img").
  - vm_compute. reflexivity.
  - vm_compute. discriminate.
  - vm_compute. reflexivity.
Defined.

(** X8. [predict] numbers the steps by their position: when every step of
    the memory carries its position as its index, so does every step after
    any number of further cycles. *)
Theorem step_index_is_position (l : list (Agent * string * Obs))
  (mem : TrajMemory) :
  indexed (steps mem) -> indexed (steps (cycles l mem)).
Proof.
  revert mem. induction l as [|[[self instruction] obs] l IH]; intros mem I;
    [exact I|].
  simpl. apply IH.
  destruct (predict_outcome self instruction obs mem) as [-> | [p [t [a [_ ->]]]]].
  - now rewrite steps_set_goal_once.
  - simpl. rewrite steps_set_goal_once. intros i s H.
    destruct (Nat.lt_ge_cases i (List.length (steps mem))) as [Lt | Ge].
    + rewrite nth_error_app1 in H by exact Lt. now apply I.
    + rewrite nth_error_app2 in H by exact Ge.
      destruct (i - List.length (steps mem))%nat as [|j] eqn:E.
      * injection H as <-. simpl. rewrite steps_set_goal_once. lia.
      * destruct j; discriminate H.
Qed.

Lemma step_index_is_position_witness :
  indexed (steps (cycles [(Sample.agent_of [Sample.text_click_at "0.50,0.50"],
                           "open notepad", Sample.obs0);
                          (Sample.agent_of [Sample.text_click_at "0.80,0.80"],
                           "open notepad", Sample.obs0)]
                    Sample.empty)).
Proof.
  apply (step_index_is_position _ Sample.empty).
  intros i s H. destruct i; discriminate H.
Defined.

(** X9. The task goal is written once: a cycle with a non-empty instruction
    on a memory whose goal is absent or empty sets the goal to that
    instruction, and no later cycle changes a goal that is not empty, whatever
    instruction it is given. *)
Theorem task_goal_first_write_wins (l : list (Agent * string * Obs))
  (self : Agent) (instruction : string) (obs : Obs) (mem : TrajMemory) :
  instruction <> "" ->
  (task_goal mem = None \/ task_goal mem = Some "") ->
  task_goal (cycles ((self, instruction, obs) :: l) mem) = Some instruction.
Proof.
  intros N G. simpl. destruct instruction as [|c g]; [now destruct N|].
  apply task_goal_kept. rewrite task_goal_predict, task_goal_set_goal_once.
  now destruct G as [-> | ->].
Qed.

Lemma task_goal_first_write_wins_witness :
  task_goal (cycles [(Sample.agent_of [], "open notepad", Sample.obs0);
                     (Sample.agent_of [Sample.text_click], "close it", Sample.obs0)]
               Sample.empty)
  = Some "open notepad".
Proof.
  apply (task_goal_first_write_wins _ _ "open notepad" _ Sample.empty).
  - discriminate.
  - left. reflexivity.
Defined.

(** X10. A cycle asks the model at most [max_retries] = 3 times: two agents
    with the same model name and system prompt whose models agree on the
    attempts 0, 1 and 2 give the same result and the same memory. *)
Theorem at_most_three_attempts (self self' : Agent) (instruction : string)
  (obs : Obs) (mem : TrajMemory) :
  agent_model_name self = agent_model_name self' ->
  system_prompt self = system_prompt self' ->
  (forall messages k, (k < 3)%nat -> llm self messages k = llm self' messages k) ->
  predict self instruction obs mem = predict self' instruction obs mem.
Proof.
  intros Hn Hs Hl. unfold predict. rewrite <- Hs.
  destruct (_build_messages _ _ _ _) as [messages|]; [|reflexivity].
  rewrite (retry_ext max_retries 0 _
             (fun k => attempt (steps (set_goal_once instruction mem))
                         (llm self' messages k))).
  - destruct (retry _ _ _) as [|p t a|p t a]; try reflexivity;
      unfold finish, new_step; now rewrite Hn.
  - intros i Hi. simpl. now rewrite Hl.
Qed.

Lemma at_most_three_attempts_witness :
  predict (Sample.agent_of [Sample.text_no_block; Sample.text_bad_json])
    "open notepad" Sample.obs0 Sample.empty
  = predict {| agent_model_name := "mai-ui"; system_prompt := "";
               llm := fun _ k =>
                        match k with
                        | 0%nat => Ok Sample.text_no_block
                        | 1%nat => Ok Sample.text_bad_json
                        | 2%nat => Raise ValueError
                        | _ => Ok Sample.text_click
                        end |}
      "open notepad" Sample.obs0 Sample.empty.
Proof.
  apply at_most_three_attempts.
  - reflexivity.
  - reflexivity.
  - intros messages k H.
    destruct k as [|[|[|k]]]; [reflexivity | reflexivity | reflexivity | lia].
Defined.

(** X11. On a memory without steps the duplicate guard is not run: the model
    is asked with the system prompt, the instruction and the screenshot, and
    whatever the parser makes of its first answer is returned with the
    stripped answer and stored as the first step, object or not. *)
Theorem first_cycle_unguarded (self : Agent) (instruction : string) (obs : Obs)
  (mem : TrajMemory) (content : string) (t : option string) (a : json) :
  steps mem = [] ->
  llm self (first_messages self instruction obs) 0 = Ok content ->
  parse_action_to_structure_output (Str.strip content) = Ok (t, a) ->
  let mem0 := set_goal_once instruction mem in
  predict self instruction obs mem
  = (Ok (Str.strip content, a),
     append_step (new_step self obs mem0 (Str.strip content) t a) mem0).
Proof.
  intros E L P mem0. unfold predict. fold mem0.
  unfold _build_messages. unfold mem0 at 1. rewrite steps_set_goal_once, E.
  simpl. unfold mem0 at 1. rewrite steps_set_goal_once, E.
  change (safe_pil_to_bytes (obs_screenshot obs)) with (image_of obs).
  change [MText "system" (system_prompt self); MText "user" instruction;
          MImage (image_of obs)] with (first_messages self instruction obs).
  rewrite L. simpl. rewrite P. simpl.
  assert (N : a <> JNull).
  { apply renderable_not_null.
    unfold parse_action_to_structure_output in P.
    destruct (parse_tagged_text _) as [[t' c]|]; simpl in P; [|discriminate].
    destruct (structure_output c) as [a'|] eqn:S; simpl in P; [|discriminate].
    injection P as _ <-. exact (structure_output_renderable _ _ S). }
  unfold finish. destruct a; [now destruct N | | | | |]; reflexivity.
Qed.

Lemma first_cycle_unguarded_witness :
  predict (Sample.agent_of [Sample.text_list_action]) "open notepad"
    Sample.obs0 Sample.empty
  = (Ok (Str.strip Sample.text_list_action, JArr [JNum 1; JNum 2]),
     append_step
       (new_step (Sample.agent_of [Sample.text_list_action]) Sample.obs0
          (set_goal_once "open notepad" Sample.empty)
          (Str.strip Sample.text_list_action) (Some "go") (JArr [JNum 1; JNum 2]))
       (set_goal_once "open notepad" Sample.empty)).
Proof.
  apply (first_cycle_unguarded (Sample.agent_of [Sample.text_list_action])
           "open notepad" Sample.obs0 Sample.empty Sample.text_list_action
           (Some "go") (JArr [JNum 1; JNum 2])).
  - reflexivity.
  - reflexivity.
  - vm_compute. reflexivity.
Defined.

(** X12. Once the last step holds an action that is truthy but no object
    (a non-empty list, as the first cycle can store), the guard raises at
    every attempt: each later cycle returns the error pair and adds no step,
    whatever the model answers. *)
Theorem non_object_action_blocks_agent (self : Agent) (instruction : string)
  (obs : Obs) (mem : TrajMemory) (s : TrajStep) :
  well_formed mem ->
  last_step (steps mem) = Some s -> truthy (action s) = true ->
  (forall d, action s <> JObj d) ->
  predict self instruction obs mem
  = (Ok llm_error, set_goal_once instruction mem).
Proof.
  intros W L T N.
  destruct (build_messages_well_formed (system_prompt self) instruction
              (image_of obs) mem W) as [messages B].
  rewrite (predict_built self instruction obs mem messages B). simpl.
  unfold cycle_attempts. rewrite retry_all_failed; [reflexivity|].
  intros i _. now apply (attempt_stuck (steps mem) s).
Qed.

Lemma non_object_action_blocks_agent_witness :
  predict (Sample.agent_of [Sample.text_click]) "open notepad" Sample.obs0
    (snd (predict (Sample.agent_of [Sample.text_list_action]) "open notepad"
            Sample.obs0 Sample.empty))
  = (Ok llm_error,
     set_goal_once "open notepad"
       (snd (predict (Sample.agent_of [Sample.text_list_action]) "open notepad"
               Sample.obs0 Sample.empty))).
Proof.
  apply (non_object_action_blocks_agent (Sample.agent_of [Sample.text_click])
           "open notepad" Sample.obs0
           (snd (predict (Sample.agent_of [Sample.text_list_action])
                   "open notepad" Sample.obs0 Sample.empty))
           (new_step (Sample.agent_of [Sample.text_list_action]) Sample.obs0
              (set_goal_once "open notepad" Sample.empty)
              (Str.strip Sample.text_list_action) (Some "go")
              (JArr [JNum 1; JNum 2]))).
  - apply (predict_well_formed _ _ _ Sample.empty). constructor.
  - vm_compute. reflexivity.
  - reflexivity.
  - intros d. discriminate.
Defined.

(** ** Postconditions of the parser *)

Section ParserFacts.

Lemma dict_set_keys (k : string) (v w : json) (d : dict) :
  lookup k d = Some w -> map fst (dict_set k v d) = map fst d.
Proof.
  induction d as [|[k' v'] d IH]; simpl; [discriminate|].
  destruct (String.eqb k k'); [reflexivity|]. intros L. simpl. now rewrite IH.
Qed.

Lemma normalize_field_keys (key : string) (d d' : dict) :
  normalize_field key (JObj d) = Ok (JObj d') -> map fst d' = map fst d.
Proof.
  unfold normalize_field. simpl.
  destruct (lookup key d) as [w|] eqn:L; simpl.
  - destruct (point_of w) as [p|]; simpl; [|discriminate].
    destruct (to_unit (fst p) (snd p)) as [u|]; simpl; [|discriminate].
    intros [= <-]. exact (dict_set_keys key _ w d L).
  - now intros [= <-].
Qed.

Lemma parse_action_inv (text : string) (t : option string) (a : json) :
  parse_action_to_structure_output text = Ok (t, a) ->
  exists tool_call,
    parse_tagged_text (Str.strip text) = Ok (t, tool_call)
    /\ structure_output tool_call = Ok a.
Proof.
  unfold parse_action_to_structure_output.
  destruct (parse_tagged_text _) as [[t' c]|]; simpl; [|discriminate].
  destruct (structure_output c) as [a'|] eqn:S; simpl; [|discriminate].
  intros [= <- <-]. now exists c.
Qed.

Lemma replace_from_skip (old new s1 s2 : string) :
  Str.replace_from old new (String.length s1) (s1 ++ s2)
  = Str.replace_from old new 0 s2.
Proof.
  induction s1 as [|c s1 IH]; simpl.
  - now destruct s2.
  - exact IH.
Qed.

Lemma replace_absent (old new s : string) :
  Str.contains old s = false -> Str.replace old new s = s.
Proof.
  unfold Str.replace. induction s as [|c s IH]; [reflexivity|].
  intros H. pose proof (contains_head _ _ H) as Hh.
  apply contains_tail in H. simpl. rewrite Hh. now rewrite IH.
Qed.

Lemma replace_once (old new r tail : string) :
  Str.is_tag old = true ->
  Str.contains old r = false ->
  Str.replace old new (r ++ old ++ tail)
  = r ++ new ++ Str.replace old new tail.
Proof.
  intros T. unfold Str.replace. induction r as [|c r IH]; intros H.
  - destruct old as [|o old']; [discriminate T|].
    change ("" ++ String o old' ++ tail) with (String o (old' ++ tail)).
    cbn [Str.replace_from].
    assert (A : Str.startswith (String o old') (String o (old' ++ tail)) = true).
    { unfold Str.startswith.
      change (String o (old' ++ tail)) with (String o old' ++ tail).
      now rewrite after_self. }
    rewrite A.
    replace (String.length (String o old') - 1)%nat with (String.length old')
      by (simpl; lia).
    now rewrite replace_from_skip.
  - assert (A : Str.startswith old (String c r ++ old ++ tail) = false).
    { unfold Str.startswith.
      destruct old as [|o old']; [discriminate T|].
      simpl in T. apply andb_prop in T as [To Tr].
      unfold Str.is_lt in To. apply Ascii.eqb_eq in To. subst o.
      change (String "<" old' ++ tail) with (String "<" (old' ++ tail)).
      rewrite (tag_not_across (String "<" old') (String c r) (old' ++ tail) c r);
        [reflexivity | | reflexivity | exact H].
      simpl. now rewrite Tr. }
    change (String c r ++ old ++ tail) with (String c (r ++ old ++ tail)) in *.
    cbn [Str.replace_from]. rewrite A.
    rewrite IH by exact (contains_tail _ _ _ H). reflexivity.
Qed.

End ParserFacts.

(** X14. Whenever [parse_action_to_structure_output] returns an object,
    each of its entries [coordinate], [start_coordinate] and [end_coordinate]
    is a list of exactly two numbers (a bool counts as a number, as in
    Python): a box, a string or a longer list never leaves the parser. *)
Theorem parsed_coordinates_are_pairs (text : string) (t : option string)
  (d : dict) (key : string) (v : json) :
  parse_action_to_structure_output text = Ok (t, JObj d) ->
  In key coordinate_keys -> lookup key d = Some v ->
  exists x y, v = JArr [x; y] /\ as_num x <> None /\ as_num y <> None.
Proof.
  intros P I L. destruct (parse_action_inv _ _ _ P) as [c [_ S]].
  exact (structure_output_renderable c (JObj d) S key v I L).
Qed.

Lemma parsed_coordinates_are_pairs_witness :
  exists x y,
    JArr [JNum (20 # 999); JNum (10 # 333)] = JArr [x; y]
    /\ as_num x <> None /\ as_num y <> None.
Proof.
  apply (parsed_coordinates_are_pairs Sample.text_box (Some "ok")
           [("action", JStr "click");
            ("coordinate", JArr [JNum (20 # 999); JNum (10 # 333)])]
           "coordinate").
  - vm_compute. reflexivity.
  - left. reflexivity.
  - reflexivity.
Defined.

(** X15. The parser rewrites coordinate entries and nothing else: the
    reasoning is the one of [parse_tagged_text], the returned object has the
    keys of the selected action in the same order, and every entry under a
    key other than the three coordinate keys is unchanged. *)
Theorem parser_touches_only_coordinates (text : string) (t t' : option string)
  (tool_call : json) (d d' : dict) :
  parse_tagged_text (Str.strip text) = Ok (t, tool_call) ->
  select_action tool_call = Ok (JObj d) ->
  parse_action_to_structure_output text = Ok (t', JObj d') ->
  t' = t
  /\ map fst d' = map fst d
  /\ forall k, ~ In k coordinate_keys -> lookup k d' = lookup k d.
Proof.
  intros T S P. destruct (parse_action_inv _ _ _ P) as [c [T' S']].
  rewrite T in T'. injection T' as <- <-. split; [reflexivity|].
  destruct (structure_output_chain tool_call d (JObj d') S S')
    as [d1 [d2 [d3 [N1 [N2 [N3 E]]]]]].
  injection E as ->. split.
  - rewrite (normalize_field_keys _ _ _ N3), (normalize_field_keys _ _ _ N2).
    exact (normalize_field_keys _ _ _ N1).
  - intros k N.
    rewrite (other_lookup _ k _ _ N3), (other_lookup _ k _ _ N2).
    + apply (other_lookup _ k _ _ N1). intros ->. apply N. now left.
    + intros ->. apply N. right. now left.
    + intros ->. apply N. right. right. now left.
Qed.

Lemma parser_touches_only_coordinates_witness :
  Some "ok" = Some "ok"
  /\ map fst [("action", JStr "click");
              ("coordinate", JArr [JNum (20 # 999); JNum (10 # 333)])]
     = map fst [("action", JStr "click");
                ("coordinate", JArr [JNum 10; JNum 20; JNum 30; JNum 40])]
  /\ forall k, ~ In k coordinate_keys ->
       lookup k [("action", JStr "click");
                 ("coordinate", JArr [JNum (20 # 999); JNum (10 # 333)])]
       = lookup k [("action", JStr "click");
                   ("coordinate", JArr [JNum 10; JNum 20; JNum 30; JNum 40])].
Proof.
  apply (parser_touches_only_coordinates Sample.text_box (Some "ok") (Some "ok")
           (JObj [("action", JStr "click");
                  ("coordinate", JArr [JNum 10; JNum 20; JNum 30; JNum 40])])).
  - vm_compute. reflexivity.
  - reflexivity.
  - vm_compute. reflexivity.
Defined.

(** X16. The shim for the thinking-model format: a text with one closing
    [</think>] and no [</thinking>] is parsed as if everything before the
    [</think>] stood in a reasoning block opened at the very start of the
    text. *)
Theorem think_shim (r tail : string) :
  Str.contains "</think>" r = false ->
  Str.contains "</think>" tail = false ->
  Str.contains "</thinking>" (r ++ "</think>" ++ tail) = false ->
  parse_tagged_text (r ++ "</think>" ++ tail)
  = parse_tagged_text ("<thinking>" ++ r ++ "</thinking>" ++ tail).
Proof.
  intros Hr Ht Hn.
  assert (R1 : rewrite_think (r ++ "</think>" ++ tail)
               = "<thinking>" ++ r ++ "</thinking>" ++ tail).
  { unfold rewrite_think. rewrite contains_app, Hn.
    cbn [andb negb]. f_equal.
    rewrite (replace_once "</think>" "</thinking>" r tail eq_refl Hr).
    now rewrite (replace_absent _ _ _ Ht). }
  assert (R2 : rewrite_think ("<thinking>" ++ r ++ "</thinking>" ++ tail)
               = "<thinking>" ++ r ++ "</thinking>" ++ tail).
  { apply rewrite_think_id.
    rewrite <- (append_assoc "<thinking>" r ("</thinking>" ++ tail)).
    apply contains_app. }
  unfold parse_tagged_text. now rewrite R1, R2.
Qed.

Lemma think_shim_witness :
  parse_tagged_text
    ("plan" ++ "</think>"
       ++ Str.qq "<invoke>{'action':'wait','duration':1}</invoke>")
  = parse_tagged_text
      ("<thinking>" ++ "plan" ++ "</thinking>"
         ++ Str.qq "<invoke>{'action':'wait','duration':1}</invoke>").
Proof.
  apply (think_shim "plan"
           (Str.qq "<invoke>{'action':'wait','duration':1}</invoke>"));
    vm_compute; reflexivity.
Defined.

(** * Properties of the log masking *)

Section MaskFacts.

Lemma map_res_length {A B : Type} (f : A -> res B) (l : list A) (l' : list B) :
  map_res f l = Ok l' -> List.length l' = List.length l.
Proof.
  revert l'. induction l as [|a l IH]; simpl; intros l'.
  - now intros [= <-].
  - destruct (f a); simpl; [|discriminate].
    destruct (map_res f l); simpl; [|discriminate].
    intros [= <-]. simpl. now rewrite (IH _ eq_refl).
Qed.

Lemma map_res_fixed {A : Type} (f : A -> res A) (l l' : list A) :
  (forall a b, f a = Ok b -> f b = Ok b) ->
  map_res f l = Ok l' -> map_res f l' = Ok l'.
Proof.
  intros F. revert l'. induction l as [|a l IH]; simpl; intros l'.
  - now intros [= <-].
  - destruct (f a) as [b|] eqn:E; simpl; [|discriminate].
    destruct (map_res f l) as [bs|]; simpl; [|discriminate].
    intros [= <-]. simpl. now rewrite (F _ _ E), (IH _ eq_refl).
Qed.

Lemma map_res_in {A B : Type} (f : A -> res B) (l : list A) (l' : list B) (b : B) :
  map_res f l = Ok l' -> In b l' -> exists a, In a l /\ f a = Ok b.
Proof.
  revert l'. induction l as [|a l IH]; simpl; intros l'.
  - intros [= <-] [].
  - destruct (f a) as [b0|] eqn:E; simpl; [|discriminate].
    destruct (map_res f l) as [bs|]; simpl; [|discriminate].
    intros [= <-] [<- | I].
    + exists a. now split; [left|].
    + destruct (IH _ eq_refl I) as [a' [Ia Fa]]. exists a'. now split; [right|].
Qed.

Lemma mask_item_fixed (item item' : json) :
  mask_item item = Ok item' -> mask_item item' = Ok item'.
Proof.
  destruct item as [| | | | |d]; simpl; try (now intros [= <-]).
  destruct (lookup "image_url" d) as [iu|] eqn:L.
  - destruct iu as [| | | | |du]; simpl; try discriminate.
    intros [= <-]. simpl. rewrite lookup_dict_set_same. simpl.
    now rewrite !dict_set_twice.
  - intros [= <-]. simpl. now rewrite L.
Qed.

Lemma mask_item_masked (item item' : json) :
  mask_item item = Ok item' -> masked_item item'.
Proof.
  intros M d iu -> L'.
  destruct item as [| | | | |d0]; simpl in M; try discriminate.
  destruct (lookup "image_url" d0) as [iu0|] eqn:L.
  - destruct iu0 as [| | | | |du]; simpl in M; try discriminate.
    injection M as <-. rewrite lookup_dict_set_same in L'. injection L' as <-.
    simpl. now rewrite lookup_dict_set_same.
  - injection M as <-. rewrite L in L'. discriminate.
Qed.

Lemma mask_message_cases (m m' : json) :
  mask_message m = Ok m' ->
  (m' = m /\ content_items m = [])
  \/ exists md items items',
       m = JObj md /\ lookup "content" md = Some (JArr items)
       /\ items <> [] /\ map_res mask_item items = Ok items'
       /\ m' = JObj (dict_set "content" (JArr items') md).
Proof.
  unfold mask_message. destruct m as [| | | | |md]; simpl; try discriminate.
  destruct (lookup "content" md) as [c|] eqn:L.
  - destruct c as [| | | |l|]; try (intros [= <-]; left; split; reflexivity).
    destruct l as [|item items]; [intros [= <-]; left; split; reflexivity|].
    change (b <- mask_item item ;; bs <- map_res mask_item items ;; Ok (b :: bs))
      with (map_res mask_item (item :: items)).
    destruct (map_res mask_item (item :: items)) as [items'|] eqn:M.
    + cbn [bind py_setitem]. intros [= <-]. right.
      exists md, (item :: items), items'.
      split; [reflexivity|]. split; [exact L|]. split; [discriminate|].
      split; [exact M | reflexivity].
    + cbn [bind]. discriminate.
  - intros [= <-]. left. split; reflexivity.
Qed.

Lemma mask_message_fixed (m m' : json) :
  mask_message m = Ok m' -> mask_message m' = Ok m'.
Proof.
  intros M. destruct (mask_message_cases m m' M)
    as [[-> _] | [md [items [items' [-> [L [N [R ->]]]]]]]]; [exact M|].
  unfold mask_message. cbn [py_get bind]. rewrite lookup_dict_set_same.
  pose proof (map_res_length _ _ _ R) as Len.
  destruct items' as [|i' is'].
  - destruct items; [now destruct N | discriminate Len].
  - rewrite (map_res_fixed mask_item items (i' :: is') mask_item_fixed R).
    cbn [bind py_setitem]. now rewrite dict_set_twice.
Qed.

End MaskFacts.

(** X17. Where [mask_image_urls_for_logging] returns, it returns as many
    messages as it was given, every item of every content list that has an
    [image_url] has the placeholder as its url, and masking the result again
    changes nothing. *)
Theorem masking_is_complete_and_idempotent (messages masked : list json) :
  mask_image_urls_for_logging messages = Ok masked ->
  List.length masked = List.length messages
  /\ (forall m item, In m masked -> In item (content_items m) -> masked_item item)
  /\ mask_image_urls_for_logging masked = Ok masked.
Proof.
  unfold mask_image_urls_for_logging. intros M. split; [|split].
  - exact (map_res_length _ _ _ M).
  - intros m item Im Ii.
    destruct (map_res_in _ _ _ m M Im) as [m0 [_ E]].
    destruct (mask_message_cases m0 m E)
      as [[-> Z] | [md [items [items' [-> [L [N [R ->]]]]]]]].
    + rewrite Z in Ii. destruct Ii.
    + unfold content_items in Ii. rewrite lookup_dict_set_same in Ii.
      destruct (map_res_in _ _ _ item R Ii) as [i0 [_ Ei]].
      exact (mask_item_masked i0 item Ei).
  - exact (map_res_fixed mask_message messages masked mask_message_fixed M).
Qed.

Lemma masking_is_complete_and_idempotent_witness :
  List.length [text_message "system" "s"; image_message "[IMAGE_DATA]"]
  = List.length [text_message "system" "s"; image_message "data:image/png;base64,AAAA"]
  /\ (forall m item,
        In m [text_message "system" "s"; image_message "[IMAGE_DATA]"] ->
        In item (content_items m) -> masked_item item)
  /\ mask_image_urls_for_logging
       [text_message "system" "s"; image_message "[IMAGE_DATA]"]
     = Ok [text_message "system" "s"; image_message "[IMAGE_DATA]"].
Proof.
  apply (masking_is_complete_and_idempotent
           [text_message "system" "s";
            image_message "data:image/png;base64,AAAA"]).
  reflexivity.
Defined.

(** X18. On a list of messages as [_build_messages] makes them, masking
    raises nothing (so the masking inside the [try] block fails no attempt),
    returns the text messages as they are and the image message with the
    placeholder as its url. *)
Theorem masking_of_built_messages (messages : list json) :
  Forall built_message messages ->
  exists masked,
    mask_image_urls_for_logging messages = Ok masked
    /\ Forall2 masked_of messages masked.
Proof.
  unfold mask_image_urls_for_logging.
  induction 1 as [|m l B _ [masked [IH F]]].
  - exists []. split; [reflexivity | constructor].
  - destruct B as [[role [text ->]] | [url ->]].
    + exists (text_message role text :: masked). split.
      * cbn [map_res]. change (mask_message (text_message role text))
          with (Ok (text_message role text)). cbn [bind]. now rewrite IH.
      * constructor; [|exact F]. split; [reflexivity|].
        intros url E. discriminate E.
    + exists (image_message "[IMAGE_DATA]" :: masked). split.
      * cbn [map_res]. change (mask_message (image_message url))
          with (Ok (image_message "[IMAGE_DATA]")). cbn [bind]. now rewrite IH.
      * constructor; [|exact F]. split; [|reflexivity].
        intros role text E. discriminate E.
Qed.

Lemma masking_of_built_messages_witness :
  exists masked,
    mask_image_urls_for_logging
      [text_message "system" "s"; text_message "user" "open notepad";
       image_message "data:image/png;base64,AAAA"]
    = Ok masked
    /\ Forall2 masked_of
         [text_message "system" "s"; text_message "user" "open notepad";
          image_message "data:image/png;base64,AAAA"]
         masked.
Proof.
  apply masking_of_built_messages.
  apply Forall_cons; [left; now exists "system", "s"|].
  apply Forall_cons; [left; now exists "user", "open notepad"|].
  apply Forall_cons; [right; now exists "data:image/png;base64,AAAA"|].
  apply Forall_nil.
Defined.

(** * Properties of the caller and of the sibling agents *)

Section ScreenFacts.

Lemma Qle_bool_false (a b : Q) : Qle_bool a b = false -> (b < a)%Q.
Proof.
  intros E. apply Qnot_le_lt. intros L. apply Qle_bool_iff in L.
  rewrite L in E. discriminate.
Qed.

Lemma py_int_times_range (q : Q) (n : Z) :
  (0 <= q <= 1)%Q -> (0 <= n)%Z -> (0 <= py_int (q * inject_Z n) <= n)%Z.
Proof.
  intros [H0 H1] Hn.
  assert (W : (0 <= inject_Z n)%Q) by (now rewrite (Zle_Qle 0 n) in Hn).
  assert (L : (0 <= q * inject_Z n)%Q) by (now apply Qmult_le_0_compat).
  assert (U : (q * inject_Z n <= inject_Z n)%Q).
  { setoid_replace (inject_Z n) with (1 * inject_Z n)%Q at 2 by ring.
    now apply Qmult_le_compat_r. }
  unfold py_int. apply Qle_bool_iff in L as B. rewrite B. split.
  - change 0%Z with (Qfloor 0). now apply Qfloor_resp_le.
  - rewrite <- (Qfloor_Z n) at 2. now apply Qfloor_resp_le.
Qed.

Lemma clamp_unit (q : Q) : (0 <= max_0 (min_1 q) <= 1)%Q.
Proof.
  unfold max_0, min_1.
  destruct (Qle_bool 1 q) eqn:A.
  - change (Qle_bool 1 0) with false. cbv iota. split; discriminate.
  - apply Qle_bool_false in A.
    destruct (Qle_bool q 0) eqn:B.
    + split; discriminate.
    + apply Qle_bool_false in B. split; now apply Qlt_le_weak.
Qed.

End ScreenFacts.

(** X19. [DesktopController._normalize_to_screen] maps a pair of the unit
    square to a pixel pair between (0, 0) and ([width], [height]), both ends
    included: the coordinate 1 gives the pixel [width], one past the last
    column.  A coordinate that is not of length 2 is returned as it is. *)
Theorem normalize_to_screen_range (self : DesktopController) (x y : Q) :
  (0 <= width self)%Z -> (0 <= height self)%Z ->
  (0 <= x <= 1)%Q -> (0 <= y <= 1)%Q ->
  exists px py,
    _normalize_to_screen self (JArr [JNum x; JNum y])
    = Ok (JArr [JNum (inject_Z px); JNum (inject_Z py)])
    /\ (0 <= px <= width self)%Z /\ (0 <= py <= height self)%Z
    /\ (x == 1 -> px = width self) /\ (y == 1 -> py = height self).
Proof.
  intros Hw Hh Hx Hy.
  exists (py_int (x * inject_Z (width self))),
         (py_int (y * inject_Z (height self))).
  split; [reflexivity|].
  split; [now apply py_int_times_range|].
  split; [now apply py_int_times_range|].
  assert (P : forall q n, (0 <= n)%Z -> q == 1 -> py_int (q * inject_Z n) = n).
  { intros q n Hn E. unfold py_int.
    assert (Q1 : q * inject_Z n == inject_Z n) by (rewrite E; ring).
    assert (B : Qle_bool 0 (q * inject_Z n) = true).
    { apply Qle_bool_iff. rewrite Q1. now rewrite (Zle_Qle 0 n) in Hn. }
    rewrite B. rewrite (Qfloor_comp _ _ Q1). apply Qfloor_Z. }
  split; intros E; now apply P.
Qed.

Lemma normalize_to_screen_range_witness :
  exists px py,
    _normalize_to_screen {| width := 1920; height := 1080 |}
      (JArr [JNum (1 # 2); JNum 1])
    = Ok (JArr [JNum (inject_Z px); JNum (inject_Z py)])
    /\ (0 <= px <= 1920)%Z /\ (0 <= py <= 1080)%Z
    /\ ((1 # 2) == 1 -> px = 1920%Z) /\ (1 == 1 -> py = 1080%Z).
Proof.
  apply (normalize_to_screen_range {| width := 1920; height := 1080 |} (1 # 2) 1).
  - simpl. lia.
  - simpl. lia.
  - split; discriminate.
  - split; discriminate.
Defined.

(** X20. [MAIDesktopOneShotAgent._to_screen_coords] clamps: for every pair
    of numbers, inside the unit square or not, and a screen of non-negative
    size, it returns a pixel pair between (0, 0) and the screen size; its
    check of the result never raises. *)
Theorem to_screen_coords_clamps (screen_width screen_height : Z) (x y : Q) :
  (0 <= screen_width)%Z -> (0 <= screen_height)%Z ->
  exists sx sy,
    _to_screen_coords screen_width screen_height (JArr [JNum x; JNum y])
    = Ok (JArr [JNum (inject_Z sx); JNum (inject_Z sy)])
    /\ (0 <= sx <= screen_width)%Z /\ (0 <= sy <= screen_height)%Z.
Proof.
  intros Hw Hh.
  pose proof (py_int_times_range _ screen_width (clamp_unit x) Hw) as [X0 X1].
  pose proof (py_int_times_range _ screen_height (clamp_unit y) Hh) as [Y0 Y1].
  exists (py_int (max_0 (min_1 x) * inject_Z screen_width)),
         (py_int (max_0 (min_1 y) * inject_Z screen_height)).
  split; [|split; split; assumption].
  unfold _to_screen_coords, clamped_times. cbn [py_len List.length Nat.eqb bind as_num].
  apply Z.leb_le in X0, X1, Y0, Y1. now rewrite X0, X1, Y0, Y1.
Qed.

Lemma to_screen_coords_clamps_witness :
  exists sx sy,
    _to_screen_coords 1920 1080 (JArr [JNum (-3); JNum 7])
    = Ok (JArr [JNum (inject_Z sx); JNum (inject_Z sy)])
    /\ (0 <= sx <= 1920)%Z /\ (0 <= sy <= 1080)%Z.
Proof.
  apply (to_screen_coords_clamps 1920 1080 (-3) 7); lia.
Defined.

Section LaunchFacts.

Lemma table_get_in (k : string) (t : list (string * string)) (cmd : string) :
  NoDup (map fst t) -> In (k, cmd) t -> table_get k t = Some cmd.
Proof.
  induction t as [|[k' v] t IH]; simpl; [intros _ []|].
  intros N [[= -> ->] | I].
  - now rewrite String.eqb_refl.
  - inversion N as [|? ? Nk Nt]; subst.
    destruct (String.eqb k k') eqn:E; [|now apply IH].
    apply String.eqb_eq in E. subst k'. exfalso. apply Nk.
    change k with (fst (k, cmd)). now apply in_map.
Qed.

Lemma table_get_none (k : string) (t : list (string * string)) :
  ~ In k (map fst t) -> table_get k t = None.
Proof.
  induction t as [|[k' v] t IH]; simpl; [reflexivity|].
  intros N. destruct (String.eqb k k') eqn:E.
  - apply String.eqb_eq in E. subst k'. exfalso. apply N. now left.
  - apply IH. intros I. apply N. now right.
Qed.

(** The first key that is related to the name is the one chosen. *)
Lemma fuzzy_match_first (app_name key cmd : string)
  (t1 t2 : list (string * string)) :
  unrelated app_name t1 ->
  Str.contains key app_name = true \/ Str.contains app_name key = true ->
  fuzzy_match app_name (t1 ++ (key, cmd) :: t2) = Some (key, cmd).
Proof.
  intros U R. induction t1 as [|[k' v] t1 IH]; simpl.
  - destruct R as [-> | ->]; [reflexivity | now rewrite orb_true_r].
  - destruct (U k' (or_introl eq_refl)) as [-> ->]. simpl.
    apply IH. intros k I. apply U. now right.
Qed.

Lemma fuzzy_match_none (app_name : string) (t : list (string * string)) :
  unrelated app_name t -> fuzzy_match app_name t = None.
Proof.
  induction t as [|[k' v] t IH]; simpl; [reflexivity|].
  intros U. destruct (U k' (or_introl eq_refl)) as [-> ->]. simpl.
  apply IH. intros k I. apply U. now right.
Qed.

Lemma app_commands_keys : NoDup (map fst app_commands).
Proof.
  unfold app_commands. simpl.
  repeat (constructor; [simpl; intuition discriminate|]). constructor.
Qed.

End LaunchFacts.

(** X21. [DesktopController._launch] with an ASCII text whose cleaned name
    is not empty always passes a command to the shell: the command that the
    table [app_commands] has for the name; if the name is no key, the command
    of the first key of the table that contains the name or is contained in
    it; and the name itself if there is no such key. *)
Theorem launch_command (d : dict) (text name : string) :
  lookup "text" d = Some (JStr text) ->
  ascii_text text ->
  clean_app_name text = name -> name <> "" ->
  (forall cmd, In (name, cmd) app_commands ->
     _launch (JObj d) = Ok (LaunchRun cmd ("Launched: " ++ name)))
  /\ (~ In name (map fst app_commands) ->
      forall t1 key cmd t2,
        app_commands = (t1 ++ (key, cmd) :: t2)%list ->
        unrelated name t1 ->
        Str.contains key name = true \/ Str.contains name key = true ->
        _launch (JObj d)
        = Ok (LaunchRun cmd ("Launched: " ++ name ++ " (matched to " ++ key ++ ")")))
  /\ (unrelated name app_commands ->
      _launch (JObj d) = Ok (LaunchRun name ("Launched: " ++ name))).
Proof.
  intros L _ C N. unfold _launch. cbn [py_get bind]. rewrite L, C.
  apply String.eqb_neq in N. rewrite N.
  split; [|split].
  - intros cmd I. now rewrite (table_get_in _ _ _ app_commands_keys I).
  - intros K t1 key cmd t2 E U R.
    rewrite (table_get_none _ _ K). rewrite E.
    now rewrite (fuzzy_match_first name key cmd t1 t2 U R).
  - intros U.
    assert (K : ~ In name (map fst app_commands)).
    { intros I. destruct (U name I) as [H _].
      destruct name as [|c n]; [discriminate N|].
      pose proof (contains_app (String c n) "" "") as A.
      rewrite append_nil_r in A. simpl in A, H. congruence. }
    rewrite (table_get_none _ _ K). now rewrite (fuzzy_match_none _ _ U).
Qed.

Lemma launch_command_witness :
  _launch (JObj (Sample.launched " 'Pad' "))
  = Ok (LaunchRun "notepad.exe" "Launched: pad (matched to notepad)")
  /\ _launch (JObj (Sample.launched "Calc"))
     = Ok (LaunchRun "calc.exe" "Launched: calc").
Proof.
  split.
  - destruct (launch_command (Sample.launched " 'Pad' ") " 'Pad' " "pad"
                eq_refl eq_refl eq_refl ltac:(discriminate)) as [_ [H _]].
    apply (H ltac:(simpl; intuition discriminate) [] "notepad" "notepad.exe"
             (tl app_commands) eq_refl).
    + intros key [].
    + right. reflexivity.
  - destruct (launch_command (Sample.launched "Calc") "Calc" "calc"
                eq_refl eq_refl eq_refl ltac:(discriminate)) as [H _].
    apply H. simpl. tauto.
Defined.

Section OneShotFacts.

Lemma dict_set_same_value (k : string) (v : json) (d : dict) :
  lookup k d = Some v -> dict_set k v d = d.
Proof.
  induction d as [|[k' v'] d IH]; simpl; [discriminate|].
  destruct (String.eqb k k') eqn:E.
  - now intros [= ->].
  - intros H. now rewrite IH.
Qed.

Lemma should_normalize_num (q : Q) :
  should_normalize (JNum q) = negb (Qle_bool q (3 # 2)).
Proof. reflexivity. Qed.

Lemma normalize_entry_pair (key : string) (d : dict) (x y : json) :
  lookup key d = Some (JArr [x; y]) ->
  normalize_entry key (JObj d)
  = Ok (JObj (if should_normalize x || should_normalize y
              then dict_set key (JArr [normalize_value x; normalize_value y]) d
              else d)).
Proof.
  intros L. unfold normalize_entry. cbn [py_in py_getitem bind]. rewrite L.
  cbn [bind]. now destruct (should_normalize x || should_normalize y).
Qed.

End OneShotFacts.

(** X22. The navigation parser and the one-shot agents agree on a pair of
    numbers that lies in the unit range (both values at most 1) or in the
    scaled range (both values above 1.5): the block of
    [parse_action_to_structure_output] and the block of
    [_normalize_action_coordinates] give the same action. *)
Theorem codecs_agree (key : string) (d : dict) (x y : Q) :
  lookup key d = Some (JArr [JNum x; JNum y]) ->
  ((x <= 1 /\ y <= 1) \/ (3 # 2 < x /\ 3 # 2 < y))%Q ->
  normalize_entry key (JObj d) = normalize_field key (JObj d).
Proof.
  intros L H. rewrite (normalize_field_pair key d x y L).
  rewrite (normalize_entry_pair key d (JNum x) (JNum y) L).
  rewrite !should_normalize_num. destruct H as [[Hx Hy] | [Hx Hy]].
  - assert (Ax : Qle_bool x (3 # 2) = true) by (apply Qle_bool_iff; lra).
    assert (Ay : Qle_bool y (3 # 2) = true) by (apply Qle_bool_iff; lra).
    rewrite Ax, Ay. cbn [negb orb].
    rewrite (unit_pair_unchanged x y (conj Hx Hy)).
    now rewrite (dict_set_same_value key _ d L).
  - assert (Ax : Qle_bool x (3 # 2) = false).
    { destruct (Qle_bool x (3 # 2)) eqn:E; [|reflexivity].
      apply Qle_bool_iff in E. lra. }
    assert (Ay : Qle_bool y (3 # 2) = false).
    { destruct (Qle_bool y (3 # 2)) eqn:E; [|reflexivity].
      apply Qle_bool_iff in E. lra. }
    rewrite Ax. cbn [negb orb]. unfold normalize_value. cbn [as_num].
    rewrite Ax, Ay. cbn [negb].
    rewrite unit_pair_divided; [reflexivity|]. intros [Bx _]. lra.
Qed.

Lemma codecs_agree_witness :
  normalize_entry "coordinate" (JObj (Sample.click_at 500 500))
  = normalize_field "coordinate" (JObj (Sample.click_at 500 500)).
Proof.
  apply (codecs_agree "coordinate" (Sample.click_at 500 500) 500 500).
  - reflexivity.
  - right. split; reflexivity.
Defined.

(** X23. They differ on a pair whose first value is above 1 and whose second
    value is at most 1.5 and not 0: the navigation parser divides the second
    value by the scale factor, the one-shot agents keep it, and the two
    actions are different. *)
Theorem codecs_differ (key : string) (d : dict) (x y : Q) :
  lookup key d = Some (JArr [JNum x; JNum y]) ->
  (1 < x)%Q -> (y <= 3 # 2)%Q -> ~ (y == 0)%Q ->
  (exists d1 d2 x1 x2,
     normalize_entry key (JObj d) = Ok (JObj d1)
     /\ normalize_field key (JObj d) = Ok (JObj d2)
     /\ lookup key d1 = Some (JArr [x1; JNum y])
     /\ lookup key d2 = Some (JArr [x2; JNum (Qred (y / SCALE_FACTOR))]))
  /\ ~ (Qred (y / SCALE_FACTOR) == y)%Q
  /\ normalize_entry key (JObj d) <> normalize_field key (JObj d).
Proof.
  intros L Hx Hy Hz.
  assert (D : ~ (Qred (y / SCALE_FACTOR) == y)%Q).
  { intros E.
    pose proof (Qeq_trans _ _ _ (Qeq_sym _ _ E) (Qred_correct (y / SCALE_FACTOR)))
      as T.
    unfold SCALE_FACTOR, Qdiv in T.
    change (/ 999)%Q with (1 # 999)%Q in T. apply Hz. lra. }
  assert (P : exists d1 d2 x1 x2,
     normalize_entry key (JObj d) = Ok (JObj d1)
     /\ normalize_field key (JObj d) = Ok (JObj d2)
     /\ lookup key d1 = Some (JArr [x1; JNum y])
     /\ lookup key d2 = Some (JArr [x2; JNum (Qred (y / SCALE_FACTOR))])).
  { rewrite (normalize_field_pair key d x y L).
    rewrite (normalize_entry_pair key d (JNum x) (JNum y) L).
    rewrite !should_normalize_num.
    assert (Ay : Qle_bool y (3 # 2) = true) by (now apply Qle_bool_iff).
    rewrite Ay. cbn [negb]. rewrite orb_false_r.
    rewrite unit_pair_divided by (intros [Bx _]; lra).
    destruct (negb (Qle_bool x (3 # 2))).
    - eexists _, _, _, _. split; [reflexivity|]. split; [reflexivity|].
      rewrite !lookup_dict_set_same. unfold normalize_value at 2. cbn [as_num].
      rewrite Ay. cbn [negb]. split; reflexivity.
    - eexists _, _, _, _. split; [reflexivity|]. split; [reflexivity|].
      rewrite lookup_dict_set_same. split; [exact L | reflexivity]. }
  split; [exact P|]. split; [exact D|].
  destruct P as [d1 [d2 [x1 [x2 [E1 [E2 [L1 L2]]]]]]].
  rewrite E1, E2. intros [= E]. subst d2. rewrite L1 in L2.
  assert (Ey : y = Qred (y / SCALE_FACTOR)) by congruence.
  apply D. rewrite <- Ey. apply Qeq_refl.
Qed.

Lemma codecs_differ_witness :
  normalize_entry "coordinate" (JObj (Sample.click_at (6 # 5) (1 # 2)))
  <> normalize_field "coordinate" (JObj (Sample.click_at (6 # 5) (1 # 2))).
Proof.
  apply (codecs_differ "coordinate" (Sample.click_at (6 # 5) (1 # 2))
           (6 # 5) (1 # 2)).
  - reflexivity.
  - reflexivity.
  - discriminate.
  - discriminate.
Defined.
